(** * Circuit-based explanation engine (xALogic): embedding and properties

    Shallow embedding of the d-DNNF explanation code of [xALogic.ipynb]:
    the [dDNNF] object, the loader [file_to_dDNNF], the in-place procedures
    [consensus] and [filter], the transforms [negate], [quantify] and
    [condition], the evaluator [is_satisfiable], the reason enumerator [Pi]
    and the queries built on them.

    Modelling decisions.
    - Python exceptions are the [Raise] outcomes of the [res] monad.  The
      recursive functions [is_satisfiable] and [Pi] take the interpreter's
      recursion limit as a [nat]; exceeding it is [Raise RecursionError].
    - Node labels are Python strings and stay strings here: the code
      dispatches on [label[i][0]], on whole-string equality and on [int(..)].
    - [dDNNF.children] is a list of references to row objects.  Rows are
      shared between circuits by [negate], [condition], [quantify] and the
      copy loop of [evenIf_because_t], and mutated by [consensus], so rows
      live in a [heap] and a circuit holds their locations.  The two outer
      lists of a [dDNNF] are created afresh by every constructor call and
      never shared, so they are carried by value.  A function that can
      raise returns no heap: what an exception leaves behind is not
      observed.  A location that was never allocated reads as the empty
      row; no function of the code produces one.
    - A [dict[int, bool]] is an association list in insertion order; a
      [set[int]] is a [gset Z], walked in the order of [elements] where the
      code iterates over it.
    - Instances ([list[bool]] or lists of 0 and 1) are lists of integers
      with Python's truth value.
    - Text is ASCII: one [ascii] is one Python character. *)

From Stdlib Require Import ZArith String Ascii List Lia.
From Stdlib Require Import Decimal DecimalString DecimalZ DecimalPos.
From stdpp Require Import base decidable list gmap strings.

Local Open Scope string_scope.
Local Open Scope Z_scope.
Local Open Scope list_scope.

(** ** Python primitives *)

Module Py.

Inductive exn : Type := IndexError | ValueError | RecursionError.

Inductive res (A : Type) : Type :=
| Ok (a : A)
| Raise (e : exn).
Arguments Ok {A} a.
Arguments Raise {A} e.

Definition bind {A B} (m : res A) (k : A -> res B) : res B :=
  match m with
  | Ok a => k a
  | Raise e => Raise e
  end.

Definition of_option {A} (o : option A) (e : exn) : res A :=
  match o with
  | Some a => Ok a
  | None => Raise e
  end.

(** [l[i]] on a list: negative indices count from the end. *)
Definition norm_index (n : nat) (i : Z) : option nat :=
  if 0 <=? i then
    (if i <? Z.of_nat n then Some (Z.to_nat i) else None)
  else
    (if - Z.of_nat n <=? i then Some (Z.to_nat (Z.of_nat n + i)) else None).

Definition get {A} (l : list A) (i : Z) : res A :=
  match norm_index (length l) i with
  | Some k => of_option (l !! k) IndexError
  | None => Raise IndexError
  end.

(** [l[i] = x] on a list. *)
Definition set {A} (l : list A) (i : Z) (x : A) : res (list A) :=
  match norm_index (length l) i with
  | Some k => Ok (<[k := x]> l)
  | None => Raise IndexError
  end.

(** [s[i]] on a string, for the two indices the code uses. *)
Definition char0 (s : string) : res ascii :=
  match s with
  | String c _ => Ok c
  | EmptyString => Raise IndexError
  end.

Definition char1 (s : string) : res ascii :=
  match s with
  | String _ (String c _) => Ok c
  | _ => Raise IndexError
  end.

Definition chr_eqb (a b : ascii) : bool := bool_decide (a = b).
Definition str_eqb (a b : string) : bool := bool_decide (a = b).

(** Characters for which [str.isspace] holds (ASCII range). *)
Definition is_space (c : ascii) : bool :=
  let n := nat_of_ascii c in
  ((9 <=? n) && (n <=? 13) || (28 <=? n) && (n <=? 32))%nat.

Definition is_digit (c : ascii) : bool :=
  let n := nat_of_ascii c in ((48 <=? n) && (n <=? 57))%nat.

Fixpoint lstrip (s : string) : string :=
  match s with
  | String c s' => if is_space c then lstrip s' else s
  | EmptyString => EmptyString
  end.

Fixpoint rstrip (s : string) : string :=
  match s with
  | String c s' =>
      match rstrip s' with
      | EmptyString => if is_space c then EmptyString else String c EmptyString
      | r => String c r
      end
  | EmptyString => EmptyString
  end.

(** [s.strip()] *)
Definition strip (s : string) : string := rstrip (lstrip s).

(** [s.split(' ')]: every single blank separates; never the empty list. *)
Fixpoint split_blank (s : string) : list string :=
  match s with
  | EmptyString => [EmptyString]
  | String c s' =>
      if chr_eqb c " "%char then EmptyString :: split_blank s'
      else match split_blank s' with
           | t :: ts => String c t :: ts
           | [] => [String c EmptyString]
           end
  end.

(** The digit part of an integer literal: digits, with single underscores
    allowed between two digits.  Returns the digits alone. *)
Fixpoint digits_of (prev_digit : bool) (s : string) : option string :=
  match s with
  | EmptyString => if prev_digit then Some EmptyString else None
  | String c s' =>
      if is_digit c then option_map (String c) (digits_of true s')
      else if chr_eqb c "_"%char then
        (if prev_digit then
           match s' with
           | String c' _ => if is_digit c' then digits_of false s' else None
           | EmptyString => None
           end
         else None)
      else None
  end.

Definition int_opt (s : string) : option Z :=
  match strip s with
  | EmptyString => None
  | String c body =>
      let '(neg, body) :=
        if chr_eqb c "-"%char then (true, body)
        else if chr_eqb c "+"%char then (false, body)
        else (false, String c body) in
      match digits_of false body with
      | Some ds =>
          match NilZero.uint_of_string ds with
          | Some u => Some (if neg then - Z.of_uint u else Z.of_uint u)
          | None => None
          end
      | None => None
      end
  end.

(** [int(s)] *)
Definition int (s : string) : res Z := of_option (int_opt s) ValueError.

(** [str(x)] on an integer. *)
Definition str (x : Z) : string := NilZero.string_of_int (Z.to_int x).

(** One-character string, as produced by [s[i]]. *)
Definition of_char (c : ascii) : string := String c EmptyString.

(** Truth value of an integer. *)
Definition truthy (x : Z) : bool := negb (x =? 0).

End Py.

Export Py(exn(..), res(..)).

Notation "'do' x <- m ; k" := (Py.bind m (fun x => k))
  (at level 10, x name, m at level 100, k at level 200).
Notation "'do' ' p <- m ; k" := (Py.bind m (fun x => match x with p => k end))
  (at level 10, p pattern, m at level 100, k at level 200).

(** Left-to-right loop; an exception leaves the loop. *)
Fixpoint foldM {A B} (f : A -> B -> res A) (a : A) (l : list B) : res A :=
  match l with
  | [] => Ok a
  | x :: l' => do a' <- f a x; foldM f a' l'
  end.

(** [range(n)] and [range(lo, hi)] *)
Definition range (n : nat) : list Z := map Z.of_nat (seq 0 n).
Definition range2 (lo hi : Z) : list Z :=
  map (fun k => lo + Z.of_nat k) (seq 0 (Z.to_nat (hi - lo))).

(** A [dict[int, bool]]: keys in insertion order, each key once. *)
Definition dict := list (Z * bool).

Fixpoint dict_get (a : dict) (y : Z) : option bool :=
  match a with
  | [] => None
  | (k, v) :: a' => if k =? y then Some v else dict_get a' y
  end.

(** [a[k] = v] *)
Fixpoint dict_set (a : dict) (k : Z) (v : bool) : dict :=
  match a with
  | [] => [(k, v)]
  | (k', v') :: a' =>
      if k' =? k then (k', v) :: a' else (k', v') :: dict_set a' k v
  end.

(** ** The circuit object *)

(** Locations of row objects. *)
Notation loc := nat (only parsing).

(** The store of row objects (the inner lists of [children]); a new row is
    allocated at the end. *)
Notation heap := (list (list Z)) (only parsing).

Record dDNNF : Type := mk_dDNNF {
  children : list loc;
  label : list string
}.

Definition deref (h : heap) (l : loc) : list Z := h !!! l.

(** [decision.children[i]] *)
Definition row (h : heap) (d : dDNNF) (i : Z) : res (list Z) :=
  do l <- Py.get (children d) i; Ok (deref h l).

(** [dDNNF(v)]: [v] fresh empty rows and [v] empty labels. *)
Definition new_dDNNF (h : heap) (v : nat) : heap * dDNNF :=
  (h ++ replicate v [], mk_dDNNF (seq (length h) v) (replicate v "")).

(** [decision.children[idx].append(x)] *)
Definition append_child (st : heap * dDNNF) (idx x : Z) : res (heap * dDNNF) :=
  let '(h, d) := st in
  do l <- Py.get (children d) idx;
  Ok (alter (fun r => r ++ [x]) l h, d).

(** [decision.label[idx] = s] *)
Definition set_label (st : heap * dDNNF) (idx : Z) (s : string)
  : res (heap * dDNNF) :=
  let '(h, d) := st in
  do ls <- Py.set (label d) idx s;
  Ok (h, mk_dDNNF (children d) ls).

(** ** Circuit Loader *)

(** The tokens of the [k]-th [readline()] of the file:
    [f.readline().strip().split(' ')]; past the end [readline] gives [''] *)
Definition read_tokens (file : list string) (k : nat) : list string :=
  Py.split_blank (Py.strip (nth k file "")).

(** One turn of the [while (i < v)] loop. *)
Definition load_step (v : Z) (file : list string) (st : heap * dDNNF) (i : Z)
  : res (heap * dDNNF) :=
  let line := read_tokens file (S (Z.to_nat i)) in
  let idx := v - i - 1 in
  do tag <- Py.get line 0;
  if Py.str_eqb tag "A" then
    do kt <- Py.get line 1;
    do k <- Py.int kt;
    if k =? 0 then set_label st idx "T"
    else
      do st' <- foldM (fun st j =>
                         do tj <- Py.get line j;
                         do c <- Py.int tj;
                         append_child st idx (v - c - 1))
                      st (range2 2 (k + 2));
      set_label st' idx "A"
  else if Py.str_eqb tag "O" then
    do kt <- Py.get line 2;
    do k <- Py.int kt;
    if k =? 0 then set_label st idx "F"
    else
      do t3 <- Py.get line 3;
      do c3 <- Py.int t3;
      do st1 <- append_child st idx (v - c3 - 1);
      do t4 <- Py.get line 4;
      do c4 <- Py.int t4;
      do st2 <- append_child st1 idx (v - c4 - 1);
      do x <- Py.get line 1;
      set_label st2 idx ("O" +:+ x)
  else
    do t1 <- Py.get line 1;
    set_label st idx t1.

(** [file_to_dDNNF]; the file is given by its lines.  [None] is the
    [return None] of the source. *)
Definition file_to_dDNNF (h : heap) (file : list string)
  : res (heap * option dDNNF) :=
  let line := read_tokens file 0 in
  match line with
  | [] => Ok (h, None)
  | _ =>
      do vt <- Py.get line 1;
      do v <- Py.int vt;
      do st <- foldM (load_step v file) (new_dDNNF h (Z.to_nat v))
                     (range (Z.to_nat v));
      Ok (st.1, Some st.2)
  end.

(** ** Consensus and Filter (in place) *)

(** [label[w] not in {str(x), str(-x)}] *)
Definition not_lit (lw : string) (x : Z) : bool :=
  negb (Py.str_eqb lw (Py.str x) || Py.str_eqb lw (Py.str (- x))).

(** The inner loop of [consensus]: [cons] grows by [append]. *)
Definition collect (d : dDNNF) (x : Z) (ws : list Z) : res (list Z) :=
  foldM (fun cons w =>
           do lw <- Py.get (label d) w;
           Ok (if not_lit lw x then cons ++ [w] else cons))
        [] ws.

Definition consensus_step (st : heap * dDNNF) (i : Z) : res (heap * dDNNF) :=
  let '(h, d) := st in
  do l <- Py.get (label d) i;
  do c <- Py.char0 l;
  if Py.chr_eqb c "O" then
    do c1 <- Py.char1 l;
    do x <- Py.int (Py.of_char c1);
    do ri <- row h d i;
    do k <- Py.get ri 0;
    do ri' <- row h d i;
    do j <- Py.get ri' 1;
    do rk <- row h d k;
    do rj <- row h d j;
    do cons <- collect d x (rk ++ rj);
    let h1 := h ++ [cons] in
    let cs1 := children d ++ [length h] in
    do li <- Py.get cs1 i;
    let h2 := alter (fun r => r ++ [Z.of_nat (length (label d))]) li h1 in
    Ok (h2, mk_dDNNF cs1 (label d ++ ["A"]))
  else Ok st.

Definition consensus (h : heap) (d : dDNNF) : res (heap * dDNNF) :=
  foldM consensus_step (h, d) (range (length (label d))).

(** [label[i][0] not in {'O', 'A', 'T', 'F'}] *)
Definition is_leaf_char (c : ascii) : bool :=
  negb (Py.chr_eqb c "O" || Py.chr_eqb c "A" || Py.chr_eqb c "T"
        || Py.chr_eqb c "F").

(** [(x > 0 and (not a[y])) or (x < 0 and a[y])] with [y = abs(x) - 1];
    [a[y]] is read only when the sign test before it holds. *)
Definition disagrees (a : list Z) (x : Z) : res bool :=
  let y := Z.abs x - 1 in
  if x >? 0 then
    do ay <- Py.get a y;
    Ok (negb (Py.truthy ay))
  else if x <? 0 then
    do ay <- Py.get a y;
    Ok (Py.truthy ay)
  else Ok false.

Definition filter_step (a : list Z) (ls : list string) (i : Z)
  : res (list string) :=
  do l <- Py.get ls i;
  do c <- Py.char0 l;
  if is_leaf_char c then
    do x <- Py.int l;
    do b <- disagrees a x;
    if b then Py.set ls i "F" else Ok ls
  else Ok ls.

Definition filter (d : dDNNF) (a : list Z) : res dDNNF :=
  do ls <- foldM (filter_step a) (label d) (range (length (children d)));
  Ok (mk_dDNNF (children d) ls).

(** ** Transforms that return a new circuit *)

(** The loop shared by [negate], [quantify], [condition] and the copy in
    [evenIf_because_t]: for [i] in [range(v)], the new circuit's
    [children[i]] is bound to the same row object and its [label[i]] is
    computed from the old label.  The rows that [dDNNF(v)] allocated are all
    rebound and unreachable on return, so the heap is left as it is. *)
Fixpoint relabel_nodes (f : string -> res string) (d : dDNNF) (ixs : list Z)
  : res (list loc * list string) :=
  match ixs with
  | [] => Ok ([], [])
  | i :: ixs' =>
      do c <- Py.get (children d) i;
      do l <- Py.get (label d) i;
      do l' <- f l;
      do rest <- relabel_nodes f d ixs';
      Ok (c :: rest.1, l' :: rest.2)
  end.

Definition relabel (f : string -> res string) (d : dDNNF) : res dDNNF :=
  do r <- relabel_nodes f d (range (length (label d)));
  Ok (mk_dDNNF r.1 r.2).

Definition negate_label (l : string) : res string :=
  do c <- Py.char0 l;
  if Py.chr_eqb c "T" then Ok "F"
  else if Py.chr_eqb c "F" then Ok "T"
  else if Py.chr_eqb c "A" then Ok "O"
  else if Py.chr_eqb c "O" then Ok "A"
  else do x <- Py.int l; Ok (Py.str (- x)).

Definition negate (d : dDNNF) : res dDNNF := relabel negate_label d.

Definition quantify_label (a : list Z) (l : string) : res string :=
  do c <- Py.char0 l;
  if is_leaf_char c then
    do x <- Py.int l;
    do ay <- Py.get a (Z.abs x - 1);
    Ok (if Py.truthy ay then "T" else l)
  else Ok l.

Definition quantify (d : dDNNF) (a : list Z) : res dDNNF :=
  relabel (quantify_label a) d.

Definition condition_label (a : dict) (l : string) : res string :=
  do c <- Py.char0 l;
  if is_leaf_char c then
    do x <- Py.int l;
    match dict_get a (Z.abs x) with
    | Some ay =>
        Ok (if (x >? 0) && ay || (x <? 0) && negb ay then "T" else "F")
    | None => Ok l
    end
  else Ok l.

Definition condition (d : dDNNF) (a : dict) : res dDNNF :=
  relabel (condition_label a) d.

(** ** Satisfiability Evaluator *)

(** [for j in range(1, len(children[i]))] reads [children[i][j]] in turn;
    the row does not change meanwhile, so the loops below walk its tail.

    [boolean = boolean and is_satisfiable(..)] over the children after the
    first: the call is made only while [boolean] is true. *)
Definition and_loop (call : Z -> res bool) (b : bool) (cs : list Z) : res bool :=
  foldM (fun (b : bool) (c : Z) => if b then call c else Ok false) b cs.

(** [boolean = boolean or is_satisfiable(..)]: the call is made only while
    [boolean] is false. *)
Definition or_loop (call : Z -> res bool) (b : bool) (cs : list Z) : res bool :=
  foldM (fun (b : bool) (c : Z) => if b then Ok true else call c) b cs.

Fixpoint is_satisfiable (limit : nat) (h : heap) (d : dDNNF) (i : Z) : res bool :=
  match limit with
  | O => Raise RecursionError
  | S n =>
      do l <- Py.get (label d) i;
      do c <- Py.char0 l;
      if Py.chr_eqb c "F" then Ok false
      else if Py.chr_eqb c "A" then
        do r <- row h d i;
        do j <- Py.get r 0;
        do b <- is_satisfiable n h d j;
        and_loop (is_satisfiable n h d) b (tail r)
      else if Py.chr_eqb c "O" then
        do r <- row h d i;
        do j <- Py.get r 0;
        do b <- is_satisfiable n h d j;
        or_loop (is_satisfiable n h d) b (tail r)
      else Ok true
  end.

(** ** Reason Enumerator *)

Definition reason := gset Z.

Definition prod_cart (s1 s2 : list reason) : list reason :=
  x ← s1; y ← s2; [x ∪ y].

(** [[res[i] for i in range(len(res)) if res[i] not in res[i + 1:]]] *)
Fixpoint keep_last (l : list reason) : list reason :=
  match l with
  | [] => []
  | x :: l' => if bool_decide (x ∈ l') then keep_last l' else x :: keep_last l'
  end.

Definition subsumed (r : list reason) (s1 : reason) : bool :=
  bool_decide (Exists (fun s2 => s2 ⊂ s1) r).

Definition remove_subsumed (r : list reason) : list reason :=
  keep_last (List.filter (fun s1 => negb (subsumed r s1)) r).

Definition prod_loop (call : Z -> res (list reason)) (r : list reason)
  (cs : list Z) : res (list reason) :=
  foldM (fun r c => do r' <- call c; Ok (prod_cart r r')) r cs.

Definition concat_loop (call : Z -> res (list reason)) (r : list reason)
  (cs : list Z) : res (list reason) :=
  foldM (fun r c => do r' <- call c; Ok (r ++ r')) r cs.

Fixpoint Pi (limit : nat) (h : heap) (d : dDNNF) (i : Z) : res (list reason) :=
  match limit with
  | O => Raise RecursionError
  | S n =>
      do l <- Py.get (label d) i;
      do r <-
        (if Py.str_eqb l "F" then Ok []
         else if Py.str_eqb l "T" then Ok [∅]
         else if Py.str_eqb l "A" then
           do cs <- row h d i;
           do j <- Py.get cs 0;
           do r0 <- Pi n h d j;
           prod_loop (Pi n h d) r0 (tail cs)
         else
           do c <- Py.char0 l;
           if Py.chr_eqb c "O" then
             do cs <- row h d i;
             do j <- Py.get cs 0;
             do r0 <- Pi n h d j;
             concat_loop (Pi n h d) r0 (tail cs)
           else
             do x <- Py.int l; Ok [{[ x ]}]);
      Ok (remove_subsumed r)
  end.

(** ** Query Layer *)

Definition necessary_step (limit : nat) (h : heap) (d : dDNNF)
  (acc : gset Z) (i : Z) : res (gset Z) :=
  do pos <- condition d [(i, false)];
  do neg <- condition d [(i, true)];
  do sp <- is_satisfiable limit h pos 0;
  let res1 := if sp then acc else acc ∪ {[ i ]} in
  do sn <- is_satisfiable limit h neg 0;
  Ok (if sn then res1 else res1 ∪ {[ - i ]}).

Definition necessary_property (limit : nat) (h : heap) (d : dDNNF) (m : Z)
  : res (gset Z) :=
  foldM (necessary_step limit h d) ∅ (range2 1 (m + 1)).

(** [{abs(x): x < 0 for x in necessary_prop}]; the set is walked in the
    order of [elements]. *)
Definition assign_literals (val : Z -> bool) (xs : list Z) (a : dict) : dict :=
  fold_left (fun a x => dict_set a (Z.abs x) (val x)) xs a.

Definition flipped_assignment (np : gset Z) : dict :=
  assign_literals (fun x => x <? 0) (elements np) [].

Definition necessary_Reason (limit : nat) (h : heap) (d : dDNNF) (m : Z)
  : res (gset Z) :=
  do np <- necessary_property limit h d m;
  do cd <- condition d (flipped_assignment np);
  do s <- is_satisfiable limit h cd 0;
  Ok (if s then ∅ else np).

(** The [for (c, v) in t.items()] loop of [because_t], with its [return]. *)
Fixpoint because_loop (limit : nat) (h : heap) (d : dDNNF) (items : dict)
  : res bool :=
  match items with
  | [] => Ok true
  | (c, v) :: rest =>
      do cd <- condition d [(c, negb v)];
      do s <- is_satisfiable limit h cd 0;
      if s then Ok false else because_loop limit h d rest
  end.

Definition because_t (limit : nat) (h : heap) (d : dDNNF) (t : dict) : res bool :=
  do nd <- negate d;
  do cd <- condition nd t;
  do s <- is_satisfiable limit h cd 0;
  if s then Ok false else because_loop limit h d t.

(** [[a[i] if (i + 1 not in p) else 1 - a[i] for i in range(len(a))]] *)
Definition perturb (a : list Z) (p : gset Z) : list Z :=
  imap (fun i ai => if bool_decide (Z.of_nat i + 1 ∈ p) then 1 - ai else ai) a.

(** Returns the heap as the call leaves it, with the answer. *)
Definition evenIf_because_t (limit : nat) (h : heap) (d : dDNNF) (a : list Z)
  (t : dict) (p : gset Z) : res (heap * bool) :=
  do decision_b <- relabel Ok d;
  let b := perturb a p in
  do st <- consensus h decision_b;
  do fd <- filter st.2 b;
  do r <- because_t limit st.1 fd t;
  Ok (st.1, r).

Definition decision_bias (limit : nat) (h : heap) (d : dDNNF)
  (unprotected_vars : list Z) : res bool :=
  do q <- quantify d unprotected_vars;
  do nq <- negate q;
  is_satisfiable limit h nq 0.

(** ** Auxiliary notions used in the statements *)

(** [r] is a non-empty list. *)
Definition nonempty {A} (l : list A) : bool :=
  match l with
  | [] => false
  | _ :: _ => true
  end.

(** ** Concrete circuits *)

Definition nl : string := String (ascii_of_nat 10) EmptyString.

(** Load a file, run [consensus], then [filter] by the instance [a]: how
    the notebook prepares every decision circuit. *)
Definition decision_circuit (h : heap) (file : list string) (a : list Z)
  : res (heap * dDNNF) :=
  do ld <- file_to_dDNNF h file;
  match ld.2 with
  | Some d => do st <- consensus ld.1 d; do fd <- filter st.2 a; Ok (st.1, fd)
  | None => Raise ValueError
  end.

(** [(x1 and x2) or (not x1 and x3)], split on [x1]. *)
Definition split_file : list string :=
  [ "nnf 7 6 3" +:+ nl; "L 1" +:+ nl; "L 2" +:+ nl; "A 2 0 1" +:+ nl;
    "L -1" +:+ nl; "L 3" +:+ nl; "A 2 3 4" +:+ nl; "O 1 2 2 5" +:+ nl ].

Definition split_heap : heap := [[4; 1]; [3; 2]; []; []; [6; 5]; []; []].
Definition split_circuit : dDNNF :=
  mk_dDNNF [0; 1; 2; 3; 4; 5; 6]%nat ["O1"; "A"; "3"; "-1"; "A"; "2"; "1"].

(** Its decision circuit for the instance [x1, x2, x3] all true. *)
Definition split_decision_heap : heap :=
  [[4; 1; 7]; [3; 2]; []; []; [6; 5]; []; []; [5; 2]].
Definition split_decision : dDNNF :=
  mk_dDNNF [0; 1; 2; 3; 4; 5; 6; 7]%nat
           ["O1"; "A"; "3"; "F"; "A"; "2"; "1"; "A"].

(** [x1 or not x1] as a split on [x1] over two literal leaves. *)
Definition taut_file : list string :=
  [ "nnf 3 2 1" +:+ nl; "L 1" +:+ nl; "L -1" +:+ nl; "O 1 2 0 1" +:+ nl ].

(** Its decision circuit for the instance [x1] true: the consensus node 3
    has no child. *)
Definition taut_decision_heap : heap := [[2; 1; 3]; []; []; []].
Definition taut_decision : dDNNF :=
  mk_dDNNF [0; 1; 2; 3]%nat ["O1"; "F"; "1"; "A"].

(** The one-node circuit of the literal [x1]. *)
Definition lit_heap : heap := [[]].
Definition lit_circuit : dDNNF := mk_dDNNF [0%nat] ["1"].

(** The decision circuit of [split_file] for the instance [x1], [x2] true
    and [x3] false: its only sufficient reason is [{1, 2}]. *)
Definition split_decision_110 : dDNNF :=
  mk_dDNNF [0; 1; 2; 3; 4; 5; 6; 7]%nat
           ["O1"; "A"; "F"; "F"; "A"; "2"; "1"; "A"].

(** The reading of [necessary_Reason] in which the assignment is the one
    implied by the necessary property: a positive literal [i] gives
    [i: True], a negative literal [-i] gives [i: False].  Follows the
    specification's words, for comparison with [necessary_Reason]. *)
Definition implied_assignment (np : gset Z) : dict :=
  assign_literals (fun x => 0 <? x) (elements np) [].

Definition necessary_Reason_implied (limit : nat) (h : heap) (d : dDNNF) (m : Z)
  : res (gset Z) :=
  do np <- necessary_property limit h d m;
  do cd <- condition d (implied_assignment np);
  do s <- is_satisfiable limit h cd 0;
  Ok (if s then ∅ else np).

(** Every character of [s] is a decimal digit. *)
Fixpoint all_digits (s : string) : bool :=
  match s with
  | EmptyString => true
  | String c s' => Py.is_digit c && all_digits s'
  end.

(** A one-node file whose node line starts with a tag other than [A], [O]
    and [L]. *)
Definition other_tag_file : list string := [ "nnf 1 0 1" +:+ nl; "X 5" +:+ nl ].

(** [split_file] with the decision variable renamed to 12. *)
Definition two_digit_file : list string :=
  [ "nnf 7 6 12" +:+ nl; "L 12" +:+ nl; "L 2" +:+ nl; "A 2 0 1" +:+ nl;
    "L -12" +:+ nl; "L 3" +:+ nl; "A 2 3 4" +:+ nl; "O 12 2 2 5" +:+ nl ].

Definition two_digit_circuit : dDNNF :=
  mk_dDNNF [0; 1; 2; 3; 4; 5; 6]%nat ["O12"; "A"; "3"; "-12"; "A"; "2"; "12"].

(** ** Notions for the statements about [consensus] *)

(** [label[i][0] == 'O'] on a non-empty label. *)
Definition starts_with_O (l : string) : bool :=
  match l with
  | String c _ => Py.chr_eqb c "O"
  | EmptyString => false
  end.

(** Number of nodes labelled [Or(x)]. *)
Definition or_count (ls : list string) : nat :=
  length (List.filter starts_with_O ls).

(** The object invariant of [dDNNF] as the loader builds it: as many rows
    as labels, every row an object of its own, all of them allocated. *)
Definition well_formed (h : heap) (d : dDNNF) : Prop :=
  length (children d) = length (label d) /\
  NoDup (children d) /\
  Forall (fun c => (c < length h)%nat) (children d).

(** The entry that [consensus] has appended to the row of node [i] once
    the nodes below [n] are done. *)
Definition appended (d : dDNNF) (n i : nat) : list Z :=
  match label d !! i with
  | Some l =>
      if starts_with_O l && bool_decide (i < n)%nat
      then [Z.of_nat (length (label d) + or_count (take i (label d)))]
      else []
  | None => []
  end.

(** State of the loop of [consensus] before it handles node [n]. *)
Definition consensus_inv (h : heap) (d : dDNNF) (n : nat) (st : heap * dDNNF)
  : Prop :=
  let k := or_count (take n (label d)) in
  label st.2 = label d ++ replicate k "A" /\
  children st.2 = children d ++ seq (length h) k /\
  length st.1 = (length h + k)%nat /\
  forall i c, children d !! i = Some c ->
              st.1 !! c = Some (deref h c ++ appended d n i).

(** What [consensus] reads without checking: every label is non-empty;
    the second character of an [Or] label reads as an integer; an [Or] node
    has at least two children, the first two are nodes of the circuit, and
    the children of these two are nodes of the circuit. *)
Definition consensus_ready (h : heap) (d : dDNNF) : Prop :=
  (forall i l, label d !! i = Some l -> l <> "") /\
  (forall i l, label d !! i = Some l -> starts_with_O l = true ->
     (exists c1 x, Py.char1 l = Ok c1 /\ Py.int (Py.of_char c1) = Ok x) /\
     exists (k j : nat) rest rk rj,
       row h d (Z.of_nat i) = Ok (Z.of_nat k :: Z.of_nat j :: rest) /\
       row h d (Z.of_nat k) = Ok rk /\
       row h d (Z.of_nat j) = Ok rj /\
       Forall (fun w => 0 <= w < Z.of_nat (length (label d))) (rk ++ rj)).

(** ** Notions for the statements about the loader *)

(** What a node line of a well-formed file says. *)
Inductive node_line : Type :=
| LineTrue                            (* [A 0] *)
| LineAnd (cs : list Z)               (* [A k c1 .. ck], [k] not 0 *)
| LineFalse                           (* [O x 0] *)
| LineOr (x : string) (c1 c2 : Z)     (* [O x k c1 c2], [k] not 0 *)
| LineLit (t : string) (l : Z).       (* any other tag, then the literal *)

Definition line_label (n : node_line) : string :=
  match n with
  | LineTrue => "T"
  | LineAnd _ => "A"
  | LineFalse => "F"
  | LineOr x _ _ => "O" +:+ x
  | LineLit t _ => t
  end.

(** The child references of a line, in the compiler's numbering. *)
Definition line_children (n : node_line) : list Z :=
  match n with
  | LineAnd cs => cs
  | LineOr _ c1 c2 => [c1; c2]
  | _ => []
  end.

(** The tokens [toks] of a line say [n]. *)
Definition describes (toks : list string) (n : node_line) : Prop :=
  match n with
  | LineTrue =>
      exists kt rest, toks = "A" :: kt :: rest /\ Py.int kt = Ok 0
  | LineAnd cs =>
      exists kt k cts rest,
        toks = "A" :: kt :: cts ++ rest /\ Py.int kt = Ok k /\ k <> 0 /\
        length cts = Z.to_nat k /\
        Forall2 (fun t c => Py.int t = Ok c) cts cs
  | LineFalse =>
      exists x kt rest, toks = "O" :: x :: kt :: rest /\ Py.int kt = Ok 0
  | LineOr x c1 c2 =>
      exists kt k t3 t4 rest,
        toks = "O" :: x :: kt :: t3 :: t4 :: rest /\
        Py.int kt = Ok k /\ k <> 0 /\ Py.int t3 = Ok c1 /\ Py.int t4 = Ok c2
  | LineLit t l =>
      exists tag rest,
        toks = tag :: t :: rest /\ tag <> "A" /\ tag <> "O" /\ Py.int t = Ok l
  end.

(** The row stored for a line: every reference [c] becomes [v - c - 1]. *)
Definition stored_row (v : Z) (n : node_line) : list Z :=
  map (fun c => v - c - 1) (line_children n).

(** The circuit under construction while the node at index [m] is being
    filled: [m] untouched nodes before it, finished nodes after it. *)
Definition partial_state (h : heap) (v m : nat) (cur : list Z) (lab : string)
  (rows : list (list Z)) (labs : list string) : heap * dDNNF :=
  (h ++ replicate m [] ++ cur :: rows,
   mk_dDNNF (seq (length h) v) (replicate m "" ++ lab :: labs)).

(** The circuit after the first [n] node lines have been read. *)
Definition load_state (h : heap) (nodes : list node_line) (n : nat)
  : heap * dDNNF :=
  let v := length nodes in
  (h ++ replicate (v - n) []
     ++ reverse (map (stored_row (Z.of_nat v)) (take n nodes)),
   mk_dDNNF (seq (length h) v)
            (replicate (v - n) "" ++ reverse (map line_label (take n nodes)))).

(** The node lines of [split_file]. *)
Definition split_lines : list node_line :=
  [ LineLit "1" 1; LineLit "2" 2; LineAnd [0; 1]; LineLit "-1" (-1);
    LineLit "3" 3; LineAnd [3; 4]; LineOr "1" 2 5 ].

(** ** Nodes on which the recursion ends *)

(** [sound_node h d n i]: below node [i] every label is one of the five
    kinds, every gate has a child, every child is a node, and no path is
    longer than [n]. *)
Inductive sound_node (h : heap) (d : dDNNF) : nat -> Z -> Prop :=
| sound_false n i :
    Py.get (label d) i = Ok "F" -> sound_node h d (S n) i
| sound_true n i :
    Py.get (label d) i = Ok "T" -> sound_node h d (S n) i
| sound_literal n i l x :
    Py.get (label d) i = Ok l -> Py.int l = Ok x -> sound_node h d (S n) i
| sound_and n i c cs :
    Py.get (label d) i = Ok "A" -> row h d i = Ok (c :: cs) ->
    (forall c', c' ∈ c :: cs -> sound_node h d n c') ->
    sound_node h d (S n) i
| sound_or n i l c cs :
    Py.get (label d) i = Ok l -> starts_with_O l = true ->
    row h d i = Ok (c :: cs) ->
    (forall c', c' ∈ c :: cs -> sound_node h d n c') ->
    sound_node h d (S n) i.

(** ** Notions for the statements about the transforms *)

(** [label[i][0] not in {'O', 'A', 'T', 'F'}] on a non-empty label: the
    label is read as a literal. *)
Definition leaf_label (l : string) : bool :=
  match l with
  | String c _ => is_leaf_char c
  | EmptyString => false
  end.

(** What [filter] does with the label [l] of a node it visits: [l'] is the
    label afterwards. *)
Definition filter_outcome (a : list Z) (l l' : string) : Prop :=
  l' = l /\ (l <> "" /\ leaf_label l = false \/
             exists x, Py.int l = Ok x /\ disagrees a x = Ok false) \/
  l' = "F" /\ exists x, Py.int l = Ok x /\ disagrees a x = Ok true.

(** Every literal of every reason of [r] satisfies [Q]. *)
Definition reasons_within (Q : Z -> Prop) (r : list reason) : Prop :=
  forall s x, s ∈ r -> x ∈ s -> Q x.

(** ** Writing the CNF file *)

(** The helpers that write the compiler's input look at a sympy formula
    only through [isinstance(.., sp.And)], [isinstance(.., sp.Or)],
    [.is_Not] and [.args]; a formula is modelled by these.  A symbol map is
    a [dict] from symbols to integers, in insertion order; looking up
    anything that is not one of its symbols is a [KeyError], the [None] of
    the functions below. *)
Module Sympy.

Inductive expr : Type :=
| Symbol (name : string)
| Not (arg : expr)
| And (args : list expr)
| Or (args : list expr).

Definition symbol_map := list (string * Z).

Fixpoint lookup_name (m : symbol_map) (s : string) : option Z :=
  match m with
  | [] => None
  | (k, v) :: m' => if Py.str_eqb k s then Some v else lookup_name m' s
  end.

(** [symbol_map[e]] *)
Definition get (m : symbol_map) (e : expr) : option Z :=
  match e with
  | Symbol s => lookup_name m s
  | _ => None
  end.

(** [symbol_map[s] = v] *)
Fixpoint set (m : symbol_map) (s : string) (v : Z) : symbol_map :=
  match m with
  | [] => [(s, v)]
  | (k, v') :: m' =>
      if Py.str_eqb k s then (k, v) :: m' else (k, v') :: set m' s v
  end.

(** [' '.join(l)] *)
Fixpoint join (l : list string) : string :=
  match l with
  | [] => ""
  | [s] => s
  | s :: l' => s +:+ " " +:+ join l'
  end.

(** A list comprehension whose element expression can raise. *)
Fixpoint for_each {A B} (f : A -> option B) (l : list A) : option (list B) :=
  match l with
  | [] => Some []
  | x :: l' =>
      match f x with
      | Some y =>
          match for_each f l' with
          | Some ys => Some (y :: ys)
          | None => None
          end
      | None => None
      end
  end.

End Sympy.

Definition count_clauses (formula : Sympy.expr) : Z :=
  match formula with
  | Sympy.And args => Z.of_nat (length args)
  | Sympy.Or _ => 1
  | _ => 1
  end.

(** [{symbol: i + 1 for i, symbol in enumerate(symbols)}], from position
    [i] on. *)
Fixpoint map_symbols_from (i : Z) (symbols : list string) (m : Sympy.symbol_map)
  : Sympy.symbol_map :=
  match symbols with
  | [] => m
  | s :: symbols' => map_symbols_from (i + 1) symbols' (Sympy.set m s (i + 1))
  end.

Definition map_symbols_to_integers (symbols : list string) : Sympy.symbol_map :=
  map_symbols_from 0 symbols [].

(** [str(symbol_map[lit]) if not lit.is_Not else
    f"-{symbol_map[lit.args[0]]}"] *)
Definition literal_text (m : Sympy.symbol_map) (lit : Sympy.expr)
  : option string :=
  match lit with
  | Sympy.Not a =>
      match Sympy.get m a with
      | Some v => Some ("-" +:+ Py.str v)
      | None => None
      end
  | _ =>
      match Sympy.get m lit with
      | Some v => Some (Py.str v)
      | None => None
      end
  end.

(** One clause of the [for clause in formula.args] loop. *)
Definition clause_text (m : Sympy.symbol_map) (clause : Sympy.expr)
  : option string :=
  match clause with
  | Sympy.Or lits =>
      match Sympy.for_each (literal_text m) lits with
      | Some ts => Some (Sympy.join ts)
      | None => None
      end
  | _ => literal_text m clause
  end.

Definition cnf_to_dimacs (formula : Sympy.expr) (m : Sympy.symbol_map)
  : option (list string) :=
  match formula with
  | Sympy.And args => Sympy.for_each (clause_text m) args
  | Sympy.Or lits =>
      match Sympy.for_each (literal_text m) lits with
      | Some ts => Some [Sympy.join ts]
      | None => None
      end
  | _ =>
      match literal_text m formula with
      | Some t => Some [t]
      | None => None
      end
  end.

(** [cnf_to_file]: the strings written to the file, in order. *)
Definition cnf_to_file (formula : Sympy.expr) (m : Sympy.symbol_map)
  : option (list string) :=
  let num_vars := Z.of_nat (length m) in
  let num_clauses := count_clauses formula in
  match cnf_to_dimacs formula m with
  | Some clauses =>
      if num_clauses =? 1 then
        match clauses with
        | c0 :: _ =>
            Some [ "p cnf " +:+ Py.str num_vars +:+ " 2" +:+ nl;
                   c0 +:+ " 0" +:+ nl; c0 +:+ " 0" +:+ nl ]
        | [] => None
        end
      else
        Some (("p cnf " +:+ Py.str num_vars +:+ " " +:+ Py.str num_clauses
               +:+ nl)
              :: map (fun clause => clause +:+ " 0" +:+ nl) clauses)
  | None => None
  end.

(** * Properties *)

(** ** Python primitives on examples *)

Example int_examples :
  Py.int "12" = Ok 12 /\ Py.int "-3" = Ok (-3) /\ Py.int " +1_0 " = Ok 10 /\
  Py.int "007" = Ok 7 /\ Py.int "" = Raise ValueError /\
  Py.int "-" = Raise ValueError /\ Py.int "1__0" = Raise ValueError /\
  Py.int "O3" = Raise ValueError /\ Py.str (-12) = "-12" /\ Py.str 0 = "0".
Proof. vm_compute. repeat split. Qed.

Example split_examples :
  Py.split_blank (Py.strip ("A 2  3" +:+ nl)) = ["A"; "2"; ""; "3"] /\
  Py.split_blank (Py.strip "") = [""].
Proof. vm_compute. split; reflexivity. Qed.

Example get_examples :
  Py.get [10; 20; 30] (-1) = Ok 30 /\ Py.get [10; 20; 30] 3 = Raise IndexError /\
  Py.get [10; 20; 30] (-4) = Raise IndexError.
Proof. vm_compute. repeat split. Qed.

(** ** The exception monad *)

Lemma bind_Ok {A B} (m : res A) (k : A -> res B) (b : B) :
  Py.bind m k = Ok b <-> exists a, m = Ok a /\ k a = Ok b.
Proof.
  destruct m as [a|e]; simpl; split.
  - intros H. exists a. auto.
  - intros (a' & Ha & Hk). congruence.
  - discriminate.
  - intros (a' & Ha & _). discriminate.
Qed.

Ltac inv_bind H :=
  let a := fresh "a" in
  let Ha := fresh "E" in
  apply bind_Ok in H; destruct H as (a & Ha & H).

Ltac inv_ok :=
  repeat match goal with
    | H : Ok _ = Ok _ |- _ => injection H as H; try subst
    | H : Raise _ = Ok _ |- _ => discriminate H
    | H : Ok _ = Raise _ |- _ => discriminate H
    end.

(** ** Subsumption removal *)

Lemma elem_of_keep_last (l : list reason) (x : reason) :
  x ∈ keep_last l <-> x ∈ l.
Proof.
  induction l as [|y l IH]; simpl; [reflexivity|].
  case_bool_decide as Hy.
  - rewrite IH, elem_of_cons. split; [auto|]. intros [->|]; auto.
  - rewrite !elem_of_cons, IH. reflexivity.
Qed.

Lemma NoDup_keep_last (l : list reason) : NoDup (keep_last l).
Proof.
  induction l as [|y l IH]; simpl; [constructor|].
  case_bool_decide as Hy; [assumption|].
  constructor; [|assumption]. rewrite elem_of_keep_last. assumption.
Qed.

Lemma elem_of_remove_subsumed (r : list reason) (s : reason) :
  s ∈ remove_subsumed r <-> s ∈ r /\ forall s', s' ∈ r -> ~ s' ⊂ s.
Proof.
  unfold remove_subsumed. rewrite elem_of_keep_last, list_elem_of_In, filter_In.
  rewrite <- list_elem_of_In. unfold subsumed.
  rewrite negb_true_iff, bool_decide_eq_false, Exists_exists.
  split; intros [Hin Hmin]; (split; [assumption|]).
  - intros s' Hs' Hsub. apply Hmin. exists s'. auto.
  - intros (s' & Hs' & Hsub). exact (Hmin s' Hs' Hsub).
Qed.

Lemma remove_subsumed_antichain (r : list reason) (s1 s2 : reason) :
  s1 ∈ remove_subsumed r -> s2 ∈ remove_subsumed r -> ~ s2 ⊂ s1.
Proof.
  rewrite !elem_of_remove_subsumed. intros [_ Hmin] [Hin _]. auto.
Qed.

Lemma NoDup_remove_subsumed (r : list reason) : NoDup (remove_subsumed r).
Proof. apply NoDup_keep_last. Qed.

Lemma minimal_reason (r : list reason) :
  r <> [] -> exists s, s ∈ r /\ forall s', s' ∈ r -> ~ s' ⊂ s.
Proof.
  induction r as [|x r IH]; [congruence|]. intros _.
  destruct r as [|y r].
  - exists x. split; [left|]. intros s' Hs'.
    apply list_elem_of_singleton in Hs'. subst. set_solver.
  - destruct IH as (m & Hm & Hmin); [congruence|].
    destruct (decide (x ⊂ m)) as [Hx|Hx].
    + exists x. split; [left|]. intros s' Hs' Hsub.
      apply elem_of_cons in Hs' as [->|Hs']; [set_solver|].
      apply (Hmin s' Hs'). set_solver.
    + exists m. split; [right; assumption|]. intros s' Hs'.
      apply elem_of_cons in Hs' as [->|Hs']; auto.
Qed.

Lemma remove_subsumed_nil_iff (r : list reason) :
  remove_subsumed r = [] <-> r = [].
Proof.
  split; [|intros ->; reflexivity].
  intros H. destruct (decide (r = [])) as [|Hne]; [assumption|].
  destruct (minimal_reason r Hne) as (s & Hs & Hmin).
  assert (s ∈ remove_subsumed r) as Hin by (apply elem_of_remove_subsumed; auto).
  rewrite H in Hin. inversion Hin.
Qed.

Lemma Pi_unfold (n : nat) (h : heap) (d : dDNNF) (i : Z) (r : list reason) :
  Pi n h d i = Ok r -> exists r0, r = remove_subsumed r0.
Proof.
  destruct n as [|n]; simpl; [discriminate|]. intros H.
  inv_bind H. inv_bind H. inv_ok. eauto.
Qed.

(** ** Evaluator and enumerator agree *)

Lemma nonempty_remove_subsumed (r : list reason) :
  nonempty (remove_subsumed r) = nonempty r.
Proof.
  pose proof (remove_subsumed_nil_iff r) as Hnil.
  destruct (remove_subsumed r) as [|s rs].
  - rewrite (proj1 Hnil eq_refl). reflexivity.
  - destruct r; [|reflexivity]. destruct Hnil as [_ Hnil].
    discriminate (Hnil eq_refl).
Qed.

Lemma nonempty_prod_cart (r r' : list reason) :
  nonempty (prod_cart r r') = nonempty r && nonempty r'.
Proof.
  unfold prod_cart. destruct r as [|x r]; [reflexivity|].
  destruct r' as [|y r']; simpl.
  - induction r as [|z r IH]; simpl; auto.
  - reflexivity.
Qed.

Lemma nonempty_app {A} (r r' : list A) :
  nonempty (r ++ r') = nonempty r || nonempty r'.
Proof. destruct r; simpl; [destruct r'|]; reflexivity. Qed.

Lemma prod_loop_and_loop (callp : Z -> res (list reason)) (calls : Z -> res bool)
  (cs : list Z) :
  (forall c r, callp c = Ok r -> calls c = Ok (nonempty r)) ->
  forall r0 r, prod_loop callp r0 cs = Ok r ->
    and_loop calls (nonempty r0) cs = Ok (nonempty r).
Proof.
  intros Hcall. unfold prod_loop, and_loop.
  induction cs as [|c cs IH]; intros r0 r H; simpl in *.
  - inv_ok. reflexivity.
  - inv_bind H. inv_bind E. inv_ok.
    rewrite <- (IH _ _ H), nonempty_prod_cart.
    destruct (nonempty r0); simpl; [|reflexivity].
    rewrite (Hcall _ _ E0). reflexivity.
Qed.

Lemma concat_loop_or_loop (callp : Z -> res (list reason)) (calls : Z -> res bool)
  (cs : list Z) :
  (forall c r, callp c = Ok r -> calls c = Ok (nonempty r)) ->
  forall r0 r, concat_loop callp r0 cs = Ok r ->
    or_loop calls (nonempty r0) cs = Ok (nonempty r).
Proof.
  intros Hcall. unfold concat_loop, or_loop.
  induction cs as [|c cs IH]; intros r0 r H; simpl in *.
  - inv_ok. reflexivity.
  - inv_bind H. inv_bind E. inv_ok.
    rewrite <- (IH _ _ H), nonempty_app.
    destruct (nonempty r0); simpl; [reflexivity|].
    rewrite (Hcall _ _ E0). reflexivity.
Qed.

(** An integer literal starts with a blank, a sign or a digit. *)
Lemma lstrip_no_space (c : ascii) (s : string) :
  Py.is_space c = false -> Py.lstrip (String c s) = String c s.
Proof. intros H. simpl. rewrite H. reflexivity. Qed.

Lemma rstrip_head (c : ascii) (s : string) :
  Py.is_space c = false -> exists s', Py.rstrip (String c s) = String c s'.
Proof.
  intros H. simpl. destruct (Py.rstrip s); rewrite ?H; eauto.
Qed.

Lemma int_first_char (l : string) (x : Z) (c : ascii) :
  Py.int l = Ok x -> Py.char0 l = Ok c ->
  Py.is_space c = true \/ c = "-"%char \/ c = "+"%char \/ Py.is_digit c = true.
Proof.
  unfold Py.int, Py.int_opt, Py.strip. intros Hint Hc.
  destruct l as [|c' s]; simpl in Hc; inv_ok.
  destruct (Py.is_space c) eqn:Hsp; [auto|]. right.
  rewrite (lstrip_no_space _ _ Hsp) in Hint.
  destruct (rstrip_head c s Hsp) as (s' & ->) in Hint.
  unfold Py.chr_eqb in Hint.
  case_bool_decide; [auto|]. case_bool_decide; [auto|].
  right. right. simpl in Hint.
  destruct (Py.is_digit c); [reflexivity|].
  unfold Py.chr_eqb in Hint. case_bool_decide; discriminate Hint.
Qed.

Lemma literal_not_gate (l : string) (x : Z) (c : ascii) :
  Py.int l = Ok x -> Py.char0 l = Ok c ->
  Py.chr_eqb c "F" = false /\ Py.chr_eqb c "A" = false /\
  Py.chr_eqb c "O" = false /\ Py.chr_eqb c "T" = false.
Proof.
  intros Hint Hc. unfold Py.chr_eqb.
  destruct (int_first_char _ _ _ Hint Hc) as [H|[H|[H|H]]];
    repeat split; apply bool_decide_eq_false; intros ->;
    try discriminate H; vm_compute in H; discriminate H.
Qed.

Lemma Pi_is_satisfiable (n : nat) (h : heap) (d : dDNNF) :
  forall (i : Z) (r : list reason),
    Pi n h d i = Ok r -> is_satisfiable n h d i = Ok (nonempty r).
Proof.
  induction n as [|n IH]; intros i r H; simpl in *; [discriminate H|].
  inv_bind H. inv_bind H. inv_ok. rename a into l. rename a0 into r.
  rewrite E. simpl. rewrite nonempty_remove_subsumed.
  unfold Py.str_eqb in E0.
  case_bool_decide as HF; [subst; inv_ok; reflexivity|].
  case_bool_decide as HT; [subst; inv_ok; reflexivity|].
  case_bool_decide as HA.
  - subst l. simpl. inv_bind E0. inv_bind E0. inv_bind E0.
    rewrite E1. simpl. rewrite E2. simpl. rewrite (IH _ _ E3). simpl.
    apply prod_loop_and_loop with (callp := Pi n h d); auto.
  - inv_bind E0. rename a into c. rewrite E1. simpl.
    destruct (Py.chr_eqb c "O") eqn:HO.
    + assert (c = "O"%char) as -> by (apply bool_decide_eq_true in HO; auto).
      simpl. inv_bind E0. inv_bind E0. inv_bind E0.
      rewrite E2. simpl. rewrite E3. simpl. rewrite (IH _ _ E4). simpl.
      apply concat_loop_or_loop with (callp := Pi n h d); auto.
    + inv_bind E0. inv_ok.
      destruct (literal_not_gate _ _ _ E2 E1) as (-> & -> & _ & _).
      reflexivity.
Qed.

Example split_file_loads :
  file_to_dDNNF [] split_file = Ok (split_heap, Some split_circuit).
Proof. vm_compute. reflexivity. Qed.

Example split_decision_built :
  decision_circuit [] split_file [1; 1; 1]
  = Ok (split_decision_heap, split_decision).
Proof. vm_compute. reflexivity. Qed.

Example taut_decision_built :
  decision_circuit [] taut_file [1] = Ok (taut_decision_heap, taut_decision).
Proof. vm_compute. reflexivity. Qed.

Example split_decision_reasons :
  Pi 1000 split_decision_heap split_decision 0 = Ok [{[1; 2]}; {[2; 3]}].
Proof. vm_compute. reflexivity. Qed.

(** C2, as stated, fails: on the decision circuit of [taut_file] the
    evaluator answers true at the root (its [or] stops at the first
    satisfiable child) while [Pi] visits the childless consensus node and
    raises [IndexError]. *)
Lemma satisfiable_but_Pi_raises :
  ~ (is_satisfiable 1000 taut_decision_heap taut_decision 0 = Ok true <->
     exists r, Pi 1000 taut_decision_heap taut_decision 0 = Ok r /\ r <> []).
Proof.
  intros [Hsat _].
  destruct Hsat as (r & Hr & _); [vm_compute; reflexivity|].
  vm_compute in Hr. discriminate Hr.
Qed.

(** C2 (amended): whenever [Pi(d, i)] returns a list, [is_satisfiable(d, i)]
    returns as well, and it returns true if and only if the list is not
    empty. *)
Theorem Pi_nonempty_iff_satisfiable (n : nat) (h : heap) (d : dDNNF) (i : Z)
  (r : list reason) :
  Pi n h d i = Ok r ->
  exists b, is_satisfiable n h d i = Ok b /\ (b = true <-> r <> []).
Proof.
  intros H. exists (nonempty r). split; [apply Pi_is_satisfiable; assumption|].
  destruct r; simpl; split; congruence.
Qed.

Lemma Pi_nonempty_iff_satisfiable_witness :
  exists b, is_satisfiable 1000 split_decision_heap split_decision 0 = Ok b /\
            (b = true <-> [{[1; 2]}; {[2; 3]}] <> ([] : list reason)).
Proof.
  apply (Pi_nonempty_iff_satisfiable 1000 split_decision_heap split_decision 0).
  vm_compute. reflexivity.
Defined.

(** C3: in the list returned by [Pi(d, i)] no reason is a strict superset
    of another one, and no two positions hold reasons that are equal as
    sets. *)
Theorem Pi_subsumption_invariant (n : nat) (h : heap) (d : dDNNF) (i : Z)
  (r : list reason) :
  Pi n h d i = Ok r ->
  (forall s1 s2, s1 ∈ r -> s2 ∈ r -> ~ s2 ⊂ s1) /\
  (forall j k s1 s2, r !! j = Some s1 -> r !! k = Some s2 -> s1 ≡ s2 -> j = k).
Proof.
  intros H. apply Pi_unfold in H as (r0 & ->). split.
  - intros s1 s2. apply remove_subsumed_antichain.
  - intros j k s1 s2 Hj Hk Heq. apply leibniz_equiv in Heq. subst s2.
    eapply NoDup_lookup; eauto. apply NoDup_remove_subsumed.
Qed.

Lemma Pi_subsumption_invariant_witness :
  (forall s1 s2, s1 ∈ [{[1; 2]}; {[2; 3]}] -> s2 ∈ [{[1; 2]}; {[2; 3]}] ->
                 ~ s2 ⊂ (s1 : reason)) /\
  (forall j k (s1 s2 : reason),
      [{[1; 2]}; {[2; 3]}] !! j = Some s1 ->
      [{[1; 2]}; {[2; 3]}] !! k = Some s2 -> s1 ≡ s2 -> j = k).
Proof.
  apply (Pi_subsumption_invariant 1000 split_decision_heap split_decision 0).
  vm_compute. reflexivity.
Defined.

(** ** Because *)

Example split_decision_110_built :
  decision_circuit [] split_file [1; 1; 0]
  = Ok (split_decision_heap, split_decision_110).
Proof. vm_compute. reflexivity. Qed.

Example split_decision_110_reasons :
  Pi 1000 split_decision_heap split_decision_110 0 = Ok [{[1; 2]}].
Proof. vm_compute. reflexivity. Qed.

Lemma because_loop_true_iff (limit : nat) (h : heap) (d : dDNNF) (t : dict) :
  because_loop limit h d t = Ok true <->
  forall c v, (c, v) ∈ t ->
    exists cd, condition d [(c, negb v)] = Ok cd /\
               is_satisfiable limit h cd 0 = Ok false.
Proof.
  induction t as [|[c v] t IH]; simpl.
  - split; [|reflexivity]. intros _ c v Hin. inversion Hin.
  - split.
    + intros H. inv_bind H. inv_bind H. destruct a0; [discriminate H|].
      intros c' v' Hin. apply elem_of_cons in Hin as [Heq|Hin].
      * injection Heq as -> ->. eauto.
      * apply IH; assumption.
    + intros H. destruct (H c v) as (cd & -> & Hs); [left|]. simpl.
      rewrite Hs. simpl. apply IH. intros c' v' Hin. apply H. right.
      assumption.
Qed.

(** C1, as stated, fails: [because_t] answers true for [{1: True, 2: True}]
    on a decision circuit whose only reason is [{1, 2}], although
    conditioning the circuit on a single flipped literal gives an
    unsatisfiable circuit, not a satisfiable one. *)
Lemma because_t_flipped_literal_unsat :
  ~ (because_t 1000 split_decision_heap split_decision_110
               [(1, true); (2, true)] = Ok true <->
     (exists nd cd, negate split_decision_110 = Ok nd /\
                    condition nd [(1, true); (2, true)] = Ok cd /\
                    is_satisfiable 1000 split_decision_heap cd 0 = Ok false) /\
     (forall c v, (c, v) ∈ [(1, true); (2, true)] ->
        exists cd, condition split_decision_110 [(c, negb v)] = Ok cd /\
                   is_satisfiable 1000 split_decision_heap cd 0 = Ok true)).
Proof.
  intros [Hclaim _].
  destruct Hclaim as [_ Hb]; [vm_compute; reflexivity|].
  destruct (Hb 1 true) as (cd & Hcd & Hsat); [left|].
  vm_compute in Hcd. injection Hcd as <-.
  vm_compute in Hsat. discriminate Hsat.
Qed.

(** C1 (amended): [because_t(d, t)] returns true if and only if (a)
    conditioning [negate(d)] on [t] yields an unsatisfiable circuit, and
    (b) for every single literal [(variable, value)] of [t], conditioning
    [d] on just that literal flipped yields an unsatisfiable circuit. *)
Theorem because_t_true_iff (limit : nat) (h : heap) (d : dDNNF) (t : dict) :
  because_t limit h d t = Ok true <->
  (exists nd cd, negate d = Ok nd /\ condition nd t = Ok cd /\
                 is_satisfiable limit h cd 0 = Ok false) /\
  (forall c v, (c, v) ∈ t ->
     exists cd, condition d [(c, negb v)] = Ok cd /\
                is_satisfiable limit h cd 0 = Ok false).
Proof.
  unfold because_t. split.
  - intros H. inv_bind H. inv_bind H. inv_bind H.
    destruct a1; [discriminate H|]. split; [eauto|].
    apply because_loop_true_iff. assumption.
  - intros [(nd & cd & -> & Hcd & Hs) Hb]. simpl. rewrite Hcd. simpl.
    rewrite Hs. simpl. apply because_loop_true_iff. assumption.
Qed.

Example because_t_split_110 :
  because_t 1000 split_decision_heap split_decision_110 [(1, true); (2, true)]
  = Ok true.
Proof. vm_compute. reflexivity. Qed.

(** ** Necessary reason *)

Lemma dict_get_set (a : dict) (k y : Z) (v : bool) :
  dict_get (dict_set a k v) y = if k =? y then Some v else dict_get a y.
Proof.
  induction a as [|[k' v'] a IH]; simpl; [reflexivity|].
  destruct (k' =? k) eqn:Hk; simpl.
  - apply Z.eqb_eq in Hk. subst k'. destruct (k =? y); reflexivity.
  - rewrite IH. destruct (k' =? y) eqn:Hy; [|reflexivity].
    apply Z.eqb_eq in Hy. subst k'. rewrite Z.eqb_sym, Hk. reflexivity.
Qed.

Section Assignment.
Variable val : Z -> bool.

Lemma assignment_lookup (l : list Z) (a : dict) (y : Z) (b : bool) :
  dict_get (assign_literals val l a) y = Some b ->
  dict_get a y = Some b \/ exists x, x ∈ l /\ Z.abs x = y /\ b = val x.
Proof.
  unfold assign_literals.
  revert a. induction l as [|x l IH]; intros a H; simpl in H; [auto|].
  apply IH in H as [H|(x' & Hin & Hy & Hb)].
  - rewrite dict_get_set in H.
    destruct (Z.abs x =? y) eqn:E.
    + apply Z.eqb_eq in E. injection H as <-. right. exists x.
      split; [left|]. auto.
    + auto.
  - right. exists x'. split; [right|]; auto.
Qed.

Lemma assignment_keeps (l : list Z) (a : dict) (y : Z) :
  is_Some (dict_get a y) -> is_Some (dict_get (assign_literals val l a) y).
Proof.
  unfold assign_literals.
  revert a. induction l as [|x l IH]; intros a H; simpl; [assumption|].
  apply IH. rewrite dict_get_set.
  destruct (Z.abs x =? y); [eauto|assumption].
Qed.

Lemma assignment_covers (l : list Z) (a : dict) (x : Z) :
  x ∈ l -> is_Some (dict_get (assign_literals val l a) (Z.abs x)).
Proof.
  revert a. induction l as [|x' l IH]; intros a H; [inversion H|].
  unfold assign_literals. simpl.
  apply elem_of_cons in H as [->|H]; [|apply IH; assumption].
  apply assignment_keeps. rewrite dict_get_set, Z.eqb_refl.
  eauto.
Qed.
End Assignment.

Example necessary_property_split_110 :
  necessary_property 1000 split_decision_heap split_decision_110 3
  = Ok {[1; 2]}.
Proof. vm_compute. reflexivity. Qed.

(** C4, as stated, fails: the necessary property of this decision circuit
    is [{1, 2}]; [necessary_Reason] conditions on [{1: False, 2: False}]
    and returns [{1, 2}], where the assignment implied by the property,
    [{1: True, 2: True}], leaves the circuit satisfiable and would give the
    empty set. *)
Lemma necessary_Reason_not_implied_assignment :
  necessary_Reason 1000 split_decision_heap split_decision_110 3
  <> necessary_Reason_implied 1000 split_decision_heap split_decision_110 3.
Proof. vm_compute. intros H. discriminate H. Qed.

Lemma foldM_invariant {A B} (P : A -> Prop) (f : A -> B -> res A) (l : list B) :
  (forall a x a', x ∈ l -> P a -> f a x = Ok a' -> P a') ->
  forall a r, P a -> foldM f a l = Ok r -> P r.
Proof.
  induction l as [|x l IH]; intros Hstep a r Ha H; simpl in H.
  - inv_ok. assumption.
  - inv_bind H. apply (IH (fun a x' a' Hin => Hstep a x' a' (list_elem_of_further _ _ _ Hin)) a0 r); auto.
    apply (Hstep a x a0); auto. left.
Qed.

Lemma elem_of_range2 (lo hi x : Z) : x ∈ range2 lo hi <-> lo <= x < hi.
Proof.
  unfold range2. rewrite list_elem_of_fmap. split.
  - intros (k & -> & Hk). apply elem_of_seq in Hk. lia.
  - intros Hx. exists (Z.to_nat (x - lo)). split; [lia|].
    apply elem_of_seq. lia.
Qed.

Lemma necessary_property_literals (limit : nat) (h : heap) (d : dDNNF) (m : Z)
  (np : gset Z) :
  necessary_property limit h d m = Ok np ->
  forall x, x ∈ np -> 1 <= Z.abs x <= m.
Proof.
  unfold necessary_property.
  apply (foldM_invariant (fun s : gset Z => forall x, x ∈ s -> 1 <= Z.abs x <= m)).
  - intros a i a' Hi Ha H. apply elem_of_range2 in Hi.
    unfold necessary_step in H. inv_bind H. inv_bind H. inv_bind H.
    inv_bind H. inv_ok. intros x Hx.
    destruct a2, a3; set_unfold; destruct_or?; subst; auto; lia.
  - set_solver.
Qed.

(** C4 (amended): [necessary_Reason(d, m)] computes the necessary property,
    builds an assignment over exactly the variables of its literals in which
    a positive literal [i] gives [i: False] and a negative literal [-i]
    gives [i: True], and returns the necessary property when conditioning
    [d] on that assignment is unsatisfiable, and the empty set otherwise. *)
Theorem necessary_Reason_flipped (limit : nat) (h : heap) (d : dDNNF) (m : Z)
  (r : gset Z) :
  necessary_Reason limit h d m = Ok r ->
  exists np a cd s,
    necessary_property limit h d m = Ok np /\
    (forall x, x ∈ np -> is_Some (dict_get a (Z.abs x))) /\
    (forall y, dict_get a y = Some false -> 0 < y /\ y ∈ np) /\
    (forall y, dict_get a y = Some true -> 0 < y /\ - y ∈ np) /\
    condition d a = Ok cd /\
    is_satisfiable limit h cd 0 = Ok s /\
    r = (if s then ∅ else np).
Proof.
  unfold necessary_Reason. intros H. inv_bind H. inv_bind H. inv_bind H.
  inv_ok. rename a into np. exists np, (flipped_assignment np), a0, a1.
  pose proof (necessary_property_literals _ _ _ _ _ E) as Hlit.
  assert (forall y b, dict_get (flipped_assignment np) y = Some b ->
            exists x, x ∈ np /\ Z.abs x = y /\ b = (x <? 0)) as Hget.
  { intros y b Hy. unfold flipped_assignment in Hy.
    apply assignment_lookup in Hy as [Hy|(x & Hx & Hab & Hb)];
      [discriminate Hy|].
    exists x. rewrite <- elem_of_elements. auto. }
  repeat split; auto.
  - intros x Hx. apply assignment_covers. apply elem_of_elements. assumption.
  - destruct (Hget _ _ H) as (x & Hx & <- & Hb). specialize (Hlit x Hx). lia.
  - destruct (Hget _ _ H) as (x & Hx & <- & Hb). specialize (Hlit x Hx).
    replace (Z.abs x) with x by lia. assumption.
  - destruct (Hget _ _ H) as (x & Hx & <- & Hb). specialize (Hlit x Hx). lia.
  - destruct (Hget _ _ H) as (x & Hx & <- & Hb). specialize (Hlit x Hx).
    replace (- Z.abs x) with x by lia. assumption.
Qed.

Lemma necessary_Reason_flipped_witness :
  exists np a cd s,
    necessary_property 1000 split_decision_heap split_decision_110 3 = Ok np /\
    (forall x, x ∈ np -> is_Some (dict_get a (Z.abs x))) /\
    (forall y, dict_get a y = Some false -> 0 < y /\ y ∈ np) /\
    (forall y, dict_get a y = Some true -> 0 < y /\ - y ∈ np) /\
    condition split_decision_110 a = Ok cd /\
    is_satisfiable 1000 split_decision_heap cd 0 = Ok s /\
    ({[1; 2]} : gset Z) = (if s then ∅ else np).
Proof.
  apply (necessary_Reason_flipped 1000 split_decision_heap split_decision_110 3).
  vm_compute. reflexivity.
Defined.

(** ** Printing and reading integers *)

Lemma digit_not_space (c : ascii) :
  Py.is_digit c = true -> Py.is_space c = false.
Proof.
  unfold Py.is_digit, Py.is_space. intros H.
  apply andb_true_iff in H as [H1 H2].
  apply Nat.leb_le in H1. apply Nat.leb_le in H2.
  apply orb_false_iff. split; apply andb_false_iff.
  - right. apply Nat.leb_gt. lia.
  - right. apply Nat.leb_gt. lia.
Qed.

Lemma all_digits_uint (d : uint) : all_digits (NilEmpty.string_of_uint d) = true.
Proof. induction d; simpl; auto. Qed.

Lemma rstrip_digits (s : string) : all_digits s = true -> Py.rstrip s = s.
Proof.
  induction s as [|c s IH]; simpl; [reflexivity|]. intros H.
  apply andb_true_iff in H as [Hc Hs]. rewrite (IH Hs).
  destruct s; [|reflexivity]. rewrite (digit_not_space _ Hc). reflexivity.
Qed.

Lemma rstrip_cons (c : ascii) (s : string) :
  Py.rstrip s = s -> s <> EmptyString -> Py.rstrip (String c s) = String c s.
Proof. intros H Hne. simpl. rewrite H. destruct s; congruence. Qed.

Lemma digits_of_digits (s : string) (b : bool) :
  all_digits s = true -> (s <> EmptyString \/ b = true) ->
  Py.digits_of b s = Some s.
Proof.
  revert b. induction s as [|c s IH]; simpl; intros b H Hne.
  - destruct Hne as [Hne| ->]; [congruence|reflexivity].
  - apply andb_true_iff in H as [Hc Hs]. rewrite Hc.
    rewrite (IH true Hs); [reflexivity|auto].
Qed.

Lemma string_of_uint_nonempty (d : uint) :
  d <> Nil -> NilEmpty.string_of_uint d <> EmptyString.
Proof. destruct d; simpl; congruence. Qed.

Lemma int_digits (d : uint) :
  d <> Nil ->
  Py.int_opt (NilEmpty.string_of_uint d) = Some (Z.of_uint d) /\
  Py.int_opt (String "-" (NilEmpty.string_of_uint d)) = Some (- Z.of_uint d).
Proof.
  intros Hd. pose proof (all_digits_uint d) as Hall.
  pose proof (string_of_uint_nonempty d Hd) as Hne.
  pose proof (NilZero.usu d Hd) as Husu.
  assert (NilZero.string_of_uint d = NilEmpty.string_of_uint d) as Hs
    by (destruct d; [congruence|reflexivity..]).
  rewrite Hs in Husu. clear Hs.
  unfold Py.int_opt, Py.strip.
  destruct (NilEmpty.string_of_uint d) as [|c s] eqn:E; [congruence|].
  assert (Py.is_digit c = true) as Hc
    by (simpl in Hall; apply andb_true_iff in Hall; tauto).
  split.
  - rewrite (lstrip_no_space _ _ (digit_not_space _ Hc)).
    rewrite (rstrip_digits _ Hall).
    assert (Py.chr_eqb c "-" = false /\ Py.chr_eqb c "+" = false) as [-> ->].
    { unfold Py.chr_eqb. split; apply bool_decide_eq_false; intros ->;
        vm_compute in Hc; discriminate Hc. }
    rewrite (digits_of_digits _ false Hall); [|left; congruence].
    rewrite Husu. reflexivity.
  - rewrite lstrip_no_space by reflexivity.
    rewrite (rstrip_cons "-" _ (rstrip_digits _ Hall)) by congruence.
    change (Py.chr_eqb "-" "-") with true. cbv iota beta.
    rewrite (digits_of_digits _ false Hall); [|left; congruence].
    rewrite Husu. reflexivity.
Qed.

(** [int(str(x)) == x] *)
Lemma int_str (x : Z) : Py.int (Py.str x) = Ok x.
Proof.
  unfold Py.int, Py.str. destruct x as [|p|p]; [reflexivity|..]; simpl.
  - pose proof (DecimalPos.Unsigned.to_uint_nonnil p) as Hnn.
    replace (NilZero.string_of_uint (Pos.to_uint p))
      with (NilEmpty.string_of_uint (Pos.to_uint p))
      by (destruct (Pos.to_uint p); [congruence|reflexivity..]).
    destruct (int_digits _ Hnn) as [-> _]. simpl.
    unfold Z.of_uint. rewrite DecimalPos.Unsigned.of_to. reflexivity.
  - pose proof (DecimalPos.Unsigned.to_uint_nonnil p) as Hnn.
    replace (NilZero.string_of_uint (Pos.to_uint p))
      with (NilEmpty.string_of_uint (Pos.to_uint p))
      by (destruct (Pos.to_uint p); [congruence|reflexivity..]).
    destruct (int_digits _ Hnn) as [_ ->]. simpl.
    unfold Z.of_uint. rewrite DecimalPos.Unsigned.of_to. reflexivity.
Qed.

(** [str(x)] starts with a digit or with the minus sign. *)
Lemma str_first_char (x : Z) :
  exists c, Py.char0 (Py.str x) = Ok c /\
            Py.chr_eqb c "T" = false /\ Py.chr_eqb c "F" = false /\
            Py.chr_eqb c "A" = false /\ Py.chr_eqb c "O" = false.
Proof.
  pose proof (int_str x) as Hint.
  destruct (Py.str x) as [|c s] eqn:E; [discriminate Hint|].
  exists c. split; [reflexivity|].
  destruct (literal_not_gate (String c s) x c Hint eq_refl) as (? & ? & ? & ?).
  auto.
Qed.

(** ** Relabelling transforms *)

Lemma norm_index_nat (n k : nat) :
  Py.norm_index n (Z.of_nat k) = if decide (k < n)%nat then Some k else None.
Proof.
  unfold Py.norm_index.
  destruct (Z.leb_spec 0 (Z.of_nat k)); [|lia].
  destruct (Z.ltb_spec (Z.of_nat k) (Z.of_nat n)); case_decide; try lia.
  - rewrite Nat2Z.id. reflexivity.
  - reflexivity.
Qed.

Lemma get_nat {A} (l : list A) (k : nat) :
  Py.get l (Z.of_nat k) = Py.of_option (l !! k) IndexError.
Proof.
  unfold Py.get. rewrite norm_index_nat. case_decide as Hk; [reflexivity|].
  rewrite lookup_ge_None_2 by lia. reflexivity.
Qed.

Lemma get_nat_Ok {A} (l : list A) (k : nat) (x : A) :
  Py.get l (Z.of_nat k) = Ok x <-> l !! k = Some x.
Proof.
  rewrite get_nat. destruct (l !! k); simpl; split; congruence.
Qed.

Lemma get_at {A} (l : list A) (k : nat) (x : A) :
  l !! k = Some x -> Py.get l (Z.of_nat k) = Ok x.
Proof. apply get_nat_Ok. Qed.

Lemma relabel_nodes_Ok (f : string -> res string) (d : dDNNF) (n : nat) :
  forall (s : nat) (r : list loc * list string),
    relabel_nodes f d (map Z.of_nat (seq s n)) = Ok r ->
    length r.1 = n /\ length r.2 = n /\
    forall k, (k < n)%nat ->
      exists c l l', children d !! (s + k)%nat = Some c /\
                     label d !! (s + k)%nat = Some l /\ f l = Ok l' /\
                     r.1 !! k = Some c /\ r.2 !! k = Some l'.
Proof.
  induction n as [|n IH]; intros s r H; simpl in H.
  - inv_ok. simpl. repeat split; auto. intros k Hk. lia.
  - inv_bind H. inv_bind H. inv_bind H. inv_bind H. inv_ok. simpl.
    apply get_nat_Ok in E, E0.
    destruct (IH _ _ E2) as (Hl1 & Hl2 & Hk). repeat split; [lia..|].
    intros [|k] Hlt.
    + rewrite Nat.add_0_r. exists a, a0, a1. simpl. auto.
    + destruct (Hk k) as (c & l & l' & ?); [lia|].
      exists c, l, l'. simpl. rewrite <- Nat.add_succ_comm. assumption.
Qed.

Lemma relabel_nodes_total (f : string -> res string) (d : dDNNF) (n : nat) :
  forall s : nat,
    (forall k, (k < n)%nat ->
       exists c l l', children d !! (s + k)%nat = Some c /\
                      label d !! (s + k)%nat = Some l /\ f l = Ok l') ->
    exists r, relabel_nodes f d (map Z.of_nat (seq s n)) = Ok r.
Proof.
  induction n as [|n IH]; intros s H; simpl; [eauto|].
  destruct (H 0%nat) as (c & l & l' & Hc & Hl & Hf); [lia|].
  rewrite Nat.add_0_r in Hc, Hl.
  apply get_nat_Ok in Hc, Hl. rewrite Hc, Hl. simpl. rewrite Hf. simpl.
  destruct (IH (S s)) as (r & ->); [|simpl; eauto].
  intros k Hk. rewrite Nat.add_succ_comm. apply H. lia.
Qed.

Lemma relabel_Ok (f : string -> res string) (d d' : dDNNF) :
  relabel f d = Ok d' ->
  length (children d') = length (label d) /\
  length (label d') = length (label d) /\
  forall k, (k < length (label d))%nat ->
    exists c l l', children d !! k = Some c /\ label d !! k = Some l /\
                   f l = Ok l' /\
                   children d' !! k = Some c /\ label d' !! k = Some l'.
Proof.
  unfold relabel, range. intros H. inv_bind H. inv_ok.
  apply relabel_nodes_Ok in E. simpl. exact E.
Qed.

Lemma relabel_total (f : string -> res string) (d : dDNNF) :
  (forall k, (k < length (label d))%nat ->
     exists c l l', children d !! k = Some c /\ label d !! k = Some l /\
                    f l = Ok l') ->
  exists d', relabel f d = Ok d'.
Proof.
  intros H. unfold relabel, range.
  destruct (relabel_nodes_total f d (length (label d)) 0 H) as (r & ->).
  simpl. eauto.
Qed.

(** ** Double negation *)

Lemma chr_eqb_eq (a b : ascii) : Py.chr_eqb a b = true <-> a = b.
Proof. unfold Py.chr_eqb. apply bool_decide_eq_true. Qed.

Lemma negate_label_twice (l l1 : string) :
  negate_label l = Ok l1 ->
  exists l2, negate_label l1 = Ok l2 /\
    ((l = "T" \/ l = "F" \/ l = "A" \/ exists x, l = Py.str x) -> l2 = l) /\
    (Py.char0 l = Ok "O"%char -> l2 = "O").
Proof.
  unfold negate_label at 1. intros H. inv_bind H. rename a into c.
  assert (forall x, l = Py.str x ->
            Py.chr_eqb c "T" = false /\ Py.chr_eqb c "F" = false /\
            Py.chr_eqb c "A" = false /\ Py.chr_eqb c "O" = false) as Hstr.
  { intros x ->. destruct (str_first_char x) as (c' & Hc' & ?).
    rewrite Hc' in E. inv_ok. assumption. }
  destruct (Py.chr_eqb c "T") eqn:HT;
    [|destruct (Py.chr_eqb c "F") eqn:HF;
      [|destruct (Py.chr_eqb c "A") eqn:HA;
        [|destruct (Py.chr_eqb c "O") eqn:HO]]]; inv_ok.
  - apply chr_eqb_eq in HT. subst c. exists "T". split; [reflexivity|].
    split; [|intros; congruence].
    intros [->|[->|[->|(x & Hx)]]]; try reflexivity; try discriminate E.
    destruct (Hstr x Hx) as (? & _). discriminate.
  - apply chr_eqb_eq in HF. subst c. exists "F". split; [reflexivity|].
    split; [|intros; congruence].
    intros [->|[->|[->|(x & Hx)]]]; try reflexivity; try discriminate E.
    destruct (Hstr x Hx) as (_ & ? & _). discriminate.
  - apply chr_eqb_eq in HA. subst c. exists "A". split; [reflexivity|].
    split; [|intros; congruence].
    intros [->|[->|[->|(x & Hx)]]]; try reflexivity; try discriminate E.
    destruct (Hstr x Hx) as (_ & _ & ? & _). discriminate.
  - apply chr_eqb_eq in HO. subst c. exists "O". split; [reflexivity|].
    split; [|reflexivity].
    intros [->|[->|[->|(x & Hx)]]]; try discriminate E.
    destruct (Hstr x Hx) as (_ & _ & _ & ?). discriminate.
  - inv_bind H. inv_ok. rename a into x. exists (Py.str x).
    unfold negate_label. destruct (str_first_char (- x)) as (c' & -> & HT' & HF' & HA' & HO').
    simpl. rewrite HT', HF', HA', HO', int_str. simpl.
    rewrite Z.opp_involutive. split; [reflexivity|]. split.
    + intros [->|[->|[->|(x' & ->)]]];
        try (simpl in E; inv_ok; vm_compute in HT, HF, HA; congruence).
      rewrite int_str in E0. inv_ok. reflexivity.
    + intros HcO. rewrite HcO in E. inv_ok. vm_compute in HO. discriminate.
Qed.

(** C5, as stated, fails: negating the loaded circuit of [split_file]
    twice turns the root label ["O1"] into ["O"]; the annotation is lost. *)
Lemma negate_negate_drops_annotation :
  (do n <- negate split_circuit; negate n) <> Ok split_circuit.
Proof. vm_compute. intros H. discriminate H. Qed.

(** C5 (amended): [negate(negate(c))] has, at every node, the same row of
    children as [c], and the same label wherever the label is ['T'], ['F'],
    ['A'] or the decimal form [str(x)] of a literal; a node whose label
    starts with ['O'] is labelled ['O'], without annotation. *)
Theorem negate_negate (d d1 : dDNNF) :
  negate d = Ok d1 ->
  exists d2,
    negate d1 = Ok d2 /\
    length (label d2) = length (label d) /\
    length (children d2) = length (label d) /\
    forall k l, label d !! k = Some l ->
      children d2 !! k = children d !! k /\
      ((l = "T" \/ l = "F" \/ l = "A" \/ exists x, l = Py.str x) ->
       label d2 !! k = Some l) /\
      (Py.char0 l = Ok "O"%char -> label d2 !! k = Some "O").
Proof.
  intros H1. destruct (relabel_Ok _ _ _ H1) as (Hc1 & Hl1 & Hk1).
  assert (exists d2, negate d1 = Ok d2) as (d2 & H2).
  { apply relabel_total. intros k Hk. rewrite Hl1 in Hk.
    destruct (Hk1 k Hk) as (c & l & l1 & _ & _ & Hneg & Hc & Hl).
    destruct (negate_label_twice _ _ Hneg) as (l2 & Hl2 & _).
    exists c, l1, l2. auto. }
  destruct (relabel_Ok _ _ _ H2) as (Hc2 & Hl2 & Hk2).
  exists d2. repeat split; try congruence.
  all: intros; assert (k < length (label d))%nat as Hk
      by (eapply lookup_lt_Some; eassumption);
    destruct (Hk1 k Hk) as (c & l' & l1 & Hcd & Hld & Hneg & Hc & Hl);
    rewrite <- Hl1 in Hk;
    destruct (Hk2 k Hk) as (c' & l1' & l2 & Hcd' & Hld' & Hneg' & Hc' & Hl');
    assert (l' = l) as -> by congruence;
    assert (l1' = l1) as -> by congruence;
    destruct (negate_label_twice _ _ Hneg) as (l2' & Hl2' & Hsame & Hor);
    assert (l2' = l2) as -> by congruence.
  - congruence.
  - rewrite Hl'. f_equal. auto.
  - rewrite Hl'. f_equal. auto.
Qed.

Lemma negate_negate_witness :
  exists d2,
    negate (mk_dDNNF [0; 1; 2; 3; 4; 5; 6]%nat
                     ["A"; "O"; "-3"; "1"; "O"; "-2"; "-1"]) = Ok d2 /\
    length (label d2) = length (label split_circuit) /\
    length (children d2) = length (label split_circuit) /\
    forall k l, label split_circuit !! k = Some l ->
      children d2 !! k = children split_circuit !! k /\
      ((l = "T" \/ l = "F" \/ l = "A" \/ exists x, l = Py.str x) ->
       label d2 !! k = Some l) /\
      (Py.char0 l = Ok "O"%char -> label d2 !! k = Some "O").
Proof.
  apply (negate_negate split_circuit). vm_compute. reflexivity.
Defined.

(** ** Loader: failures *)

(** C8, as stated, fails: a node line with the tag [X] is not rejected, it
    is loaded as the literal leaf [5]. *)
Lemma other_tag_is_loaded :
  ~ exists e, file_to_dDNNF [] other_tag_file = Raise e.
Proof. intros (e & H). vm_compute in H. discriminate H. Qed.

Lemma split_blank_not_nil (s : string) : Py.split_blank s <> [].
Proof.
  destruct s as [|c s]; simpl; [congruence|].
  destruct (Py.chr_eqb c " "); [congruence|].
  destruct (Py.split_blank s); congruence.
Qed.

(** C8 (amended): [file_to_dDNNF] raises [IndexError] or [ValueError]
    whenever the header line has no second field that reads as an integer.
    A node line whose tag is neither [A] nor [O] is not rejected: the loop
    labels the node with the line's second field. *)
Theorem file_to_dDNNF_failures (h : heap) (file : list string) :
  ((forall vt v, Py.get (read_tokens file 0) 1 = Ok vt -> Py.int vt <> Ok v) ->
   file_to_dDNNF h file = Raise IndexError \/
   file_to_dDNNF h file = Raise ValueError) /\
  (forall v st i tag t1 rest,
     read_tokens file (S (Z.to_nat i)) = tag :: t1 :: rest ->
     tag <> "A" -> tag <> "O" ->
     load_step v file st i = set_label st (v - i - 1) t1).
Proof.
  split.
  - intros Hbad. unfold file_to_dDNNF.
    pose proof (split_blank_not_nil (Py.strip (nth 0 file ""))) as Hne.
    fold (read_tokens file 0) in Hne.
    destruct (read_tokens file 0) as [|t ts] eqn:Etok; [congruence|].
    destruct (Py.get (t :: ts) 1) as [vt|e] eqn:Eget; simpl.
    + right. specialize (Hbad vt). unfold Py.int in *.
      destruct (Py.int_opt vt) as [v|]; simpl; [|reflexivity].
      exfalso. exact (Hbad v eq_refl eq_refl).
    + left. unfold Py.get in Eget.
      destruct (Py.norm_index _ _); [|congruence].
      destruct (_ !! _); simpl in Eget; congruence.
  - intros v st i tag t1 rest Htok HA HO. unfold load_step. rewrite Htok.
    change 0 with (Z.of_nat 0). change 1 with (Z.of_nat 1).
    rewrite (get_at (tag :: t1 :: rest) 0 tag eq_refl).
    rewrite (get_at (tag :: t1 :: rest) 1 t1 eq_refl).
    simpl. unfold Py.str_eqb. rewrite !bool_decide_eq_false_2 by assumption.
    reflexivity.
Qed.

Lemma file_to_dDNNF_failures_witness :
  (file_to_dDNNF [] ["nnf seven" +:+ nl; "L 1" +:+ nl] = Raise IndexError \/
   file_to_dDNNF [] ["nnf seven" +:+ nl; "L 1" +:+ nl] = Raise ValueError) /\
  load_step 1 other_tag_file (new_dDNNF [] 1) 0
  = set_label (new_dDNNF [] 1) (1 - 0 - 1) "5".
Proof.
  split.
  - apply (proj1 (file_to_dDNNF_failures [] ["nnf seven" +:+ nl; "L 1" +:+ nl])).
    intros vt v Hvt. vm_compute in Hvt. injection Hvt as <-.
    vm_compute. discriminate.
  - apply (proj2 (file_to_dDNNF_failures [] other_tag_file) 1 _ 0 "X" "5" []);
      [vm_compute; reflexivity|discriminate|discriminate].
Defined.

(** ** Consensus on a two-digit decision variable *)

Example two_digit_file_loads :
  file_to_dDNNF [] two_digit_file = Ok (split_heap, Some two_digit_circuit).
Proof. vm_compute. reflexivity. Qed.

(** C6 at the failing input: the root is labelled ["O12"] and its children
    are nodes 4 and 1; their children 6 and 3 are the literals [12] and
    [-12] and must be left out, but [consensus] reads the annotation as [1]
    and the new node 7 receives all four children. *)
Lemma consensus_two_digit_annotation :
  Py.get (label two_digit_circuit) 6 = Ok (Py.str 12) /\
  Py.get (label two_digit_circuit) 3 = Ok (Py.str (- 12)) /\
  exists h' d',
    consensus split_heap two_digit_circuit = Ok (h', d') /\
    row h' d' 0 = Ok [4; 1; 7] /\
    row h' d' 7 = Ok [6; 5; 3; 2].
Proof.
  split; [reflexivity|]. split; [reflexivity|].
  eexists _, _. split; [vm_compute; reflexivity|].
  split; reflexivity.
Qed.

(** ** Even-if-because and the base circuit *)

(** C7 at the failing input: after the call the row of children of the
    root of the base circuit holds a third entry, 7, which is not a node of
    the base circuit (it has 7 nodes, 0 to 6). *)
Lemma evenIf_because_t_mutates_base :
  row split_heap split_circuit 0 = Ok [4; 1] /\
  length (label split_circuit) = 7%nat /\
  exists h' b,
    evenIf_because_t 1000 split_heap split_circuit [1; 1; 1]
                     [(1, true); (2, true)] {[ 3 ]} = Ok (h', b) /\
    row h' split_circuit 0 = Ok [4; 1; 7].
Proof.
  split; [reflexivity|]. split; [reflexivity|].
  eexists _, _. split; [vm_compute; reflexivity|]. reflexivity.
Qed.

(** ** Consensus: shape of the result *)

Lemma or_count_snoc (ls : list string) (l : string) :
  or_count (ls ++ [l]) = (or_count ls + if starts_with_O l then 1 else 0)%nat.
Proof.
  unfold or_count. rewrite List.filter_app, length_app. simpl.
  destruct (starts_with_O l); reflexivity.
Qed.

Lemma char0_starts_with_O (l : string) (c : ascii) :
  Py.char0 l = Ok c -> Py.chr_eqb c "O" = starts_with_O l.
Proof. destruct l; simpl; intros H; inv_ok. reflexivity. Qed.

Lemma appended_next (d : dDNNF) (n i : nat) (l : string) :
  label d !! n = Some l ->
  (i <> n \/ starts_with_O l = false) ->
  appended d (S n) i = appended d n i.
Proof.
  intros Hl Hcase. unfold appended.
  destruct (label d !! i) as [li|] eqn:Ei; [|reflexivity].
  destruct (decide (i = n)) as [->|Hne].
  - destruct Hcase as [?|Hl']; [congruence|].
    assert (li = l) as -> by congruence. rewrite Hl'. reflexivity.
  - destruct (starts_with_O li); [|reflexivity]. simpl.
    repeat case_bool_decide; try reflexivity; lia.
Qed.

Lemma consensus_inv_start (h : heap) (d : dDNNF) :
  well_formed h d -> consensus_inv h d 0 (h, d).
Proof.
  intros (Hlen & Hnd & Hall). unfold consensus_inv. simpl.
  rewrite take_0. change (or_count []) with 0%nat. simpl.
  rewrite !app_nil_r. repeat split; [lia|].
  intros i c Hc. unfold appended.
  assert (c < length h)%nat as Hlt.
  { rewrite Forall_forall in Hall. apply Hall.
    eapply list_elem_of_lookup_2. eassumption. }
  assert ((if label d !! i is Some l
           then if starts_with_O l && bool_decide (i < 0)%nat
                then [Z.of_nat (length (label d) + or_count (take i (label d)))]
                else []
           else []) = []) as ->.
  { destruct (label d !! i); [rewrite andb_false_r|]; reflexivity. }
  rewrite app_nil_r. apply list_lookup_lookup_total_lt. assumption.
Qed.

Lemma consensus_step_or (hn : heap) (dn : dDNNF) (i : Z) (l : string)
  (st' : heap * dDNNF) :
  Py.get (label dn) i = Ok l -> starts_with_O l = true ->
  consensus_step (hn, dn) i = Ok st' ->
  exists cons li,
    Py.get (children dn ++ [length hn]) i = Ok li /\
    st' = (alter (fun r => r ++ [Z.of_nat (length (label dn))]) li
                 (hn ++ [cons]),
           mk_dDNNF (children dn ++ [length hn]) (label dn ++ ["A"])).
Proof.
  intros Hl HO H. unfold consensus_step in H. rewrite Hl in H. simpl in H.
  destruct l as [|c l]; [discriminate HO|]. simpl in H, HO. rewrite HO in H.
  repeat inv_bind H. inv_ok. eauto.
Qed.

Lemma consensus_step_other (hn : heap) (dn : dDNNF) (i : Z) (l : string)
  (st' : heap * dDNNF) :
  Py.get (label dn) i = Ok l -> starts_with_O l = false ->
  consensus_step (hn, dn) i = Ok st' -> st' = (hn, dn).
Proof.
  intros Hl HO H. unfold consensus_step in H. rewrite Hl in H. simpl in H.
  destruct l as [|c l]; [discriminate H|]. simpl in H, HO. rewrite HO in H.
  inv_ok. reflexivity.
Qed.

Lemma consensus_step_inv (h : heap) (d : dDNNF) (n : nat)
  (st st' : heap * dDNNF) :
  well_formed h d -> (n < length (label d))%nat ->
  consensus_inv h d n st ->
  consensus_step st (Z.of_nat n) = Ok st' ->
  consensus_inv h d (S n) st'.
Proof.
  intros (Hlen & Hnd & Hall) Hn (I1 & I2 & I3 & I4) H.
  destruct st as [hn dn]. simpl in I1, I2, I3, I4.
  destruct (label d !! n) as [l|] eqn:El;
    [|apply lookup_ge_None_1 in El; lia].
  assert (Py.get (label dn) (Z.of_nat n) = Ok l) as Hl.
  { apply get_nat_Ok. rewrite I1, lookup_app_l by assumption. assumption. }
  unfold consensus_inv. rewrite (take_S_r _ _ _ El), or_count_snoc.
  set (k := or_count (take n (label d))) in *.
  destruct (starts_with_O l) eqn:HO.
  - destruct (consensus_step_or _ _ _ _ _ Hl HO H) as (cons & li & Hli & ->).
    simpl. apply get_nat_Ok in Hli.
    rewrite I2, <- app_assoc, lookup_app_l in Hli by lia.
    assert (li < length h)%nat as Hlt.
    { rewrite Forall_forall in Hall. apply Hall.
      eapply list_elem_of_lookup_2. eassumption. }
    repeat split.
    + rewrite I1, <- app_assoc. f_equal.
      rewrite Nat.add_1_r. simpl. rewrite replicate_cons_app. reflexivity.
    + rewrite I2, <- app_assoc, I3. f_equal.
      rewrite Nat.add_1_r, seq_S. reflexivity.
    + rewrite length_alter, length_app, I3. simpl. lia.
    + intros i c Hc. destruct (decide (c = li)) as [->|Hne].
      * assert (i = n) as -> by (eapply NoDup_lookup; eassumption).
        rewrite list_lookup_alter_eq, lookup_app_l by lia.
        rewrite (I4 _ _ Hc). simpl. rewrite <- app_assoc. do 2 f_equal.
        unfold appended. rewrite El, HO. simpl.
        rewrite bool_decide_eq_false_2, bool_decide_eq_true_2 by lia.
        simpl. rewrite I1, length_app, length_replicate. reflexivity.
      * rewrite list_lookup_alter_ne by congruence.
        assert (c < length h)%nat as Hltc.
        { rewrite Forall_forall in Hall. apply Hall.
          eapply list_elem_of_lookup_2. eassumption. }
        rewrite lookup_app_l by lia. rewrite (I4 _ _ Hc).
        rewrite (appended_next d n i l El); [reflexivity|].
        left. intros ->. congruence.
  - rewrite (consensus_step_other _ _ _ _ _ Hl HO H). simpl.
    rewrite Nat.add_0_r. repeat split; auto.
    intros i c Hc. rewrite (appended_next d n i l El); auto.
Qed.

Lemma consensus_loop_inv (h : heap) (d : dDNNF) (m : nat) :
  well_formed h d ->
  forall (n : nat) (st st' : heap * dDNNF),
    (n + m = length (label d))%nat ->
    consensus_inv h d n st ->
    foldM consensus_step st (map Z.of_nat (seq n m)) = Ok st' ->
    consensus_inv h d (length (label d)) st'.
Proof.
  intros Hwf. induction m as [|m IH]; intros n st st' Hnm Hinv H; simpl in H.
  - inv_ok. replace (length (label d)) with n by lia. assumption.
  - inv_bind H. apply (IH (S n) a st'); [lia| |assumption].
    apply (consensus_step_inv h d n st a); auto. lia.
Qed.

(** ** Consensus: the loop runs to its end *)

Lemma get_in_range {A} (l : list A) (w : Z) :
  0 <= w < Z.of_nat (length l) -> exists x, Py.get l w = Ok x.
Proof.
  intros Hw. rewrite <- (Z2Nat.id w) by lia.
  destruct (lookup_lt_is_Some_2 l (Z.to_nat w)) as (x & Hx); [lia|].
  exists x. apply get_nat_Ok. assumption.
Qed.

Lemma collect_total (d : dDNNF) (x : Z) (ws : list Z) :
  Forall (fun w => 0 <= w < Z.of_nat (length (label d))) ws ->
  exists cons, collect d x ws = Ok cons.
Proof.
  unfold collect. intros Hws.
  cut (forall acc, exists cons,
         foldM (fun cons w =>
                  do lw <- Py.get (label d) w;
                  Ok (if not_lit lw x then cons ++ [w] else cons))
               acc ws = Ok cons); [auto|].
  induction ws as [|w ws IH]; intros acc; simpl; [eauto|].
  apply Forall_cons in Hws as [Hw Hws].
  destruct (get_in_range (label d) w Hw) as (lw & ->). simpl.
  apply IH. assumption.
Qed.

Lemma or_count_app (l1 l2 : list string) :
  or_count (l1 ++ l2) = (or_count l1 + or_count l2)%nat.
Proof. unfold or_count. rewrite List.filter_app, length_app. reflexivity. Qed.

Lemma or_count_take_lt (ls : list string) (i n : nat) (l : string) :
  ls !! i = Some l -> starts_with_O l = true -> (i < n)%nat ->
  (or_count (take i ls) < or_count (take n ls))%nat.
Proof.
  intros Hl HO Hin.
  rewrite <- (take_drop i ls) at 2.
  rewrite take_app_ge by (rewrite length_take; lia).
  rewrite or_count_app. rewrite length_take.
  rewrite (drop_S _ _ _ Hl).
  replace (n - i `min` length ls)%nat with (S (n - S (i `min` length ls)))
    by (apply lookup_lt_Some in Hl; lia).
  simpl. unfold or_count at 3. simpl. rewrite HO. simpl. lia.
Qed.

Lemma appended_bound (d : dDNNF) (n i : nat) :
  Forall (fun w => 0 <= w < Z.of_nat (length (label d)
                                     + or_count (take n (label d))))
         (appended d n i).
Proof.
  unfold appended. destruct (label d !! i) as [l|] eqn:El; [|constructor].
  destruct (starts_with_O l) eqn:HO; [|constructor]. simpl.
  case_bool_decide as Hin; [|constructor].
  repeat constructor; [lia|].
  pose proof (or_count_take_lt _ _ _ _ El HO Hin). lia.
Qed.

Lemma row_inv (h : heap) (d : dDNNF) (n i : nat) (hn : heap) (dn : dDNNF)
  (r : list Z) :
  well_formed h d -> consensus_inv h d n (hn, dn) ->
  row h d (Z.of_nat i) = Ok r ->
  row hn dn (Z.of_nat i) = Ok (r ++ appended d n i).
Proof.
  intros (Hlen & Hnd & Hall) (I1 & I2 & I3 & I4) Hr. simpl in *.
  unfold row in *. inv_bind Hr. inv_ok. apply get_nat_Ok in E.
  rewrite (get_at (children dn) i a); simpl.
  - unfold deref at 1. erewrite list_lookup_total_correct; [reflexivity|].
    apply I4. assumption.
  - rewrite I2. apply lookup_app_l_Some. assumption.
Qed.

Lemma consensus_step_total (h : heap) (d : dDNNF) (n : nat)
  (st : heap * dDNNF) :
  well_formed h d -> consensus_ready h d -> (n < length (label d))%nat ->
  consensus_inv h d n st ->
  exists st', consensus_step st (Z.of_nat n) = Ok st'.
Proof.
  intros Hwf (Hne & Hor) Hn Hinv. destruct st as [hn dn].
  pose proof Hwf as (Hlen & Hnd & Hall).
  pose proof Hinv as (I1 & I2 & I3 & I4). simpl in I1, I2, I3, I4.
  destruct (label d !! n) as [l|] eqn:El;
    [|apply lookup_ge_None_1 in El; lia].
  unfold consensus_step.
  rewrite (get_at (label dn) n l)
    by (rewrite I1; apply lookup_app_l_Some; assumption).
  cbn [Py.bind]. destruct l as [|c l]; [destruct (Hne _ _ El eq_refl)|].
  cbn [Py.bind Py.char0].
  destruct (Py.chr_eqb c "O") eqn:HO; [|eauto].
  destruct (Hor _ _ El HO)
    as ((c1 & x & Hc1 & Hx) & k & j & rest & rk & rj & Hri & Hrk & Hrj & Hws).
  rewrite Hc1. cbn [Py.bind]. rewrite Hx. cbn [Py.bind].
  rewrite (row_inv _ _ _ _ _ _ _ Hwf Hinv Hri). cbn [Py.bind].
  assert (appended d n n = []) as ->.
  { unfold appended. rewrite El. rewrite bool_decide_eq_false_2 by lia.
    rewrite andb_false_r. reflexivity. }
  rewrite app_nil_r.
  change 0 with (Z.of_nat 0). change 1 with (Z.of_nat 1).
  rewrite (get_at _ 0 (Z.of_nat k)) by reflexivity. cbn [Py.bind].
  rewrite (get_at _ 1 (Z.of_nat j)) by reflexivity. cbn [Py.bind].
  rewrite (row_inv _ _ _ _ _ _ _ Hwf Hinv Hrk). cbn [Py.bind].
  rewrite (row_inv _ _ _ _ _ _ _ Hwf Hinv Hrj). cbn [Py.bind].
  destruct (collect_total dn x ((rk ++ appended d n k) ++ rj ++ appended d n j))
    as (cons & ->).
  { apply Forall_app in Hws as [Hk Hj].
    rewrite I1, length_app, length_replicate.
    repeat apply Forall_app_2;
      try apply appended_bound;
      (eapply Forall_impl; [eassumption|]); simpl; intros; lia. }
  cbn [Py.bind].
  destruct (lookup_lt_is_Some_2 (children d) n) as (li & Hli); [lia|].
  rewrite (get_at _ n li)
    by (rewrite I2, <- app_assoc; apply lookup_app_l_Some; assumption).
  cbn [Py.bind]. eauto.
Qed.

Lemma consensus_loop_total (h : heap) (d : dDNNF) (m : nat) :
  well_formed h d -> consensus_ready h d ->
  forall (n : nat) (st : heap * dDNNF),
    (n + m = length (label d))%nat ->
    consensus_inv h d n st ->
    exists st', foldM consensus_step st (map Z.of_nat (seq n m)) = Ok st'.
Proof.
  intros Hwf Hready. induction m as [|m IH]; intros n st Hnm Hinv; simpl.
  - eauto.
  - destruct (consensus_step_total h d n st) as (st1 & Hst1); auto; [lia|].
    rewrite Hst1. simpl. apply (IH (S n)); [lia|].
    apply (consensus_step_inv h d n st st1); auto. lia.
Qed.

(** C10: one call of [consensus] on a circuit of [v] nodes, [k] of them
    labelled [Or(x)], runs its loop over the [v] original indices to the
    end, leaves [v + k] nodes, the [k] new ones all labelled ['A'], and gives
    every [Or(x)] node exactly one more child (a new node); every other
    row of the original nodes is as before. *)
Theorem consensus_appends (h : heap) (d : dDNNF) :
  well_formed h d -> consensus_ready h d ->
  exists h' d',
    consensus h d = Ok (h', d') /\
    label d' = label d ++ replicate (or_count (label d)) "A" /\
    length (children d') = (length (label d) + or_count (label d))%nat /\
    forall i l r,
      label d !! i = Some l -> row h d (Z.of_nat i) = Ok r ->
      if starts_with_O l then
        exists w, row h' d' (Z.of_nat i) = Ok (r ++ [Z.of_nat w]) /\
                  (length (label d) <= w)%nat /\ label d' !! w = Some "A"
      else row h' d' (Z.of_nat i) = Ok r.
Proof.
  intros Hwf Hready. unfold consensus, range.
  pose proof (consensus_inv_start h d Hwf) as H0.
  destruct (consensus_loop_total h d (length (label d)) Hwf Hready 0 (h, d))
    as ([h' d'] & Hrun); [lia|assumption|].
  pose proof (consensus_loop_inv h d _ Hwf 0 _ _ eq_refl H0 Hrun) as Hinv.
  exists h', d'. split; [assumption|].
  pose proof Hinv as (I1 & I2 & I3 & I4). simpl in I1, I2, I3.
  rewrite take_ge in I1, I2, I3 by lia.
  destruct Hwf as (Hlen & Hnd & Hall).
  split; [assumption|]. split.
  { rewrite I2, length_app, length_seq. lia. }
  intros i l r Hl Hr.
  rewrite (row_inv h d _ i h' d' r (conj Hlen (conj Hnd Hall)) Hinv Hr).
  unfold appended. rewrite Hl.
  pose proof (lookup_lt_Some _ _ _ Hl) as Hi.
  rewrite (bool_decide_eq_true_2 _ Hi), andb_true_r.
  destruct (starts_with_O l) eqn:HO; [|rewrite app_nil_r; reflexivity].
  eexists. split; [reflexivity|]. split; [lia|].
  rewrite I1, lookup_app_r by lia. apply lookup_replicate. split; [reflexivity|].
  pose proof (or_count_take_lt _ i (length (label d)) l Hl HO Hi) as Hlt.
  rewrite (take_ge (label d) (length (label d))) in Hlt by lia. lia.
Qed.

Lemma split_circuit_well_formed : well_formed split_heap split_circuit.
Proof.
  unfold well_formed. split; [reflexivity|]. split.
  - apply (bool_decide_unpack _). vm_compute. exact I.
  - apply (bool_decide_unpack _). vm_compute. exact I.
Defined.

Lemma split_circuit_ready : consensus_ready split_heap split_circuit.
Proof.
  split.
  - intros i l H. do 7 (destruct i as [|i]; [injection H as <-; discriminate|]).
    discriminate H.
  - intros i l H HO.
    destruct i as [|i];
      [|do 6 (destruct i as [|i];
              [injection H as <-; discriminate HO|]); discriminate H].
    injection H as <-. split.
    + exists "1"%char, 1. split; reflexivity.
    + exists 4%nat, 1%nat, [], [6; 5], [3; 2].
      repeat split; try reflexivity.
      repeat constructor; vm_compute; congruence.
Defined.

Lemma consensus_appends_witness :
  exists h' d',
    consensus split_heap split_circuit = Ok (h', d') /\
    label d' = label split_circuit
               ++ replicate (or_count (label split_circuit)) "A" /\
    length (children d')
    = (length (label split_circuit) + or_count (label split_circuit))%nat /\
    forall i l r,
      label split_circuit !! i = Some l ->
      row split_heap split_circuit (Z.of_nat i) = Ok r ->
      if starts_with_O l then
        exists w, row h' d' (Z.of_nat i) = Ok (r ++ [Z.of_nat w]) /\
                  (length (label split_circuit) <= w)%nat /\
                  label d' !! w = Some "A"
      else row h' d' (Z.of_nat i) = Ok r.
Proof.
  apply (consensus_appends split_heap split_circuit).
  - exact split_circuit_well_formed.
  - exact split_circuit_ready.
Defined.

(** ** Loader: well-formed files *)

Section Partial.
Variables (h : heap) (v m : nat) (rows : list (list Z)) (labs : list string).
Hypothesis Hv : v = (m + 1 + length rows)%nat.
Hypothesis Hlabs : length labs = length rows.

Lemma append_child_partial (cur : list Z) (lab : string) (x : Z) :
  append_child (partial_state h v m cur lab rows labs) (Z.of_nat m) x
  = Ok (partial_state h v m (cur ++ [x]) lab rows labs).
Proof.
  unfold append_child, partial_state. cbn [children label].
  rewrite (get_at (seq (length h) v) m (length h + m)%nat)
    by (apply lookup_seq; lia).
  cbn [Py.bind]. do 2 f_equal.
  rewrite alter_app_r.
  replace m with (length (replicate m ([] : list Z)) + 0)%nat at 1
    by (rewrite length_replicate; lia).
  rewrite alter_app_r. reflexivity.
Qed.

Lemma set_label_partial (cur : list Z) (lab s : string) :
  set_label (partial_state h v m cur lab rows labs) (Z.of_nat m) s
  = Ok (partial_state h v m cur s rows labs).
Proof.
  unfold set_label, partial_state, Py.set. cbn [label children].
  rewrite norm_index_nat, decide_True
    by (rewrite length_app, length_replicate; simpl; lia).
  cbn [Py.bind]. do 3 f_equal.
  replace m with (length (replicate m "") + 0)%nat at 1
    by (rewrite length_replicate; lia).
  rewrite insert_app_r. reflexivity.
Qed.

End Partial.

Lemma get_0 {A} (x : A) (l : list A) : Py.get (x :: l) 0 = Ok x.
Proof. exact (get_at (x :: l) 0 x eq_refl). Qed.

Lemma get_1 {A} (x y : A) (l : list A) : Py.get (x :: y :: l) 1 = Ok y.
Proof. exact (get_at (x :: y :: l) 1 y eq_refl). Qed.

Lemma get_2 {A} (x y z : A) (l : list A) : Py.get (x :: y :: z :: l) 2 = Ok z.
Proof. exact (get_at (x :: y :: z :: l) 2 z eq_refl). Qed.

Lemma get_3 {A} (x y z t : A) (l : list A) :
  Py.get (x :: y :: z :: t :: l) 3 = Ok t.
Proof. exact (get_at (x :: y :: z :: t :: l) 3 t eq_refl). Qed.

Lemma get_4 {A} (x y z t u : A) (l : list A) :
  Py.get (x :: y :: z :: t :: u :: l) 4 = Ok u.
Proof. exact (get_at (x :: y :: z :: t :: u :: l) 4 u eq_refl). Qed.

Lemma load_state_partial (h : heap) (nodes : list node_line) (n : nat) :
  (n < length nodes)%nat ->
  load_state h nodes n
  = partial_state h (length nodes) (length nodes - n - 1) [] ""
      (reverse (map (stored_row (Z.of_nat (length nodes))) (take n nodes)))
      (reverse (map line_label (take n nodes))).
Proof.
  intros Hn. unfold load_state, partial_state.
  remember (length nodes - n - 1)%nat as m eqn:Em.
  replace (length nodes - n)%nat with (S m) by lia.
  rewrite !replicate_S_end, <- !app_assoc. reflexivity.
Qed.

Lemma load_state_next (h : heap) (nodes : list node_line) (n : nat)
  (nd : node_line) :
  nodes !! n = Some nd ->
  load_state h nodes (S n)
  = partial_state h (length nodes) (length nodes - n - 1)
      (stored_row (Z.of_nat (length nodes)) nd) (line_label nd)
      (reverse (map (stored_row (Z.of_nat (length nodes))) (take n nodes)))
      (reverse (map line_label (take n nodes))).
Proof.
  intros Hnd. unfold load_state, partial_state.
  rewrite (take_S_r _ _ _ Hnd), !map_app. cbn [map].
  rewrite !reverse_snoc. cbn [length take].
  replace (length nodes - S n)%nat with (length nodes - n - 1)%nat by lia.
  reflexivity.
Qed.

Section Children.
Variables (h : heap) (v m : nat) (rows : list (list Z)) (labs : list string).
Variable V : Z.
Hypothesis Hv : v = (m + 1 + length rows)%nat.
Hypothesis Hlabs : length labs = length rows.

Lemma and_children (lab : string) (cts : list string) (cs : list Z) :
  Forall2 (fun t c => Py.int t = Ok c) cts cs ->
  forall (pre rest : list string) (cur : list Z),
    foldM (fun st j =>
             do tj <- Py.get (pre ++ cts ++ rest) j;
             do c <- Py.int tj;
             append_child st (Z.of_nat m) (V - c - 1))
          (partial_state h v m cur lab rows labs)
          (map (fun k => Z.of_nat (length pre + k)) (seq 0 (length cts)))
    = Ok (partial_state h v m (cur ++ map (fun c => V - c - 1) cs)
                        lab rows labs).
Proof.
  induction 1 as [|t c cts cs Ht Hrest IH]; intros pre rest cur.
  - simpl. rewrite app_nil_r. reflexivity.
  - cbn [length seq map foldM].
    rewrite (get_at (pre ++ (t :: cts) ++ rest) (length pre + 0) t)
      by (rewrite lookup_app_r by lia;
          replace (length pre + 0 - length pre)%nat with 0%nat by lia;
          reflexivity).
    cbn [Py.bind]. rewrite Ht. cbn [Py.bind].
    rewrite (append_child_partial h v m rows labs Hv Hlabs). cbn [Py.bind].
    specialize (IH (pre ++ [t]) rest (cur ++ [V - c - 1])).
    rewrite <- !app_assoc in IH. simpl in IH.
    rewrite <- seq_shift, map_map.
    erewrite map_ext; [exact IH|].
    intros k. simpl. rewrite length_app. simpl. f_equal. lia.
Qed.

End Children.

Lemma str_eqb_refl (s : string) : Py.str_eqb s s = true.
Proof. unfold Py.str_eqb. apply bool_decide_eq_true_2. reflexivity. Qed.

Lemma str_eqb_ne (s t : string) : s <> t -> Py.str_eqb s t = false.
Proof. unfold Py.str_eqb. apply bool_decide_eq_false_2. Qed.

Lemma load_step_line (h : heap) (file : list string) (nodes : list node_line)
  (n : nat) (nd : node_line) :
  nodes !! n = Some nd ->
  describes (read_tokens file (S n)) nd ->
  load_step (Z.of_nat (length nodes)) file (load_state h nodes n) (Z.of_nat n)
  = Ok (load_state h nodes (S n)).
Proof.
  intros Hnd Hdesc. pose proof (lookup_lt_Some _ _ _ Hnd) as Hn.
  rewrite (load_state_partial h nodes n Hn), (load_state_next h nodes n nd Hnd).
  set (v := length nodes) in *.
  set (m := (v - n - 1)%nat).
  set (rows := reverse (map (stored_row (Z.of_nat v)) (take n nodes))).
  set (labs := reverse (map line_label (take n nodes))).
  assert (v = (m + 1 + length rows)%nat) as Hv.
  { unfold rows. rewrite length_reverse, length_map, length_take. lia. }
  assert (length labs = length rows) as Hlabs.
  { unfold labs, rows. rewrite !length_reverse, !length_map. reflexivity. }
  unfold load_step. cbv zeta. rewrite Nat2Z.id.
  replace (Z.of_nat v - Z.of_nat n - 1) with (Z.of_nat m) by lia.
  destruct nd as [|cs| |x c1 c2|t l]; simpl in Hdesc.
  - destruct Hdesc as (kt & rest & -> & Hk).
    rewrite get_0. cbn [Py.bind]. rewrite str_eqb_refl, get_1. cbn [Py.bind].
    rewrite Hk. cbn [Py.bind]. change (0 =? 0) with true. cbv iota.
    apply set_label_partial; assumption.
  - destruct Hdesc as (kt & k & cts & rest & -> & Hk & Hk0 & Hlen & Hcs).
    rewrite get_0. cbn [Py.bind]. rewrite str_eqb_refl, get_1. cbn [Py.bind].
    rewrite Hk. cbn [Py.bind]. rewrite (proj2 (Z.eqb_neq k 0) Hk0).
    assert (range2 2 (k + 2)
            = map (fun k0 => Z.of_nat (length ["A"; kt] + k0))
                  (seq 0 (length cts))) as ->.
    { unfold range2. replace (Z.to_nat (k + 2 - 2)) with (length cts) by lia.
      apply map_ext. intros k0. simpl. lia. }
    change ("A" :: kt :: cts ++ rest) with (["A"; kt] ++ cts ++ rest).
    rewrite (and_children h v m rows labs (Z.of_nat v) Hv Hlabs "" cts cs Hcs).
    cbn [Py.bind]. apply set_label_partial; assumption.
  - destruct Hdesc as (x & kt & rest & -> & Hk).
    rewrite get_0. cbn [Py.bind].
    change (Py.str_eqb "O" "A") with false. cbv iota.
    rewrite str_eqb_refl, get_2. cbn [Py.bind].
    rewrite Hk. cbn [Py.bind]. change (0 =? 0) with true. cbv iota.
    apply set_label_partial; assumption.
  - destruct Hdesc as (kt & k & t3 & t4 & rest & -> & Hk & Hk0 & H3 & H4).
    rewrite get_0. cbn [Py.bind].
    change (Py.str_eqb "O" "A") with false. cbv iota.
    rewrite str_eqb_refl, get_2. cbn [Py.bind].
    rewrite Hk. cbn [Py.bind]. rewrite (proj2 (Z.eqb_neq k 0) Hk0).
    rewrite get_3. cbn [Py.bind]. rewrite H3. cbn [Py.bind].
    rewrite (append_child_partial h v m rows labs Hv Hlabs). cbn [Py.bind].
    rewrite get_4. cbn [Py.bind]. rewrite H4. cbn [Py.bind].
    rewrite (append_child_partial h v m rows labs Hv Hlabs). cbn [Py.bind].
    rewrite get_1. cbn [Py.bind].
    apply set_label_partial; assumption.
  - destruct Hdesc as (tag & rest & -> & HA & HO & Hl).
    rewrite get_0. cbn [Py.bind].
    rewrite (str_eqb_ne _ _ HA), (str_eqb_ne _ _ HO), get_1. cbn [Py.bind].
    apply set_label_partial; assumption.
Qed.

Lemma load_loop (h : heap) (file : list string) (nodes : list node_line) :
  (forall i n, nodes !! i = Some n -> describes (read_tokens file (S i)) n) ->
  forall m n : nat,
    (n + m = length nodes)%nat ->
    foldM (load_step (Z.of_nat (length nodes)) file) (load_state h nodes n)
          (map Z.of_nat (seq n m))
    = Ok (load_state h nodes (length nodes)).
Proof.
  intros Hdesc. induction m as [|m IH]; intros n Hnm; simpl.
  - replace n with (length nodes) by lia. reflexivity.
  - destruct (lookup_lt_is_Some_2 nodes n) as (nd & Hnd); [lia|].
    rewrite (load_step_line h file nodes n nd Hnd (Hdesc n nd Hnd)).
    cbn [Py.bind]. apply IH. lia.
Qed.

Lemma file_to_dDNNF_state (h : heap) (file : list string) (vt : string)
  (nodes : list node_line) :
  Py.get (read_tokens file 0) 1 = Ok vt ->
  Py.int vt = Ok (Z.of_nat (length nodes)) ->
  (forall i n, nodes !! i = Some n -> describes (read_tokens file (S i)) n) ->
  file_to_dDNNF h file
  = Ok (h ++ reverse (map (stored_row (Z.of_nat (length nodes))) nodes),
        Some (mk_dDNNF (seq (length h) (length nodes))
                       (reverse (map line_label nodes)))).
Proof.
  intros Hvt Hv Hdesc. unfold file_to_dDNNF. cbv zeta.
  destruct (read_tokens file 0) as [|t ts] eqn:Etok; [discriminate Hvt|].
  rewrite Hvt. cbn [Py.bind]. rewrite Hv. cbn [Py.bind].
  rewrite Nat2Z.id. unfold range.
  assert (new_dDNNF h (length nodes) = load_state h nodes 0) as ->.
  { unfold new_dDNNF, load_state. rewrite take_0, Nat.sub_0_r. simpl.
    rewrite !app_nil_r. reflexivity. }
  rewrite (load_loop h file nodes Hdesc (length nodes) 0 eq_refl).
  cbn [Py.bind]. unfold load_state.
  rewrite Nat.sub_diag, take_ge by lia. reflexivity.
Qed.

(** C9: for a well-formed text whose header declares [v] nodes,
    [file_to_dDNNF] returns a circuit of exactly [v] nodes; the node of the
    [i]-th node line is stored at index [v - i - 1] (the last line, the
    root, at index 0) with every child reference [c] stored as [v - c - 1];
    its label is ['T'] for [A 0], ['F'] for [O x 0], ['O' + x] with the two
    listed children for [O x k c1 c2], ['A'] with the listed children for
    [A k c1 .. ck], and, for any other tag, the token after the tag, which
    reads as the literal. *)
Theorem file_to_dDNNF_loads (h : heap) (file : list string) (vt : string)
  (nodes : list node_line) :
  Py.get (read_tokens file 0) 1 = Ok vt ->
  Py.int vt = Ok (Z.of_nat (length nodes)) ->
  (forall i n, nodes !! i = Some n -> describes (read_tokens file (S i)) n) ->
  exists h' d,
    file_to_dDNNF h file = Ok (h', Some d) /\
    length (label d) = length nodes /\
    length (children d) = length nodes /\
    forall i n, nodes !! i = Some n ->
      let idx := Z.of_nat (length nodes) - Z.of_nat i - 1 in
      Py.get (label d) idx = Ok (line_label n) /\
      row h' d idx = Ok (stored_row (Z.of_nat (length nodes)) n) /\
      forall t l, n = LineLit t l -> Py.int (line_label n) = Ok l.
Proof.
  intros Hvt Hv Hdesc.
  rewrite (file_to_dDNNF_state h file vt nodes Hvt Hv Hdesc).
  eexists _, _. split; [reflexivity|]. cbn [label children].
  split; [rewrite length_reverse, length_map; reflexivity|].
  split; [apply length_seq|].
  cbv zeta. intros i n Hn. pose proof (lookup_lt_Some _ _ _ Hn) as Hi.
  set (v := length nodes) in *.
  replace (Z.of_nat v - Z.of_nat i - 1) with (Z.of_nat (v - S i)) by lia.
  split; [|split].
  - apply get_at. rewrite reverse_lookup by (rewrite length_map; fold v; lia).
    rewrite length_map. fold v. replace (v - S (v - S i))%nat with i by lia.
    rewrite list_lookup_fmap, Hn. reflexivity.
  - unfold row. cbn [children].
    rewrite (get_at (seq (length h) v) (v - S i) (length h + (v - S i))%nat)
      by (apply lookup_seq; lia).
    cbn [Py.bind]. f_equal. unfold deref.
    apply list_lookup_total_correct.
    rewrite lookup_app_r by lia.
    replace (length h + (v - S i) - length h)%nat with (v - S i)%nat by lia.
    rewrite reverse_lookup by (rewrite length_map; fold v; lia).
    rewrite length_map. fold v. replace (v - S (v - S i))%nat with i by lia.
    rewrite list_lookup_fmap, Hn. reflexivity.
  - intros t l ->. specialize (Hdesc i _ Hn). simpl in Hdesc.
    destruct Hdesc as (tag & rest & _ & _ & _ & Hl). exact Hl.
Qed.

Lemma split_file_described (i : nat) (n : node_line) :
  split_lines !! i = Some n -> describes (read_tokens split_file (S i)) n.
Proof.
  intros H.
  destruct i as [|i]; [injection H as <-|].
  { exists "L", []. repeat split; try discriminate; vm_compute; reflexivity. }
  destruct i as [|i]; [injection H as <-|].
  { exists "L", []. repeat split; try discriminate; vm_compute; reflexivity. }
  destruct i as [|i]; [injection H as <-|].
  { exists "2", 2, ["0"; "1"], []. repeat split; try discriminate.
    repeat constructor. }
  destruct i as [|i]; [injection H as <-|].
  { exists "L", []. repeat split; try discriminate; vm_compute; reflexivity. }
  destruct i as [|i]; [injection H as <-|].
  { exists "L", []. repeat split; try discriminate; vm_compute; reflexivity. }
  destruct i as [|i]; [injection H as <-|].
  { exists "2", 2, ["3"; "4"], []. repeat split; try discriminate.
    repeat constructor. }
  destruct i as [|i]; [injection H as <-|].
  { exists "2", 2, "2", "5", []. repeat split; discriminate. }
  discriminate H.
Defined.

Lemma file_to_dDNNF_loads_witness :
  exists h' d,
    file_to_dDNNF [] split_file = Ok (h', Some d) /\
    length (label d) = length split_lines /\
    length (children d) = length split_lines /\
    forall i n, split_lines !! i = Some n ->
      let idx := Z.of_nat (length split_lines) - Z.of_nat i - 1 in
      Py.get (label d) idx = Ok (line_label n) /\
      row h' d idx = Ok (stored_row (Z.of_nat (length split_lines)) n) /\
      forall t l, n = LineLit t l -> Py.int (line_label n) = Ok l.
Proof.
  apply (file_to_dDNNF_loads [] split_file "7" split_lines).
  - vm_compute. reflexivity.
  - vm_compute. reflexivity.
  - exact split_file_described.
Defined.

(** What the loader returns satisfies the object invariant. *)
Lemma file_to_dDNNF_well_formed (h : heap) (file : list string) (vt : string)
  (nodes : list node_line) :
  Py.get (read_tokens file 0) 1 = Ok vt ->
  Py.int vt = Ok (Z.of_nat (length nodes)) ->
  (forall i n, nodes !! i = Some n -> describes (read_tokens file (S i)) n) ->
  exists h' d, file_to_dDNNF h file = Ok (h', Some d) /\ well_formed h' d.
Proof.
  intros Hvt Hv Hdesc.
  rewrite (file_to_dDNNF_state h file vt nodes Hvt Hv Hdesc).
  eexists _, _. split; [reflexivity|]. unfold well_formed. cbn [label children].
  rewrite length_seq, length_reverse, length_map. split; [reflexivity|].
  split; [apply NoDup_seq|].
  apply Forall_forall. intros c Hc. apply elem_of_seq in Hc.
  rewrite length_app, length_reverse, length_map. lia.
Qed.

(** ** The enumerator returns on sound nodes *)

Lemma prod_loop_total (call : Z -> res (list reason)) (cs : list Z) :
  (forall c, c ∈ cs -> exists r, call c = Ok r) ->
  forall r0, exists r, prod_loop call r0 cs = Ok r.
Proof.
  unfold prod_loop. induction cs as [|c cs IH]; intros Hcall r0; simpl.
  - eauto.
  - destruct (Hcall c) as (r' & ->); [left|]. simpl. apply IH.
    intros c' Hc'. apply Hcall. right. assumption.
Qed.

Lemma concat_loop_total (call : Z -> res (list reason)) (cs : list Z) :
  (forall c, c ∈ cs -> exists r, call c = Ok r) ->
  forall r0, exists r, concat_loop call r0 cs = Ok r.
Proof.
  unfold concat_loop. induction cs as [|c cs IH]; intros Hcall r0; simpl.
  - eauto.
  - destruct (Hcall c) as (r' & ->); [left|]. simpl. apply IH.
    intros c' Hc'. apply Hcall. right. assumption.
Qed.

Lemma starts_with_O_not_leaf (l : string) :
  starts_with_O l = true ->
  Py.str_eqb l "F" = false /\ Py.str_eqb l "T" = false /\
  Py.str_eqb l "A" = false /\ Py.char0 l = Ok "O"%char.
Proof.
  destruct l as [|c l]; simpl; [discriminate|]. intros H.
  apply chr_eqb_eq in H. subst c.
  repeat split; apply str_eqb_ne; discriminate.
Qed.

Lemma literal_not_leaf (l : string) (x : Z) :
  Py.int l = Ok x ->
  Py.str_eqb l "F" = false /\ Py.str_eqb l "T" = false /\
  Py.str_eqb l "A" = false /\
  exists c, Py.char0 l = Ok c /\ Py.chr_eqb c "O" = false.
Proof.
  intros Hint. destruct l as [|c l]; [discriminate Hint|].
  destruct (literal_not_gate _ _ c Hint eq_refl) as (HF & HA & HO & HT).
  apply bool_decide_eq_false in HF, HA, HT.
  repeat split; try (apply str_eqb_ne; congruence). eauto.
Qed.

Lemma Pi_total (h : heap) (d : dDNNF) (n : nat) :
  forall i, sound_node h d n i -> exists r, Pi n h d i = Ok r.
Proof.
  induction n as [|n IH]; intros i Hs; inversion Hs; subst; simpl.
  - rewrite H0. simpl. eauto.
  - rewrite H0. simpl. eauto.
  - rewrite H0. simpl.
    destruct (literal_not_leaf _ _ H1) as (-> & -> & -> & c & -> & HO).
    simpl. rewrite HO, H1. simpl. eauto.
  - rewrite H0. cbn [Py.bind].
    change (Py.str_eqb "A" "F") with false.
    change (Py.str_eqb "A" "T") with false.
    change (Py.str_eqb "A" "A") with true. cbv iota.
    rewrite H1. cbn [Py.bind]. rewrite get_0. cbn [Py.bind tail].
    destruct (IH c) as (r0 & ->); [apply H2; left|]. cbn [Py.bind].
    destruct (prod_loop_total (Pi n h d) cs) with (r0 := r0) as (r & ->).
    + intros c' Hc'. apply IH, H2. right. assumption.
    + simpl. eauto.
  - rewrite H0. simpl.
    destruct (starts_with_O_not_leaf _ H1) as (-> & -> & -> & ->).
    cbn [Py.bind]. change (Py.chr_eqb "O" "O") with true. cbv iota.
    rewrite H2. cbn [Py.bind]. rewrite get_0. cbn [Py.bind tail].
    destruct (IH c) as (r0 & ->); [apply H3; left|]. cbn [Py.bind].
    destruct (concat_loop_total (Pi n h d) cs) with (r0 := r0) as (r & ->).
    + intros c' Hc'. apply IH, H3. right. assumption.
    + simpl. eauto.
Qed.

(** On a sound node both functions return, and they agree. *)
Corollary sound_node_agreement (h : heap) (d : dDNNF) (n : nat) (i : Z) :
  sound_node h d n i ->
  exists r, Pi n h d i = Ok r /\ is_satisfiable n h d i = Ok (nonempty r).
Proof.
  intros Hs. destruct (Pi_total h d n i Hs) as (r & Hr).
  exists r. split; [assumption|]. apply Pi_is_satisfiable. assumption.
Qed.

Ltac sound_leaf :=
  first [ apply sound_false; reflexivity
        | apply sound_true; reflexivity
        | eapply sound_literal; [reflexivity | vm_compute; reflexivity] ].

Ltac sound_children H :=
  repeat (apply elem_of_cons in H as [->|H]); [..|inversion H].

Example split_decision_sound :
  sound_node split_decision_heap split_decision 3 0.
Proof.
  eapply sound_or; [reflexivity..|]. intros c Hc. sound_children Hc.
  - eapply sound_and; [reflexivity..|]. intros c Hc'. sound_children Hc';
      sound_leaf.
  - eapply sound_and; [reflexivity..|]. intros c Hc'. sound_children Hc';
      sound_leaf.
  - eapply sound_and; [reflexivity..|]. intros c Hc'. sound_children Hc';
      sound_leaf.
Qed.

(** * Further properties of the transforms, the evaluator and the queries *)

(** ** Relabelling a circuit whose two lists have the same length *)

Lemma relabel_same_rows (f : string -> res string) (d d' : dDNNF) :
  length (children d) = length (label d) ->
  relabel f d = Ok d' ->
  children d' = children d /\
  length (label d') = length (label d) /\
  forall k l, label d !! k = Some l ->
              exists l', f l = Ok l' /\ label d' !! k = Some l'.
Proof.
  intros Hlen H. destruct (relabel_Ok _ _ _ H) as (Hc & Hl & Hk).
  split; [|split; [assumption|]].
  - apply list_eq. intros k.
    destruct (decide (k < length (label d))%nat) as [Hlt|Hge].
    + destruct (Hk k Hlt) as (c & l & l' & Hcd & _ & _ & Hcd' & _). congruence.
    + rewrite !lookup_ge_None_2 by lia; reflexivity.
  - intros k l Hkl. pose proof (lookup_lt_Some _ _ _ Hkl) as Hlt.
    destruct (Hk k Hlt) as (c & l0 & l' & _ & Hl0 & Hf & _ & Hl').
    exists l'. split; congruence.
Qed.

Lemma relabel_rows_of_result (f : string -> res string) (d d' : dDNNF) :
  relabel f d = Ok d' -> length (children d') = length (label d').
Proof. intros H. destruct (relabel_Ok _ _ _ H) as (Hc & Hl & _). congruence. Qed.

Lemma relabel_fixed (f : string -> res string) (d : dDNNF) :
  length (children d) = length (label d) ->
  (forall k l, label d !! k = Some l -> f l = Ok l) ->
  relabel f d = Ok d.
Proof.
  intros Hlen Hfix.
  destruct (relabel_total f d) as (d' & Hd').
  { intros k Hk.
    destruct (lookup_lt_is_Some_2 (children d) k) as (c & Hc); [lia|].
    destruct (lookup_lt_is_Some_2 (label d) k) as (l & Hl); [lia|].
    exists c, l, l. repeat split; eauto. }
  rewrite Hd'. f_equal.
  destruct (relabel_same_rows f d d' Hlen Hd') as (Hc & Hl & Hk).
  destruct d as [cs ls], d' as [cs' ls']. simpl in *. f_equal; [assumption|].
  apply list_eq. intros k. destruct (ls !! k) as [l|] eqn:El.
  - destruct (Hk k l El) as (l' & Hf & Hl'). rewrite (Hfix k l El) in Hf.
    congruence.
  - apply lookup_ge_None_1 in El. apply lookup_ge_None_2. lia.
Qed.

Lemma get_same_length {A} (l l' : list A) (i : Z) (x : A) :
  length l' = length l -> Py.get l i = Ok x ->
  exists k x', l !! k = Some x /\ l' !! k = Some x' /\ Py.get l' i = Ok x'.
Proof.
  unfold Py.get. intros Hlen. rewrite Hlen.
  destruct (Py.norm_index (length l) i) as [k|]; [|discriminate].
  destruct (l !! k) as [y|] eqn:Ek; simpl; [|discriminate].
  intros H. inv_ok.
  destruct (lookup_lt_is_Some_2 l' k) as (x' & Hx');
    [apply lookup_lt_Some in Ek; lia|].
  exists k, x'. rewrite Hx'. auto.
Qed.

Lemma get_raise_same_length {A} (l l' : list A) (i : Z) (e : exn) :
  length l' = length l -> Py.get l i = Raise e -> Py.get l' i = Raise e.
Proof.
  unfold Py.get. intros Hlen. rewrite Hlen.
  destruct (Py.norm_index (length l) i) as [k|]; [|auto].
  destruct (l !! k) as [y|] eqn:Ek; simpl; [discriminate|].
  intros H. rewrite (lookup_ge_None_2 l' k)
    by (apply lookup_ge_None_1 in Ek; lia).
  assumption.
Qed.

Lemma leaf_label_char0 (l : string) (c : ascii) :
  Py.char0 l = Ok c -> is_leaf_char c = leaf_label l.
Proof. destruct l; simpl; intros H; inv_ok. reflexivity. Qed.

Lemma leaf_label_tests (l : string) :
  leaf_label l = true ->
  exists c, Py.char0 l = Ok c /\ Py.chr_eqb c "F" = false /\
            Py.chr_eqb c "A" = false /\ Py.chr_eqb c "O" = false.
Proof.
  destruct l as [|c l]; simpl; [discriminate|]. unfold is_leaf_char.
  intros H. apply negb_true_iff in H.
  repeat (apply orb_false_iff in H as [H ?]). eauto 10.
Qed.

Lemma int_leaf_label (l : string) (x : Z) :
  Py.int l = Ok x -> leaf_label l = true.
Proof.
  intros H. destruct l as [|c l]; [discriminate H|].
  destruct (literal_not_gate _ _ c H eq_refl) as (HF & HA & HO & HT).
  simpl. unfold is_leaf_char. rewrite HF, HA, HO, HT. reflexivity.
Qed.

(** ** The evaluator under a change of leaf labels *)

Lemma foldM_ext {A B} (f g : A -> B -> res A) (l : list B) :
  (forall a x, f a x = g a x) -> forall a, foldM f a l = foldM g a l.
Proof.
  intros Hfg. induction l as [|x l IH]; intros a; simpl; [reflexivity|].
  rewrite Hfg. destruct (g a x); simpl; auto.
Qed.

Lemma and_loop_true (call : Z -> res bool) (cs : list Z) (b : bool) :
  and_loop call b cs = Ok true ->
  b = true /\ forall c, c ∈ cs -> call c = Ok true.
Proof.
  unfold and_loop. revert b. induction cs as [|c cs IH]; intros b H; simpl in H.
  - inv_ok. split; [reflexivity|]. intros c Hc. inversion Hc.
  - inv_bind H. destruct (IH _ H) as (-> & Hcs). destruct b; [|discriminate E].
    split; [reflexivity|]. intros c' Hc'.
    apply elem_of_cons in Hc' as [->|Hc']; auto.
Qed.

Lemma and_loop_all (call : Z -> res bool) (cs : list Z) (b : bool) :
  and_loop call true cs = Ok b ->
  (forall c bc, c ∈ cs -> call c = Ok bc -> bc = true) -> b = true.
Proof.
  unfold and_loop. induction cs as [|c cs IH]; intros H Hcs; simpl in H.
  - inv_ok. reflexivity.
  - inv_bind H. rewrite (Hcs c a) in H; [|left|assumption].
    apply IH; [assumption|]. intros c' bc Hc'. apply Hcs. right. assumption.
Qed.

Lemma or_loop_absorb (call : Z -> res bool) (cs : list Z) :
  or_loop call true cs = Ok true.
Proof. unfold or_loop. induction cs; simpl; auto. Qed.

Lemma or_loop_true (call : Z -> res bool) (cs : list Z) (b : bool) :
  or_loop call b cs = Ok true ->
  b = true \/ exists c, c ∈ cs /\ call c = Ok true.
Proof.
  unfold or_loop. revert b. induction cs as [|c cs IH]; intros b H; simpl in H.
  - inv_ok. auto.
  - inv_bind H. destruct b; [auto|]. right.
    destruct (IH _ H) as [->|(c' & Hc' & Hcall)].
    + exists c. split; [left|assumption].
    + exists c'. split; [right|]; assumption.
Qed.

Lemma or_loop_hit (call : Z -> res bool) (cs : list Z) (b b' : bool) (c : Z) :
  or_loop call b cs = Ok b' -> c ∈ cs ->
  (forall bc, call c = Ok bc -> bc = true) -> b' = true.
Proof.
  unfold or_loop. revert b. induction cs as [|c0 cs IH]; intros b H Hc Hhit.
  - inversion Hc.
  - simpl in H. inv_bind H. destruct b.
    + inv_ok. fold (or_loop call true cs) in H.
      rewrite or_loop_absorb in H. inv_ok. reflexivity.
    + apply elem_of_cons in Hc as [->|Hc].
      * rewrite (Hhit a E) in H. fold (or_loop call true cs) in H.
        rewrite or_loop_absorb in H. inv_ok. reflexivity.
      * apply (IH a); assumption.
Qed.

Section Relabelled.
Variables (h : heap) (d d' : dDNNF).
Hypothesis Hrows : children d' = children d.
Hypothesis Hlen : length (label d') = length (label d).

Lemma row_relabelled (i : Z) : row h d' i = row h d i.
Proof. unfold row. rewrite Hrows. reflexivity. Qed.

(** Leaves may turn into ['T']: nothing changes for the evaluator. *)
Lemma is_satisfiable_same :
  (forall k l, label d !! k = Some l ->
     exists l', label d' !! k = Some l' /\
                (l' = l \/ leaf_label l = true /\ l' = "T")) ->
  forall n i, is_satisfiable n h d' i = is_satisfiable n h d i.
Proof.
  intros Hlab. induction n as [|n IH]; intros i; simpl; [reflexivity|].
  destruct (Py.get (label d) i) as [l|e] eqn:E.
  - destruct (get_same_length (label d) (label d') i l Hlen E)
      as (k & l' & Hk & Hk' & ->).
    destruct (Hlab k l Hk) as (l0 & Hl0 & Hrel).
    assert (l0 = l') as -> by congruence.
    destruct Hrel as [->|[Hleaf ->]]; simpl.
    + rewrite !row_relabelled.
      destruct (Py.char0 l) as [c|]; simpl; [|reflexivity].
      destruct (Py.chr_eqb c "F"); [reflexivity|].
      destruct (Py.chr_eqb c "A").
      { destruct (row h d i) as [r|]; simpl; [|reflexivity].
        destruct (Py.get r 0) as [j|]; simpl; [|reflexivity].
        rewrite IH. destruct (is_satisfiable n h d j); simpl; [|reflexivity].
        apply foldM_ext. intros [] c'; [apply IH|reflexivity]. }
      destruct (Py.chr_eqb c "O"); [|reflexivity].
      destruct (row h d i) as [r|]; simpl; [|reflexivity].
      destruct (Py.get r 0) as [j|]; simpl; [|reflexivity].
      rewrite IH. destruct (is_satisfiable n h d j); simpl; [|reflexivity].
      apply foldM_ext. intros [] c'; [reflexivity|apply IH].
    + destruct (leaf_label_tests l Hleaf) as (c & Hc & HF & HA & HO).
      rewrite Hc. simpl. rewrite HF, HA, HO. reflexivity.
  - rewrite (get_raise_same_length (label d) (label d') i e Hlen E).
    reflexivity.
Qed.

(** Leaves may turn into ['T'] or ['F']: what is satisfiable afterwards
    was satisfiable before. *)
Lemma is_satisfiable_weaken :
  (forall k l, label d !! k = Some l ->
     exists l', label d' !! k = Some l' /\
                (l' = l \/ leaf_label l = true /\ (l' = "T" \/ l' = "F"))) ->
  forall n i b,
    is_satisfiable n h d' i = Ok true -> is_satisfiable n h d i = Ok b ->
    b = true.
Proof.
  intros Hlab. induction n as [|n IH]; intros i b H' H; simpl in H', H;
    [discriminate H|].
  inv_bind H. rename a into l.
  destruct (get_same_length (label d) (label d') i l Hlen E)
    as (k & l' & Hk & Hk' & Hget').
  rewrite Hget' in H'. simpl in H'.
  destruct (Hlab k l Hk) as (l0 & Hl0 & Hrel).
  assert (l0 = l') as -> by congruence.
  destruct Hrel as [->|[Hleaf [->| ->]]].
  - inv_bind H. inv_bind H'. assert (a0 = a) as -> by congruence.
    rename a into c.
    destruct (Py.chr_eqb c "F"); [discriminate H'|].
    rewrite row_relabelled in H'.
    destruct (Py.chr_eqb c "A").
    { inv_bind H. inv_bind H. inv_bind H.
      inv_bind H'. inv_bind H'. inv_bind H'.
      assert (a2 = a) as -> by congruence.
      assert (a3 = a0) as -> by congruence.
      destruct (and_loop_true _ _ _ H') as (-> & Hall).
      rewrite (IH _ _ E7 E4) in H.
      apply (and_loop_all _ _ _ H). intros c' bc Hc' Hbc.
      exact (IH _ _ (Hall c' Hc') Hbc). }
    destruct (Py.chr_eqb c "O"); [|inv_ok; reflexivity].
    inv_bind H. inv_bind H. inv_bind H.
    inv_bind H'. inv_bind H'. inv_bind H'.
    assert (a2 = a) as -> by congruence.
    assert (a3 = a0) as -> by congruence.
    destruct (or_loop_true _ _ _ H') as [->|(c' & Hc' & Hcall)].
    + rewrite (IH _ _ E7 E4) in H. rewrite or_loop_absorb in H.
      inv_ok. reflexivity.
    + apply (or_loop_hit _ _ _ _ c' H Hc'). intros bc Hbc.
      exact (IH _ _ Hcall Hbc).
  - destruct (leaf_label_tests l Hleaf) as (c & Hc & HF & HA & HO).
    rewrite Hc in H. simpl in H. rewrite HF, HA, HO in H. inv_ok. reflexivity.
  - discriminate H'.
Qed.

End Relabelled.

(** ** Condition and Quantify *)

Lemma condition_label_cases (a : dict) (l l' : string) :
  condition_label a l = Ok l' ->
  l' = l \/
  exists x ay, leaf_label l = true /\ Py.int l = Ok x /\
               dict_get a (Z.abs x) = Some ay /\
               l' = (if (x >? 0) && ay || (x <? 0) && negb ay then "T" else "F").
Proof.
  unfold condition_label. intros H. inv_bind H.
  rewrite (leaf_label_char0 _ _ E) in H.
  destruct (leaf_label l) eqn:Hleaf; [|inv_ok; auto].
  inv_bind H. destruct (dict_get a (Z.abs a1)) as [ay|] eqn:Ea; inv_ok; [|auto].
  right. exists a1, ay. auto.
Qed.

Lemma condition_label_weaker (a : dict) (l l' : string) :
  condition_label a l = Ok l' ->
  l' = l \/ leaf_label l = true /\ (l' = "T" \/ l' = "F").
Proof.
  intros H. destruct (condition_label_cases a l l' H)
    as [->|(x & ay & Hleaf & _ & _ & ->)]; [auto|].
  right. split; [assumption|]. destruct (_ || _); auto.
Qed.

Lemma condition_label_literal (a : dict) (l l' : string) (x : Z) :
  condition_label a l = Ok l' -> Py.int l' = Ok x ->
  l' = l /\ dict_get a (Z.abs x) = None.
Proof.
  intros H Hint. pose proof H as H0. unfold condition_label in H0.
  destruct (condition_label_cases a l l' H)
    as [->|(x0 & ay & Hleaf & _ & _ & ->)].
  - split; [reflexivity|]. inv_bind H0.
    rewrite (leaf_label_char0 _ _ E), (int_leaf_label _ _ Hint) in H0.
    rewrite Hint in H0. simpl in H0.
    destruct (dict_get a (Z.abs x)) as [ay|]; [|reflexivity].
    inv_ok. destruct (_ || _); discriminate Hint.
  - destruct (_ || _); discriminate Hint.
Qed.

(** X1: A circuit that is satisfiable after conditioning was satisfiable
    before: conditioning only turns literal leaves into constants. *)
Theorem condition_restricts (n : nat) (h : heap) (d cd : dDNNF) (a : dict)
  (i : Z) :
  length (children d) = length (label d) ->
  condition d a = Ok cd ->
  is_satisfiable n h cd i = Ok true ->
  is_satisfiable n h d i <> Ok false.
Proof.
  intros Hlen Hcd Hsat Hd.
  destruct (relabel_same_rows _ _ _ Hlen Hcd) as (Hc & Hl & Hk).
  enough (false = true) by discriminate.
  apply (is_satisfiable_weaken h d cd Hc Hl) with (n := n) (i := i);
    try assumption.
  intros k l Hkl. destruct (Hk k l Hkl) as (l' & Hf & Hl').
  exists l'. split; [assumption|]. exact (condition_label_weaker _ _ _ Hf).
Qed.

Lemma condition_restricts_witness :
  is_satisfiable 1000 split_decision_heap split_decision 0 <> Ok false.
Proof.
  apply (condition_restricts 1000 split_decision_heap split_decision
           (mk_dDNNF [0; 1; 2; 3; 4; 5; 6; 7]%nat
                     ["O1"; "A"; "3"; "F"; "A"; "T"; "1"; "A"])
           [(2, true)] 0);
    vm_compute; reflexivity.
Defined.

(** X2: Conditioning on the empty assignment returns the circuit itself. *)
Theorem condition_empty (d cd : dDNNF) :
  length (children d) = length (label d) ->
  condition d [] = Ok cd -> cd = d.
Proof.
  intros Hlen Hcd. destruct (relabel_same_rows _ _ _ Hlen Hcd) as (Hc & Hl & Hk).
  destruct d as [cs ls], cd as [cs' ls']. simpl in *. f_equal; [assumption|].
  apply list_eq. intros k. destruct (ls !! k) as [l|] eqn:El.
  - destruct (Hk k l El) as (l' & Hf & ->). f_equal.
    destruct (condition_label_cases _ _ _ Hf) as [->|(x & ay & _ & _ & Hget & _)];
      [reflexivity|discriminate Hget].
  - apply lookup_ge_None_1 in El. apply lookup_ge_None_2. lia.
Qed.

Lemma condition_empty_witness :
  mk_dDNNF (children split_decision) (label split_decision) = split_decision.
Proof.
  apply (condition_empty split_decision); vm_compute; reflexivity.
Defined.

(** X3: After [condition(d, a)] no literal of a variable of [a] is left, and
    the literals that are left are those of [d]. *)
Theorem condition_removes_assigned (d cd : dDNNF) (a : dict) (k : nat)
  (l : string) (x : Z) :
  condition d a = Ok cd ->
  label cd !! k = Some l -> Py.int l = Ok x ->
  dict_get a (Z.abs x) = None /\ label d !! k = Some l.
Proof.
  intros Hcd Hl Hint. destruct (relabel_Ok _ _ _ Hcd) as (_ & Hlen & Hk).
  destruct (Hk k) as (c & l0 & l' & _ & Hl0 & Hf & _ & Hl');
    [apply lookup_lt_Some in Hl; lia|].
  assert (l' = l) as -> by congruence.
  destruct (condition_label_literal _ _ _ _ Hf Hint) as (<- & Hnone). auto.
Qed.

Lemma condition_removes_assigned_witness :
  dict_get [(2, true)] (Z.abs 1) = None /\ label split_decision !! 6%nat = Some "1".
Proof.
  apply (condition_removes_assigned split_decision
           (mk_dDNNF [0; 1; 2; 3; 4; 5; 6; 7]%nat
                     ["O1"; "A"; "3"; "F"; "A"; "T"; "1"; "A"])
           [(2, true)] 6 "1" 1);
    vm_compute; reflexivity.
Defined.

(** X4: Conditioning a second time on the same assignment changes nothing. *)
Theorem condition_idempotent (d cd : dDNNF) (a : dict) :
  condition d a = Ok cd -> condition cd a = Ok cd.
Proof.
  intros Hcd. apply relabel_fixed; [exact (relabel_rows_of_result _ _ _ Hcd)|].
  intros k l Hl. destruct (relabel_Ok _ _ _ Hcd) as (_ & Hlen & Hk).
  destruct (Hk k) as (c & l0 & l' & _ & Hl0 & Hf & _ & Hl');
    [apply lookup_lt_Some in Hl; lia|].
  assert (l' = l) as -> by congruence.
  destruct (condition_label_cases _ _ _ Hf) as [->|(x & ay & _ & _ & _ & ->)].
  - exact Hf.
  - destruct (_ || _); reflexivity.
Qed.

Lemma condition_idempotent_witness :
  condition (mk_dDNNF [0; 1; 2; 3; 4; 5; 6; 7]%nat
                      ["O1"; "A"; "3"; "F"; "A"; "T"; "1"; "A"]) [(2, true)]
  = Ok (mk_dDNNF [0; 1; 2; 3; 4; 5; 6; 7]%nat
                 ["O1"; "A"; "3"; "F"; "A"; "T"; "1"; "A"]).
Proof.
  apply (condition_idempotent split_decision). vm_compute. reflexivity.
Defined.

Lemma quantify_label_cases (a : list Z) (l l' : string) :
  quantify_label a l = Ok l' ->
  leaf_label l = false /\ l' = l \/
  exists x ay, leaf_label l = true /\ Py.int l = Ok x /\
               Py.get a (Z.abs x - 1) = Ok ay /\
               l' = (if Py.truthy ay then "T" else l).
Proof.
  unfold quantify_label. intros H. inv_bind H.
  rewrite (leaf_label_char0 _ _ E) in H.
  destruct (leaf_label l) eqn:Hleaf; [|inv_ok; auto].
  inv_bind H. inv_bind H. inv_ok. right. exists a1, a2. auto.
Qed.

(** X5: [quantify] does not change what [is_satisfiable] answers, at any node
    and for any recursion limit: a literal leaf and the ['T'] that
    replaces it are both evaluated to true. *)
Theorem quantify_keeps_satisfiability (d q : dDNNF) (a : list Z) (n : nat)
  (h : heap) (i : Z) :
  length (children d) = length (label d) ->
  quantify d a = Ok q ->
  is_satisfiable n h q i = is_satisfiable n h d i.
Proof.
  intros Hlen Hq. destruct (relabel_same_rows _ _ _ Hlen Hq) as (Hc & Hl & Hk).
  apply (is_satisfiable_same h d q Hc Hl).
  intros k l Hkl. destruct (Hk k l Hkl) as (l' & Hf & Hl').
  exists l'. split; [assumption|].
  destruct (quantify_label_cases _ _ _ Hf)
    as [[_ ->]|(x & ay & Hleaf & _ & _ & ->)]; [auto|].
  destruct (Py.truthy ay); auto.
Qed.

Lemma quantify_keeps_satisfiability_witness :
  is_satisfiable 1000 split_decision_heap
    (mk_dDNNF [0; 1; 2; 3; 4; 5; 6; 7]%nat
              ["O1"; "A"; "T"; "F"; "A"; "2"; "T"; "A"]) 0
  = is_satisfiable 1000 split_decision_heap split_decision 0.
Proof.
  apply (quantify_keeps_satisfiability split_decision _ [1; 0; 1]);
    vm_compute; reflexivity.
Defined.

(** X6: After [quantify(d, a)] every literal that is left is a literal of [d]
    whose variable is not selected by [a]. *)
Theorem quantify_removes_selected (d q : dDNNF) (a : list Z) (k : nat)
  (l : string) (x : Z) :
  quantify d a = Ok q ->
  label q !! k = Some l -> Py.int l = Ok x ->
  label d !! k = Some l /\
  exists ay, Py.get a (Z.abs x - 1) = Ok ay /\ Py.truthy ay = false.
Proof.
  intros Hq Hl Hint. destruct (relabel_Ok _ _ _ Hq) as (_ & Hlen & Hk).
  destruct (Hk k) as (c & l0 & l' & _ & Hl0 & Hf & _ & Hl');
    [apply lookup_lt_Some in Hl; lia|].
  assert (l' = l) as -> by congruence.
  destruct (quantify_label_cases _ _ _ Hf)
    as [[Hleaf ->]|(x0 & ay & Hleaf & Hx0 & Hay & Heq)].
  - rewrite (int_leaf_label _ _ Hint) in Hleaf. discriminate Hleaf.
  - destruct (Py.truthy ay) eqn:Ht; subst l; [discriminate Hint|].
    split; [assumption|]. exists ay. split; [congruence|assumption].
Qed.

Lemma quantify_removes_selected_witness :
  label split_decision !! 5%nat = Some "2" /\
  exists ay, Py.get [1; 0; 1] (Z.abs 2 - 1) = Ok ay /\ Py.truthy ay = false.
Proof.
  apply (quantify_removes_selected split_decision
           (mk_dDNNF [0; 1; 2; 3; 4; 5; 6; 7]%nat
                     ["O1"; "A"; "T"; "F"; "A"; "2"; "T"; "A"]) [1; 0; 1] 5 "2" 2);
    vm_compute; reflexivity.
Defined.

(** ** Filter *)

Lemma set_nat {A} (l : list A) (k : nat) (x : A) :
  (k < length l)%nat -> Py.set l (Z.of_nat k) x = Ok (<[k := x]> l).
Proof.
  intros Hk. unfold Py.set. rewrite norm_index_nat, decide_True by assumption.
  reflexivity.
Qed.

Lemma filter_step_outcome (a : list Z) (ls ls' : list string) (n : nat) :
  filter_step a ls (Z.of_nat n) = Ok ls' ->
  exists l l', ls !! n = Some l /\ filter_outcome a l l' /\
               ls' = <[n := l']> ls.
Proof.
  unfold filter_step. intros H. inv_bind H. rename a0 into l.
  apply get_nat_Ok in E. exists l. inv_bind H.
  rewrite (leaf_label_char0 _ _ E0) in H.
  destruct (leaf_label l) eqn:Hleaf.
  - inv_bind H. inv_bind H. destruct a2.
    + rewrite set_nat in H by (eapply lookup_lt_Some; eassumption). inv_ok.
      exists "F". split; [assumption|]. split; [right; eauto|reflexivity].
    + inv_ok. exists l. split; [assumption|]. split; [left; eauto|].
      symmetry. apply list_insert_id. assumption.
  - inv_ok. exists l. split; [assumption|]. split.
    + left. split; [reflexivity|]. left. split; [|assumption].
      intros ->. discriminate E0.
    + symmetry. apply list_insert_id. assumption.
Qed.

Lemma filter_loop (a : list Z) (ls0 : list string) (m : nat) :
  forall (n : nat) (ls ls' : list string),
    foldM (filter_step a) ls (map Z.of_nat (seq n m)) = Ok ls' ->
    length ls = length ls0 ->
    (forall k, (n <= k)%nat -> ls !! k = ls0 !! k) ->
    length ls' = length ls0 /\
    forall k l, ls0 !! k = Some l ->
      ((n <= k < n + m)%nat ->
       exists l', ls' !! k = Some l' /\ filter_outcome a l l') /\
      ((n + m <= k)%nat -> ls' !! k = Some l) /\
      ((k < n)%nat -> ls' !! k = ls !! k).
Proof.
  induction m as [|m IH]; intros n ls ls' H Hlen Hsame; simpl in H.
  - inv_ok. split; [assumption|]. intros k l Hl. repeat split.
    + lia.
    + intros Hk. rewrite Hsame by lia. assumption.
  - inv_bind H. rename a0 into ls1.
    destruct (filter_step_outcome _ _ _ _ E) as (l0 & l1 & Hl0 & Hout & ->).
    destruct (IH (S n) _ ls' H) as (Hlen' & Hk).
    + rewrite length_insert. assumption.
    + intros k Hge. rewrite list_lookup_insert_ne by lia. apply Hsame. lia.
    + split; [assumption|]. intros k l Hl.
      destruct (Hk k l Hl) as (Hin & Hafter & Hbefore). repeat split.
      * intros Hrange. destruct (decide (k = n)) as [->|Hne].
        -- rewrite Hbefore by lia.
           rewrite list_lookup_insert_eq
             by (eapply lookup_lt_Some; eassumption).
           exists l1. split; [reflexivity|].
           rewrite Hsame in Hl0 by lia. congruence.
        -- apply Hin. lia.
      * intros Hge. apply Hafter. lia.
      * intros Hlt. rewrite Hbefore by lia.
        apply list_lookup_insert_ne. lia.
Qed.

Lemma filter_labels (d fd : dDNNF) (a : list Z) :
  filter d a = Ok fd ->
  children fd = children d /\
  length (label fd) = length (label d) /\
  forall k l, label d !! k = Some l ->
    ((k < length (children d))%nat ->
     exists l', label fd !! k = Some l' /\ filter_outcome a l l') /\
    ((length (children d) <= k)%nat -> label fd !! k = Some l).
Proof.
  unfold filter, range. intros H. inv_bind H. inv_ok. simpl.
  destruct (filter_loop a (label d) _ 0 _ _ E eq_refl (fun _ _ => eq_refl))
    as (Hlen & Hk).
  repeat split; auto.
  - intros Hlt. destruct (Hk k l H) as (Hin & _ & _). apply Hin. lia.
  - intros Hge. destruct (Hk k l H) as (_ & Hafter & _). apply Hafter. lia.
Qed.

Lemma filter_loop_defined (a : list Z) (m : nat) :
  forall (n : nat) (ls ls' : list string),
    foldM (filter_step a) ls (map Z.of_nat (seq n m)) = Ok ls' ->
    (n + m <= length ls \/ m = 0)%nat.
Proof.
  induction m as [|m IH]; intros n ls ls' H; simpl in H; [auto|].
  inv_bind H. destruct (filter_step_outcome _ _ _ _ E) as (l0 & l1 & Hl0 & _ & ->).
  apply lookup_lt_Some in Hl0.
  destruct (IH _ _ _ H) as [Hle| ->]; [|lia].
  rewrite length_insert in Hle. lia.
Qed.

Lemma foldM_fixed {A B} (f : A -> B -> res A) (a : A) (l : list B) :
  (forall x, x ∈ l -> f a x = Ok a) -> foldM f a l = Ok a.
Proof.
  induction l as [|x l IH]; intros H; simpl; [reflexivity|].
  rewrite H by left. simpl. apply IH. intros y Hy. apply H. right. assumption.
Qed.

Lemma disagrees_false (a : list Z) (x : Z) :
  disagrees a x = Ok false ->
  (0 < x -> exists v, Py.get a (x - 1) = Ok v /\ Py.truthy v = true) /\
  (x < 0 -> exists v, Py.get a (- x - 1) = Ok v /\ Py.truthy v = false).
Proof.
  unfold disagrees. intros H.
  destruct (Z.gtb_spec x 0) as [Hpos|Hle].
  - inv_bind H. inv_ok. replace (Z.abs x - 1) with (x - 1) in E by lia.
    split; [|lia]. intros _. exists a0. split; [assumption|].
    destruct (Py.truthy a0); [reflexivity|discriminate H].
  - destruct (Z.ltb_spec x 0) as [Hneg|Hge].
    + inv_bind H. inv_ok. replace (Z.abs x - 1) with (- x - 1) in E by lia.
      split; [lia|]. intros _. exists a0. auto.
    + split; lia.
Qed.

(** X7: [filter] keeps the rows and the number of nodes, and changes a label
    only by turning a literal into ['F']. *)
Theorem filter_keeps_shape (d fd : dDNNF) (a : list Z) :
  filter d a = Ok fd ->
  children fd = children d /\
  length (label fd) = length (label d) /\
  forall k l, label d !! k = Some l ->
    label fd !! k = Some l \/
    label fd !! k = Some "F" /\ exists x, Py.int l = Ok x.
Proof.
  intros H. destruct (filter_labels _ _ _ H) as (Hc & Hl & Hk).
  repeat split; [assumption..|]. intros k l Hkl.
  destruct (Hk k l Hkl) as (Hin & Hout).
  destruct (decide (k < length (children d))%nat) as [Hlt|Hge].
  - destruct (Hin Hlt) as (l' & Hl' & [[-> _]|[-> (x & Hx & _)]]); eauto.
  - left. apply Hout. lia.
Qed.

Lemma filter_keeps_shape_witness :
  children split_decision_110 = children split_decision /\
  length (label split_decision_110) = length (label split_decision) /\
  forall k l, label split_decision !! k = Some l ->
    label split_decision_110 !! k = Some l \/
    label split_decision_110 !! k = Some "F" /\ exists x, Py.int l = Ok x.
Proof.
  apply (filter_keeps_shape split_decision split_decision_110 [1; 1; 0]).
  vm_compute. reflexivity.
Defined.

Lemma filter_literal_agrees (d fd : dDNNF) (a : list Z) (k : nat)
  (l : string) (x : Z) :
  filter d a = Ok fd ->
  (k < length (children d))%nat ->
  label fd !! k = Some l -> Py.int l = Ok x ->
  (0 < x -> exists v, Py.get a (x - 1) = Ok v /\ Py.truthy v = true) /\
  (x < 0 -> exists v, Py.get a (- x - 1) = Ok v /\ Py.truthy v = false).
Proof.
  intros H Hk Hl Hint. destruct (filter_labels _ _ _ H) as (Hc & Hlen & Hlab).
  destruct (lookup_lt_is_Some_2 (label d) k) as (l0 & Hl0);
    [apply lookup_lt_Some in Hl; lia|].
  destruct (Hlab k l0 Hl0) as (Hin & _).
  destruct (Hin Hk) as (l' & Hl' & Hout).
  assert (l' = l) as -> by congruence.
  destruct Hout as [[-> [[_ Hleaf]|(x0 & Hx0 & Hdis)]]|[-> _]].
  - rewrite (int_leaf_label _ _ Hint) in Hleaf. discriminate Hleaf.
  - assert (x0 = x) as -> by congruence. apply disagrees_false. assumption.
  - discriminate Hint.
Qed.

(** X8: After [filter(d, a)] every literal left on a visited node is true in
    the instance [a]: a positive literal [x] has [a[x - 1]] true, a negative
    one has [a[-x - 1]] false. *)
Theorem filter_agrees_with_instance (d fd : dDNNF) (a : list Z) (k : nat)
  (l : string) (x : Z) :
  filter d a = Ok fd ->
  (k < length (children d))%nat ->
  label fd !! k = Some l -> Py.int l = Ok x ->
  (0 < x -> exists v, Py.get a (x - 1) = Ok v /\ Py.truthy v = true) /\
  (x < 0 -> exists v, Py.get a (- x - 1) = Ok v /\ Py.truthy v = false).
Proof. apply filter_literal_agrees. Qed.

Lemma filter_agrees_with_instance_witness :
  (0 < 2 -> exists v, Py.get [1; 1; 0] (2 - 1) = Ok v /\ Py.truthy v = true) /\
  (2 < 0 -> exists v, Py.get [1; 1; 0] (- 2 - 1) = Ok v /\ Py.truthy v = false).
Proof.
  apply (filter_agrees_with_instance split_decision split_decision_110
           [1; 1; 0] 5 "2" 2);
    vm_compute; try reflexivity. lia.
Defined.

(** X9: Filtering a second time by the same instance changes nothing. *)
Theorem filter_idempotent (d fd : dDNNF) (a : list Z) :
  filter d a = Ok fd -> filter fd a = Ok fd.
Proof.
  intros H. destruct (filter_labels _ _ _ H) as (Hc & Hlen & Hlab).
  assert (length (children d) <= length (label d))%nat as Hle.
  { unfold filter, range in H. inv_bind H.
    destruct (filter_loop_defined _ _ _ _ _ E) as [Hle|Hz]; lia. }
  unfold filter. rewrite foldM_fixed; [destruct fd; reflexivity|].
  intros i Hi. unfold range in Hi. apply list_elem_of_fmap in Hi as (k & -> & Hk).
  apply elem_of_seq in Hk. rewrite Hc in Hk.
  destruct (lookup_lt_is_Some_2 (label d) k) as (l0 & Hl0); [lia|].
  destruct (Hlab k l0 Hl0) as (Hin & _).
  destruct Hin as (l' & Hl' & Hout); [lia|].
  unfold filter_step. rewrite (get_at _ _ _ Hl'). cbn [Py.bind].
  destruct Hout as [[-> [[Hne Hleaf]|(x & Hx & Hdis)]]|[-> _]].
  - destruct l0 as [|c l0]; [congruence|]. simpl in Hleaf. simpl.
    rewrite Hleaf. reflexivity.
  - pose proof (int_leaf_label _ _ Hx) as Hleaf.
    destruct l0 as [|c l0]; [discriminate Hleaf|]. simpl in Hleaf.
    cbn [Py.char0 Py.bind]. rewrite Hleaf, Hx. cbn [Py.bind].
    rewrite Hdis. reflexivity.
  - reflexivity.
Qed.

Lemma filter_idempotent_witness :
  filter split_decision_110 [1; 1; 0] = Ok split_decision_110.
Proof.
  apply (filter_idempotent split_decision). vm_compute. reflexivity.
Defined.

(** X10: A circuit that is satisfiable after [filter] was satisfiable before. *)
Theorem filter_restricts (n : nat) (h : heap) (d fd : dDNNF) (a : list Z)
  (i : Z) :
  filter d a = Ok fd ->
  is_satisfiable n h fd i = Ok true ->
  is_satisfiable n h d i <> Ok false.
Proof.
  intros H Hsat Hd. destruct (filter_labels _ _ _ H) as (Hc & Hlen & Hlab).
  enough (false = true) by discriminate.
  apply (is_satisfiable_weaken h d fd Hc Hlen) with (n := n) (i := i);
    try assumption.
  intros k l Hkl. destruct (Hlab k l Hkl) as (Hin & Hout).
  destruct (decide (k < length (children d))%nat) as [Hlt|Hge].
  - destruct (Hin Hlt) as (l' & Hl' & [[-> _]|[-> (x & Hx & _)]]).
    + exists l. auto.
    + exists "F". split; [assumption|]. right.
      split; [exact (int_leaf_label _ _ Hx)|auto].
  - exists l. split; [apply Hout; lia|auto].
Qed.

Lemma filter_restricts_witness :
  is_satisfiable 1000 split_decision_heap split_decision 0 <> Ok false.
Proof.
  apply (filter_restricts 1000 split_decision_heap split_decision
           split_decision_110 [1; 1; 0] 0);
    vm_compute; reflexivity.
Defined.

(** ** Reason sets *)

(** X11: [remove_subsumed] returns reasons of its argument only, and every
    reason of the argument contains one of the reasons returned. *)
Theorem remove_subsumed_covers (r : list reason) :
  (forall s, s ∈ remove_subsumed r -> s ∈ r) /\
  (forall s, s ∈ r -> exists s', s' ∈ remove_subsumed r /\ s' ⊆ s).
Proof.
  split.
  - intros s Hs. apply elem_of_remove_subsumed in Hs. tauto.
  - intros s. remember (size s) as n eqn:En. revert s En.
    induction n as [n IH] using lt_wf_ind. intros s En Hs.
    destruct (decide (Exists (fun s2 => s2 ⊂ s) r)) as [Hex|Hmin].
    + apply Exists_exists in Hex as (s2 & Hs2 & Hsub).
      destruct (IH (size s2)) with (s := s2) as (s' & Hs' & Hsub');
        [subst n; apply subset_size; assumption|reflexivity|assumption|].
      exists s'. split; [assumption|]. set_solver.
    + exists s. split; [|reflexivity]. apply elem_of_remove_subsumed.
      split; [assumption|]. intros s2 Hs2 Hsub. apply Hmin.
      apply Exists_exists. eauto.
Qed.

Lemma filter_keeps_all {A} (f : A -> bool) (l : list A) :
  (forall x, x ∈ l -> f x = true) -> List.filter f l = l.
Proof.
  induction l as [|x l IH]; intros H; simpl; [reflexivity|].
  rewrite H by left. f_equal. apply IH. intros y Hy. apply H. right. assumption.
Qed.

Lemma keep_last_NoDup (l : list reason) : NoDup l -> keep_last l = l.
Proof.
  induction 1 as [|x l Hx Hl IH]; simpl; [reflexivity|].
  rewrite bool_decide_eq_false_2 by assumption. f_equal. assumption.
Qed.

(** X12: Removing subsumed reasons a second time changes nothing. *)
Theorem remove_subsumed_idempotent (r : list reason) :
  remove_subsumed (remove_subsumed r) = remove_subsumed r.
Proof.
  set (r' := remove_subsumed r). unfold remove_subsumed at 1.
  rewrite filter_keeps_all.
  - apply keep_last_NoDup, NoDup_remove_subsumed.
  - intros s Hs. unfold subsumed. apply negb_true_iff, bool_decide_eq_false.
    intros Hex. apply Exists_exists in Hex as (s2 & Hs2 & Hsub).
    exact (remove_subsumed_antichain r s s2 Hs Hs2 Hsub).
Qed.

Lemma prod_cart_members (s1 s2 : list reason) (s : reason) :
  s ∈ prod_cart s1 s2 <-> exists x y, x ∈ s1 /\ y ∈ s2 /\ s = x ∪ y.
Proof.
  unfold prod_cart. rewrite list_elem_of_bind. split.
  - intros (x & Hs & Hx). apply list_elem_of_bind in Hs as (y & Hs & Hy).
    apply list_elem_of_singleton in Hs. eauto.
  - intros (x & y & Hx & Hy & ->). exists x. split; [|assumption].
    apply list_elem_of_bind. exists y. split; [left|assumption].
Qed.

(** X13: [prod_cart(s1, s2)] holds exactly the unions of a reason of [s1] with
    a reason of [s2], one entry per pair. *)
Theorem prod_cart_unions (s1 s2 : list reason) :
  (forall s, s ∈ prod_cart s1 s2 <->
             exists x y, x ∈ s1 /\ y ∈ s2 /\ s = x ∪ y) /\
  length (prod_cart s1 s2) = (length s1 * length s2)%nat.
Proof.
  split; [apply prod_cart_members|]. unfold prod_cart.
  induction s1 as [|x s1 IH]; [reflexivity|].
  change ((x :: s1) ≫= _)
    with ((s2 ≫= (fun y => [x ∪ y])) ++ (s1 ≫= fun x => s2 ≫= fun y => [x ∪ y])).
  rewrite length_app, IH. simpl. f_equal.
  clear. induction s2 as [|y s2 IH]; [reflexivity|]. simpl. f_equal. exact IH.
Qed.

(** ** Where the literals of a reason come from *)

Lemma get_lookup {A} (l : list A) (i : Z) (x : A) :
  Py.get l i = Ok x -> exists k, l !! k = Some x.
Proof.
  unfold Py.get. destruct (Py.norm_index (length l) i) as [k|]; [|discriminate].
  destruct (l !! k) eqn:E; simpl; intros H; inv_ok. eauto.
Qed.

Section Literals.
Variable Q : Z -> Prop.

Lemma within_prod_cart (r r' : list reason) :
  reasons_within Q r -> reasons_within Q r' ->
  reasons_within Q (prod_cart r r').
Proof.
  intros Hr Hr' s x Hs Hx.
  apply (proj1 (prod_cart_members r r' s)) in Hs as (s1 & s2 & H1 & H2 & ->).
  apply elem_of_union in Hx as [Hx|Hx]; eauto.
Qed.

Lemma within_app (r r' : list reason) :
  reasons_within Q r -> reasons_within Q r' -> reasons_within Q (r ++ r').
Proof.
  intros Hr Hr' s x Hs Hx. apply elem_of_app in Hs as [Hs|Hs]; eauto.
Qed.

Lemma within_prod_loop (call : Z -> res (list reason)) (cs : list Z) :
  (forall c r, call c = Ok r -> reasons_within Q r) ->
  forall r0 r, reasons_within Q r0 -> prod_loop call r0 cs = Ok r ->
               reasons_within Q r.
Proof.
  intros Hcall. unfold prod_loop.
  induction cs as [|c cs IH]; intros r0 r Hr0 H; simpl in H.
  - inv_ok. assumption.
  - inv_bind H. inv_bind E. inv_ok.
    apply (IH _ _ (within_prod_cart _ _ Hr0 (Hcall _ _ E0)) H).
Qed.

Lemma within_concat_loop (call : Z -> res (list reason)) (cs : list Z) :
  (forall c r, call c = Ok r -> reasons_within Q r) ->
  forall r0 r, reasons_within Q r0 -> concat_loop call r0 cs = Ok r ->
               reasons_within Q r.
Proof.
  intros Hcall. unfold concat_loop.
  induction cs as [|c cs IH]; intros r0 r Hr0 H; simpl in H.
  - inv_ok. assumption.
  - inv_bind H. inv_bind E. inv_ok.
    apply (IH _ _ (within_app _ _ Hr0 (Hcall _ _ E0)) H).
Qed.

Lemma Pi_within (h : heap) (d : dDNNF) :
  (forall j l x, Py.get (label d) j = Ok l -> Py.int l = Ok x -> Q x) ->
  forall n i r, Pi n h d i = Ok r -> reasons_within Q r.
Proof.
  intros Hlab. induction n as [|n IH]; intros i r H; simpl in H;
    [discriminate H|].
  inv_bind H. inv_bind H. inv_ok. rename a into l. rename a0 into r0.
  assert (reasons_within Q r0) as Hr0.
  { unfold Py.str_eqb in E0.
    case_bool_decide; [inv_ok; intros s x Hs; inversion Hs|].
    case_bool_decide.
    { inv_ok. intros s x Hs Hx. apply list_elem_of_singleton in Hs. subst s.
      set_solver. }
    case_bool_decide.
    { inv_bind E0. inv_bind E0. inv_bind E0.
      apply (within_prod_loop (Pi n h d) _ IH _ _ (IH _ _ E3) E0). }
    inv_bind E0. destruct (Py.chr_eqb a "O").
    { inv_bind E0. inv_bind E0. inv_bind E0.
      apply (within_concat_loop (Pi n h d) _ IH _ _ (IH _ _ E4) E0). }
    inv_bind E0. inv_ok. intros s x Hs Hx.
    apply list_elem_of_singleton in Hs. subst s.
    apply elem_of_singleton in Hx. subst x. eauto. }
  intros s x Hs Hx. apply elem_of_remove_subsumed in Hs as [Hs _]. eauto.
Qed.

End Literals.

(** X14: Every literal of every reason returned by [Pi] is the integer value
    of the label of some node of the circuit. *)
Theorem Pi_literals_are_labels (n : nat) (h : heap) (d : dDNNF) (i : Z)
  (r : list reason) (s : reason) (x : Z) :
  Pi n h d i = Ok r -> s ∈ r -> x ∈ s ->
  exists k l, label d !! k = Some l /\ Py.int l = Ok x.
Proof.
  intros H. revert s x.
  apply (Pi_within (fun x => exists k l, label d !! k = Some l /\ Py.int l = Ok x)
           h d) with (n := n) (i := i); [|assumption].
  intros j l x Hl Hx. destruct (get_lookup _ _ _ Hl) as (k & Hk). eauto.
Qed.

Lemma Pi_literals_are_labels_witness :
  exists k l, label split_decision !! k = Some l /\ Py.int l = Ok 2.
Proof.
  apply (Pi_literals_are_labels 1000 split_decision_heap split_decision 0
           [{[1; 2]}; {[2; 3]}] {[1; 2]} 2).
  - vm_compute. reflexivity.
  - left.
  - set_solver.
Defined.

(** X15: The reasons enumerated on a circuit filtered by the instance [a] are
    true in [a]: a positive literal [x] of a reason has [a[x - 1]] true, a
    negative one has [a[-x - 1]] false. *)
Theorem Pi_reasons_hold_in_instance (n : nat) (h : heap) (d fd : dDNNF)
  (a : list Z) (i : Z) (r : list reason) (s : reason) (x : Z) :
  length (children d) = length (label d) ->
  filter d a = Ok fd ->
  Pi n h fd i = Ok r -> s ∈ r -> x ∈ s ->
  (0 < x -> exists v, Py.get a (x - 1) = Ok v /\ Py.truthy v = true) /\
  (x < 0 -> exists v, Py.get a (- x - 1) = Ok v /\ Py.truthy v = false).
Proof.
  intros Hlen Hf H. revert s x.
  apply (Pi_within
           (fun x =>
              (0 < x -> exists v, Py.get a (x - 1) = Ok v /\ Py.truthy v = true) /\
              (x < 0 -> exists v, Py.get a (- x - 1) = Ok v /\
                                  Py.truthy v = false))
           h fd) with (n := n) (i := i); [|assumption].
  intros j l x Hl Hx. destruct (get_lookup _ _ _ Hl) as (k & Hk).
  apply (filter_literal_agrees d fd a k l x); try assumption.
  destruct (filter_labels _ _ _ Hf) as (_ & Hlab & _).
  apply lookup_lt_Some in Hk. lia.
Qed.

Lemma Pi_reasons_hold_in_instance_witness :
  (0 < 2 -> exists v, Py.get [1; 1; 0] (2 - 1) = Ok v /\ Py.truthy v = true) /\
  (2 < 0 -> exists v, Py.get [1; 1; 0] (- 2 - 1) = Ok v /\ Py.truthy v = false).
Proof.
  apply (Pi_reasons_hold_in_instance 1000 split_decision_heap split_decision
           split_decision_110 [1; 1; 0] 0 [{[1; 2]}] {[1; 2]} 2).
  - reflexivity.
  - vm_compute. reflexivity.
  - vm_compute. reflexivity.
  - left.
  - set_solver.
Defined.

(** ** Raising the recursion limit *)

Lemma foldM_mono {A B} (f g : A -> B -> res A) (l : list B) :
  (forall a x a', f a x = Ok a' -> g a x = Ok a') ->
  forall a r, foldM f a l = Ok r -> foldM g a l = Ok r.
Proof.
  intros Hfg. induction l as [|x l IH]; intros a r H; simpl in *; [assumption|].
  inv_bind H. rewrite (Hfg _ _ _ E). simpl. auto.
Qed.

Lemma is_satisfiable_next (h : heap) (d : dDNNF) (n : nat) :
  forall i b, is_satisfiable n h d i = Ok b -> is_satisfiable (S n) h d i = Ok b.
Proof.
  induction n as [|n IH]; intros i b H; [discriminate H|].
  simpl in H. inv_bind H. inv_bind H.
  remember (S n) as m eqn:Em.
  assert (forall i b, is_satisfiable n h d i = Ok b ->
                      is_satisfiable m h d i = Ok b) as IH'
    by (subst m; exact IH).
  clear IH Em. simpl. rewrite E. cbn [Py.bind]. rewrite E0. cbn [Py.bind].
  destruct (Py.chr_eqb a0 "F"); [assumption|].
  destruct (Py.chr_eqb a0 "A").
  { inv_bind H. inv_bind H. inv_bind H.
    rewrite E1. cbn [Py.bind]. rewrite E2. cbn [Py.bind].
    rewrite (IH' _ _ E3). cbn [Py.bind].
    unfold and_loop in *. revert H. apply foldM_mono.
    intros [] c r Hc; [apply IH'|]; exact Hc. }
  destruct (Py.chr_eqb a0 "O"); [|assumption].
  inv_bind H. inv_bind H. inv_bind H.
  rewrite E1. cbn [Py.bind]. rewrite E2. cbn [Py.bind].
  rewrite (IH' _ _ E3). cbn [Py.bind].
  unfold or_loop in *. revert H. apply foldM_mono.
  intros [] c r Hc; [|apply IH']; exact Hc.
Qed.

Lemma Pi_next (h : heap) (d : dDNNF) (n : nat) :
  forall i r, Pi n h d i = Ok r -> Pi (S n) h d i = Ok r.
Proof.
  induction n as [|n IH]; intros i r H; [discriminate H|].
  simpl in H. inv_bind H. inv_bind H. inv_ok.
  remember (S n) as m eqn:Em.
  assert (forall i r, Pi n h d i = Ok r -> Pi m h d i = Ok r) as IH'
    by (subst m; exact IH).
  clear IH Em. simpl. rewrite E. cbn [Py.bind].
  destruct (Py.str_eqb a "F"); [rewrite E0; reflexivity|].
  destruct (Py.str_eqb a "T"); [rewrite E0; reflexivity|].
  destruct (Py.str_eqb a "A").
  { inv_bind E0. inv_bind E0. inv_bind E0.
    rewrite E1. cbn [Py.bind]. rewrite E2. cbn [Py.bind].
    rewrite (IH' _ _ E3). cbn [Py.bind].
    assert (prod_loop (Pi m h d) a3 (tail a1) = Ok a0) as ->; [|reflexivity].
    unfold prod_loop in *. revert E0. apply foldM_mono.
    intros r0 c r1 Hc. inv_bind Hc. rewrite (IH' _ _ E0). assumption. }
  inv_bind E0. rewrite E1. cbn [Py.bind].
  destruct (Py.chr_eqb a1 "O"); [|rewrite E0; reflexivity].
  inv_bind E0. inv_bind E0. inv_bind E0.
  rewrite E2. cbn [Py.bind]. rewrite E3. cbn [Py.bind].
  rewrite (IH' _ _ E4). cbn [Py.bind].
  assert (concat_loop (Pi m h d) a4 (tail a2) = Ok a0) as ->; [|reflexivity].
  unfold concat_loop in *. revert E0. apply foldM_mono.
  intros r0 c r1 Hc. inv_bind Hc. rewrite (IH' _ _ E0). assumption.
Qed.

(** X16: An answer obtained within a recursion limit is the answer under every
    larger limit, for [is_satisfiable] and for [Pi]. *)
Theorem larger_limit_same_answer (h : heap) (d : dDNNF) (n n' : nat) (i : Z) :
  (n <= n')%nat ->
  (forall b, is_satisfiable n h d i = Ok b -> is_satisfiable n' h d i = Ok b) /\
  (forall r, Pi n h d i = Ok r -> Pi n' h d i = Ok r).
Proof.
  induction 1 as [|n' Hle [IHs IHp]]; [auto|]. split.
  - intros b Hb. apply is_satisfiable_next, IHs, Hb.
  - intros r Hr. apply Pi_next, IHp, Hr.
Qed.

Lemma larger_limit_same_answer_witness :
  (forall b, is_satisfiable 3 split_decision_heap split_decision 0 = Ok b ->
             is_satisfiable 1000 split_decision_heap split_decision 0 = Ok b) /\
  (forall r, Pi 3 split_decision_heap split_decision 0 = Ok r ->
             Pi 1000 split_decision_heap split_decision 0 = Ok r).
Proof.
  apply (larger_limit_same_answer split_decision_heap split_decision 3 1000 0).
  lia.
Defined.

(** ** Necessary property and necessary reason *)

Lemma foldM_app_bind {A B} (f : A -> B -> res A) (a : A) (l1 l2 : list B) :
  foldM f a (l1 ++ l2) = do a' <- foldM f a l1; foldM f a' l2.
Proof.
  revert a. induction l1 as [|x l1 IH]; intros a; simpl; [reflexivity|].
  destruct (f a x); simpl; auto.
Qed.

Lemma foldM_snoc {A B} (f : A -> B -> res A) (a : A) (l : list B) (x : B) :
  foldM f a (l ++ [x]) = do a' <- foldM f a l; f a' x.
Proof.
  revert a. induction l as [|y l IH]; intros a; simpl.
  - destruct (f a x); reflexivity.
  - destruct (f a y); simpl; auto.
Qed.

Lemma necessary_step_adds (limit : nat) (h : heap) (d : dDNNF)
  (acc acc' : gset Z) (i : Z) :
  necessary_step limit h d acc i = Ok acc' ->
  exists pos neg sp sn,
    condition d [(i, false)] = Ok pos /\ condition d [(i, true)] = Ok neg /\
    is_satisfiable limit h pos 0 = Ok sp /\
    is_satisfiable limit h neg 0 = Ok sn /\
    forall x, x ∈ acc' <->
              x ∈ acc \/ x = i /\ sp = false \/ x = - i /\ sn = false.
Proof.
  unfold necessary_step. intros H. repeat inv_bind H. inv_ok.
  exists a, a0, a1, a2. repeat split; try assumption.
  - destruct a1, a2; set_solver.
  - destruct a1, a2; set_solver.
Qed.

Lemma necessary_property_members (limit : nat) (h : heap) (d : dDNNF) (m : Z)
  (np : gset Z) :
  necessary_property limit h d m = Ok np ->
  forall x, x ∈ np <->
    1 <= Z.abs x <= m /\
    exists cd, condition d [(Z.abs x, x <? 0)] = Ok cd /\
               is_satisfiable limit h cd 0 = Ok false.
Proof.
  unfold necessary_property.
  assert (forall js acc,
            (forall i, i ∈ js -> 1 <= i) ->
            foldM (necessary_step limit h d) ∅ js = Ok acc ->
            forall x, x ∈ acc <->
              Z.abs x ∈ js /\
              exists cd, condition d [(Z.abs x, x <? 0)] = Ok cd /\
                         is_satisfiable limit h cd 0 = Ok false) as Hgen.
  { induction js as [|i js IH] using rev_ind; intros acc Hpos H.
    - simpl in H. inv_ok. intros x. split; [set_solver|].
      intros [Hin _]. inversion Hin.
    - rewrite foldM_snoc in H. inv_bind H.
      assert (1 <= i) as Hi by (apply Hpos, elem_of_app; right; left).
      specialize (IH a (fun j Hj => Hpos j (proj2 (elem_of_app _ _ _) (or_introl Hj))) E).
      destruct (necessary_step_adds _ _ _ _ _ _ H)
        as (pos & neg & sp & sn & Hp & Hn & Hsp & Hsn & Hacc).
      intros x. rewrite Hacc, IH, elem_of_app, list_elem_of_singleton.
      split.
      + intros [[Hin Hex]|[[-> ->]|[-> ->]]].
        * auto.
        * split; [right; lia|]. exists pos. split; [|assumption].
          replace (Z.abs i) with i by lia.
          replace (i <? 0) with false by (symmetry; apply Z.ltb_ge; lia).
          assumption.
        * split; [right; lia|]. exists neg. split; [|assumption].
          replace (Z.abs (- i)) with i by lia.
          replace (- i <? 0) with true by (symmetry; apply Z.ltb_lt; lia).
          assumption.
      + intros [[Hin|Habs] (cd & Hcd & Hsat)]; [left; eauto|].
        right. rewrite Habs in Hcd.
        destruct (Z.ltb_spec x 0) as [Hneg|Hge].
        * right. split; [lia|]. rewrite Hn in Hcd. inv_ok. congruence.
        * left. split; [lia|]. rewrite Hp in Hcd. inv_ok. congruence. }
  intros H x. rewrite (Hgen _ _ (fun i Hi => proj1 (proj1 (elem_of_range2 _ _ _) Hi)) H).
  rewrite elem_of_range2. split; intros [? ?]; (split; [lia|assumption]).
Qed.

Lemma condition_label_assigned (a : dict) (l : string) (x : Z) (ay : bool) :
  Py.int l = Ok x -> dict_get a (Z.abs x) = Some ay ->
  condition_label a l
  = Ok (if (x >? 0) && ay || (x <? 0) && negb ay then "T" else "F").
Proof.
  intros Hint Hget. pose proof (int_leaf_label _ _ Hint) as Hleaf.
  unfold condition_label. destruct l as [|c l]; [discriminate Hleaf|].
  simpl in Hleaf. cbn [Py.char0 Py.bind]. rewrite Hleaf, Hint. cbn [Py.bind].
  rewrite Hget. reflexivity.
Qed.

(** Conditioning on an assignment that gives [y] the value [b] restricts
    conditioning on [{y: b}] alone. *)
Lemma condition_extends_single (n : nat) (h : heap) (d cd cd1 : dDNNF)
  (a : dict) (y : Z) (b : bool) :
  dict_get a y = Some b ->
  condition d a = Ok cd -> condition d [(y, b)] = Ok cd1 ->
  is_satisfiable n h cd 0 = Ok true ->
  is_satisfiable n h cd1 0 <> Ok false.
Proof.
  intros Hay Hcd Hcd1 Hsat Hsat1.
  destruct (relabel_Ok _ _ _ Hcd) as (Hc & Hl & Hk).
  destruct (relabel_Ok _ _ _ Hcd1) as (Hc1 & Hl1 & Hk1).
  enough (false = true) by discriminate.
  apply (is_satisfiable_weaken h cd1 cd) with (n := n) (i := 0);
    try assumption; try congruence.
  - apply list_eq. intros k.
    destruct (decide (k < length (label d))%nat) as [Hlt|Hge].
    + destruct (Hk k Hlt) as (c & _ & _ & Hcd0 & _ & _ & Hck & _).
      destruct (Hk1 k Hlt) as (c1 & _ & _ & Hcd0' & _ & _ & Hck1 & _).
      congruence.
    + rewrite !lookup_ge_None_2 by lia; reflexivity.
  - intros k l1 Hl1k.
    assert (k < length (label d))%nat as Hlt
        by (apply lookup_lt_Some in Hl1k; lia).
    destruct (Hk k Hlt) as (_ & l & l' & _ & Hld & Hf & _ & Hl').
    destruct (Hk1 k Hlt) as (_ & l0 & l1' & _ & Hld1 & Hf1 & _ & Hl1').
    assert (l0 = l) as -> by congruence.
    assert (l1' = l1) as -> by congruence.
    exists l'. split; [assumption|].
    destruct (condition_label_cases _ _ _ Hf1)
      as [->|(x1 & ay1 & Hleaf & Hx1 & Hget1 & ->)].
    + exact (condition_label_weaker _ _ _ Hf).
    + left. simpl in Hget1.
      destruct (Z.eqb_spec y (Z.abs x1)) as [->|]; [|discriminate Hget1].
      inv_ok. injection Hget1 as <-.
      rewrite (condition_label_assigned _ _ _ _ Hx1 Hay) in Hf. congruence.
Qed.

(** X17: Whenever [necessary_Reason(d, m)] returns, it returns what
    [necessary_property(d, m)] returns: its test on the conditioned circuit
    can only give the empty set when the necessary property is empty. *)
Theorem necessary_Reason_is_necessary_property (limit : nat) (h : heap)
  (d : dDNNF) (m : Z) (r : gset Z) :
  necessary_Reason limit h d m = Ok r ->
  necessary_property limit h d m = Ok r.
Proof.
  unfold necessary_Reason. intros H. inv_bind H. inv_bind H. inv_bind H.
  inv_ok. rename a into np. rename a0 into cd.
  destruct a1; [|assumption]. rewrite E. f_equal.
  apply set_eq. intros x. split; [|set_solver]. intros Hx. exfalso.
  destruct (assignment_covers (fun x => x <? 0) (elements np) [] x)
    as (bb & Hbb); [apply elem_of_elements; assumption|].
  fold (flipped_assignment np) in Hbb.
  pose proof Hbb as Hbb'. unfold flipped_assignment in Hbb'.
  apply assignment_lookup in Hbb' as [Hnil|(x' & Hx' & Habs & ->)];
    [discriminate Hnil|].
  apply elem_of_elements in Hx'.
  apply (necessary_property_members _ _ _ _ _ E) in Hx'
    as (_ & cd1 & Hcd1 & Hsat1).
  rewrite Habs in Hcd1.
  exact (condition_extends_single limit h d cd cd1 _ _ _ Hbb E0 Hcd1 E1 Hsat1).
Qed.

Lemma necessary_Reason_is_necessary_property_witness :
  necessary_property 1000 split_decision_heap split_decision_110 3
  = Ok {[1; 2]}.
Proof.
  apply (necessary_Reason_is_necessary_property 1000 split_decision_heap
           split_decision_110 3).
  vm_compute. reflexivity.
Defined.

(** X18: A literal [x] is in [necessary_property(d, m)] exactly when its
    variable is among [1..m] and conditioning [d] on that variable set
    against the literal ([False] for a positive [x], [True] for a negative
    one) is unsatisfiable. *)
Theorem necessary_property_membership (limit : nat) (h : heap) (d : dDNNF)
  (m : Z) (np : gset Z) (x : Z) :
  necessary_property limit h d m = Ok np ->
  (x ∈ np <->
   1 <= Z.abs x <= m /\
   exists cd, condition d [(Z.abs x, x <? 0)] = Ok cd /\
              is_satisfiable limit h cd 0 = Ok false).
Proof. intros H. apply necessary_property_members. assumption. Qed.

Lemma necessary_property_membership_witness :
  2 ∈ ({[1; 2]} : gset Z) <->
  1 <= Z.abs 2 <= 3 /\
  exists cd, condition split_decision_110 [(Z.abs 2, 2 <? 0)] = Ok cd /\
             is_satisfiable 1000 split_decision_heap cd 0 = Ok false.
Proof.
  apply (necessary_property_membership 1000 split_decision_heap
           split_decision_110 3).
  vm_compute. reflexivity.
Defined.

(** ** Even-if-because *)

(** X19: The perturbed instance of [evenIf_because_t] has the length of the
    instance, and perturbing twice by the same set gives the instance
    back, whatever integers it holds. *)
Theorem perturb_involutive (a : list Z) (p : gset Z) :
  length (perturb a p) = length a /\ perturb (perturb a p) p = a.
Proof.
  unfold perturb. split; [apply length_imap|].
  apply list_eq. intros i. rewrite !list_lookup_imap.
  destruct (a !! i) as [ai|]; simpl; [|reflexivity].
  case_bool_decide; f_equal; lia.
Qed.

Lemma copy_is_same (d : dDNNF) :
  length (children d) = length (label d) -> relabel Ok d = Ok d.
Proof. intros Hlen. apply relabel_fixed; auto. Qed.

(** X20: Whenever [evenIf_because_t] returns on a base circuit whose rows are
    shared with the copy, it leaves the base circuit with one more entry
    in the row of every [Or(x)] node: the index of the node that
    [consensus] appended to the copy.  The other rows are as before. *)
Theorem evenIf_because_t_grows_base (limit : nat) (h h' : heap) (d : dDNNF)
  (a : list Z) (t : dict) (p : gset Z) (b : bool) :
  well_formed h d ->
  evenIf_because_t limit h d a t p = Ok (h', b) ->
  length h' = (length h + or_count (label d))%nat /\
  forall i l r,
    label d !! i = Some l -> row h d (Z.of_nat i) = Ok r ->
    row h' d (Z.of_nat i)
    = Ok (if starts_with_O l
          then r ++ [Z.of_nat (length (label d)
                               + or_count (take i (label d)))]
          else r).
Proof.
  intros Hwf H. unfold evenIf_because_t in H.
  rewrite copy_is_same in H by (destruct Hwf; assumption). cbn [Py.bind] in H.
  inv_bind H. inv_bind H. inv_bind H. inv_ok. destruct a0 as [h1 d1].
  simpl fst. unfold consensus, range in E.
  pose proof (consensus_loop_inv h d _ Hwf 0 _ _ eq_refl
                (consensus_inv_start h d Hwf) E) as (I1 & I2 & I3 & I4).
  simpl in I1, I2, I3, I4. rewrite take_ge in I3 by lia.
  split; [assumption|]. intros i l r Hl Hr.
  unfold row in *. inv_bind Hr. inv_ok. rewrite E2. cbn [Py.bind].
  apply get_nat_Ok in E2. f_equal. unfold deref at 1.
  erewrite list_lookup_total_correct; [|apply I4; eassumption].
  unfold appended. rewrite Hl.
  rewrite (bool_decide_eq_true_2 _ (lookup_lt_Some _ _ _ Hl)), andb_true_r.
  destruct (starts_with_O l); [reflexivity|apply app_nil_r].
Qed.

Lemma evenIf_because_t_grows_base_witness :
  length [[4; 1; 7]; [3; 2]; []; []; [6; 5]; []; []; [5; 2]]
  = (length split_heap + or_count (label split_circuit))%nat /\
  forall i l r,
    label split_circuit !! i = Some l ->
    row split_heap split_circuit (Z.of_nat i) = Ok r ->
    row [[4; 1; 7]; [3; 2]; []; []; [6; 5]; []; []; [5; 2]] split_circuit
        (Z.of_nat i)
    = Ok (if starts_with_O l
          then r ++ [Z.of_nat (length (label split_circuit)
                               + or_count (take i (label split_circuit)))]
          else r).
Proof.
  apply (evenIf_because_t_grows_base 1000 split_heap _ split_circuit
           [1; 1; 1] [(1, true); (2, true)] {[ 3 ]} true).
  - exact split_circuit_well_formed.
  - vm_compute. reflexivity.
Defined.

(** ** Consensus keeps the object invariant *)

(** X21: [consensus] keeps the object invariant: on a circuit whose
    rows are distinct and as many as its labels, it returns a circuit
    with the same property. *)
Theorem consensus_well_formed (h h' : heap) (d d' : dDNNF) :
  well_formed h d -> consensus h d = Ok (h', d') -> well_formed h' d'.
Proof.
  intros Hwf H. unfold consensus, range in H.
  pose proof (consensus_loop_inv h d _ Hwf 0 _ _ eq_refl
                (consensus_inv_start h d Hwf) H) as (I1 & I2 & I3 & _).
  simpl in I1, I2, I3. destruct Hwf as (Hlen & Hnd & Hall).
  set (k := or_count (take (length (label d)) (label d))) in *.
  unfold well_formed. rewrite I1, I2, I3.
  rewrite !length_app, length_seq, length_replicate. split; [lia|]. split.
  - apply NoDup_app. split; [assumption|]. split; [|apply NoDup_seq].
    intros c Hc Hc'. apply elem_of_seq in Hc'.
    rewrite Forall_forall in Hall. specialize (Hall c Hc). lia.
  - apply Forall_app. split.
    + eapply Forall_impl; [exact Hall|]. simpl. intros; lia.
    + apply Forall_forall. intros c Hc. apply elem_of_seq in Hc. lia.
Qed.

Lemma consensus_well_formed_witness :
  well_formed split_decision_heap
    (mk_dDNNF [0; 1; 2; 3; 4; 5; 6; 7]%nat
              ["O1"; "A"; "3"; "-1"; "A"; "2"; "1"; "A"]).
Proof.
  apply (consensus_well_formed split_heap _ split_circuit).
  - exact split_circuit_well_formed.
  - vm_compute. reflexivity.
Defined.

(** ** Loader: edge cases *)

Lemma load_loop_upto (h : heap) (file : list string) (nodes : list node_line)
  (m : nat) :
  forall k : nat,
    (forall i n, (k <= i < k + m)%nat -> nodes !! i = Some n ->
                 describes (read_tokens file (S i)) n) ->
    (k + m <= length nodes)%nat ->
    foldM (load_step (Z.of_nat (length nodes)) file) (load_state h nodes k)
          (map Z.of_nat (seq k m))
    = Ok (load_state h nodes (k + m)).
Proof.
  induction m as [|m IH]; intros k Hdesc Hle; simpl.
  - rewrite Nat.add_0_r. reflexivity.
  - destruct (lookup_lt_is_Some_2 nodes k) as (nd & Hnd); [lia|].
    rewrite (load_step_line h file nodes k nd Hnd)
      by (apply Hdesc; [lia|assumption]).
    cbn [Py.bind]. rewrite IH; [f_equal; f_equal; lia| |lia].
    intros i n Hi. apply Hdesc. lia.
Qed.

Lemma read_tokens_past_end (file : list string) (k : nat) :
  (length file <= k)%nat -> read_tokens file k = [""].
Proof.
  intros Hk. unfold read_tokens. rewrite nth_overflow by assumption.
  reflexivity.
Qed.

(** X22: A file that ends before the declared number of node lines makes
    [file_to_dDNNF] raise [IndexError]. *)
Theorem file_to_dDNNF_truncated (h : heap) (file : list string) (vt : string)
  (v : Z) (lines : list node_line) :
  Py.get (read_tokens file 0) 1 = Ok vt ->
  Py.int vt = Ok v ->
  Z.of_nat (length lines) < v ->
  length file = S (length lines) ->
  (forall i n, lines !! i = Some n -> describes (read_tokens file (S i)) n) ->
  file_to_dDNNF h file = Raise IndexError.
Proof.
  intros Hvt Hv Hlt Hfile Hdesc. unfold file_to_dDNNF. cbv zeta.
  destruct (read_tokens file 0) as [|t ts] eqn:Etok; [discriminate Hvt|].
  rewrite Hvt. cbn [Py.bind]. rewrite Hv. cbn [Py.bind].
  set (n := length lines) in *.
  remember (lines ++ replicate (Z.to_nat v - n) LineTrue) as nodes eqn:En.
  assert (length nodes = Z.to_nat v) as Hnodes
      by (subst nodes; rewrite length_app, length_replicate; lia).
  assert (forall i nd, (i < n)%nat -> nodes !! i = Some nd ->
                       lines !! i = Some nd) as Hpre.
  { intros i nd Hi Hnd. subst nodes.
    rewrite lookup_app_l in Hnd by (fold n; lia). assumption. }
  clear En.
  assert (v = Z.of_nat (length nodes)) as -> by lia.
  rewrite Nat2Z.id. unfold range.
  replace (length nodes) with (n + S (length nodes - S n))%nat at 3 by lia.
  rewrite seq_app, map_app, foldM_app_bind.
  assert (new_dDNNF h (length nodes) = load_state h nodes 0) as ->.
  { unfold new_dDNNF, load_state. rewrite take_0, Nat.sub_0_r. simpl.
    rewrite !app_nil_r. reflexivity. }
  rewrite (load_loop_upto h file nodes n 0); [|..|lia].
  - cbn [Py.bind map seq foldM]. simpl Nat.add.
    unfold load_step at 1. cbv zeta. rewrite Nat2Z.id.
    rewrite read_tokens_past_end by lia. reflexivity.
  - intros i nd Hi Hnd. apply Hdesc, Hpre; [lia|assumption].
Qed.

Lemma file_to_dDNNF_truncated_witness :
  file_to_dDNNF [] ["nnf 3 2 1" +:+ nl; "L 1" +:+ nl] = Raise IndexError.
Proof.
  apply (file_to_dDNNF_truncated [] _ "3" 3 [LineLit "1" 1]).
  - vm_compute. reflexivity.
  - vm_compute. reflexivity.
  - simpl. lia.
  - reflexivity.
  - intros [|i] n H; [|discriminate H]. injection H as <-.
    exists "L", []. repeat split; try discriminate; vm_compute; reflexivity.
Defined.

(** X23: A header that declares no node, or a negative number of nodes, gives
    the empty circuit; the rest of the file is not read. *)
Theorem file_to_dDNNF_no_node (h : heap) (file : list string) (vt : string)
  (v : Z) :
  Py.get (read_tokens file 0) 1 = Ok vt ->
  Py.int vt = Ok v -> v <= 0 ->
  file_to_dDNNF h file = Ok (h, Some (mk_dDNNF [] [])).
Proof.
  intros Hvt Hv Hle. unfold file_to_dDNNF. cbv zeta.
  destruct (read_tokens file 0) as [|t ts] eqn:Etok; [discriminate Hvt|].
  rewrite Hvt. cbn [Py.bind]. rewrite Hv. cbn [Py.bind].
  replace (Z.to_nat v) with 0%nat by lia. simpl. rewrite app_nil_r.
  reflexivity.
Qed.

Lemma file_to_dDNNF_no_node_witness :
  file_to_dDNNF [] ["nnf -2 0 0" +:+ nl; "garbage" +:+ nl]
  = Ok ([], Some (mk_dDNNF [] [])).
Proof.
  apply (file_to_dDNNF_no_node [] _ "-2" (-2)).
  - vm_compute. reflexivity.
  - vm_compute. reflexivity.
  - lia.
Defined.

(** X24: The circuit loaded from a well-formed text satisfies the object
    invariant, its rows are all new, and the rows that were in the store
    before are left as they were. *)
Theorem file_to_dDNNF_allocates (h : heap) (file : list string) (vt : string)
  (nodes : list node_line) :
  Py.get (read_tokens file 0) 1 = Ok vt ->
  Py.int vt = Ok (Z.of_nat (length nodes)) ->
  (forall i n, nodes !! i = Some n -> describes (read_tokens file (S i)) n) ->
  exists h' d,
    file_to_dDNNF h file = Ok (h', Some d) /\
    well_formed h' d /\
    Forall (fun c => (length h <= c)%nat) (children d) /\
    forall c, (c < length h)%nat -> h' !! c = h !! c.
Proof.
  intros Hvt Hv Hdesc.
  rewrite (file_to_dDNNF_state h file vt nodes Hvt Hv Hdesc).
  eexists _, _. split; [reflexivity|]. unfold well_formed. cbn [label children].
  rewrite length_seq, length_reverse, length_map. repeat split.
  - apply NoDup_seq.
  - apply Forall_forall. intros c Hc. apply elem_of_seq in Hc.
    rewrite length_app, length_reverse, length_map. lia.
  - apply Forall_forall. intros c Hc. apply elem_of_seq in Hc. lia.
  - intros c Hc. apply lookup_app_l. assumption.
Qed.

Lemma file_to_dDNNF_allocates_witness :
  exists h' d,
    file_to_dDNNF [[7]] split_file = Ok (h', Some d) /\
    well_formed h' d /\
    Forall (fun c => (length [[7]] <= c)%nat) (children d) /\
    forall c, (c < length [[7]])%nat -> h' !! c = [[7]] !! c.
Proof.
  apply (file_to_dDNNF_allocates [[7]] split_file "7" split_lines).
  - vm_compute. reflexivity.
  - vm_compute. reflexivity.
  - exact split_file_described.
Defined.

(** ** Because and the necessary property *)

(** X25: If [because_t(d, t)] answers true, every literal of [t] whose variable
    is among [1..m] belongs to [necessary_property(d, m)]. *)
Theorem because_t_literals_necessary (limit : nat) (h : heap) (d : dDNNF)
  (t : dict) (m : Z) (np : gset Z) (c : Z) (v : bool) :
  because_t limit h d t = Ok true ->
  necessary_property limit h d m = Ok np ->
  (c, v) ∈ t -> 1 <= c <= m ->
  (if v then c else - c) ∈ np.
Proof.
  intros Hb Hnp Hin Hc. unfold because_t in Hb.
  inv_bind Hb. inv_bind Hb. inv_bind Hb. destruct a1; [discriminate Hb|].
  destruct (proj1 (because_loop_true_iff _ _ _ _) Hb c v Hin)
    as (cd & Hcd & Hsat).
  apply (necessary_property_members _ _ _ _ _ Hnp).
  destruct v; simpl in Hcd.
  - split; [lia|]. exists cd. replace (Z.abs c) with c by lia.
    replace (c <? 0) with false by (symmetry; apply Z.ltb_ge; lia). auto.
  - split; [lia|]. exists cd. replace (Z.abs (- c)) with c by lia.
    replace (- c <? 0) with true by (symmetry; apply Z.ltb_lt; lia). auto.
Qed.

Lemma because_t_literals_necessary_witness :
  (if true then 2 else - 2) ∈ ({[1; 2]} : gset Z).
Proof.
  apply (because_t_literals_necessary 1000 split_decision_heap
           split_decision_110 [(1, true); (2, true)] 3 {[1; 2]} 2 true).
  - vm_compute. reflexivity.
  - vm_compute. reflexivity.
  - right. left.
  - lia.
Defined.

(** ** Decision bias *)

Lemma relabel_rows_take (f : string -> res string) (d d' : dDNNF) :
  relabel f d = Ok d' ->
  children d' = take (length (label d)) (children d).
Proof.
  intros H. destruct (relabel_Ok _ _ _ H) as (Hc & Hl & Hk).
  apply list_eq. intros k.
  destruct (decide (k < length (label d))%nat) as [Hlt|Hge].
  - rewrite lookup_take_lt by assumption.
    destruct (Hk k Hlt) as (c & l & l' & Hcd & _ & _ & Hcd' & _). congruence.
  - rewrite lookup_take_ge by lia. apply lookup_ge_None_2. lia.
Qed.

Lemma negate_label_literal (l : string) (x : Z) :
  Py.int l = Ok x -> negate_label l = Ok (Py.str (- x)).
Proof.
  intros Hint. unfold negate_label.
  destruct l as [|c l]; [discriminate Hint|].
  destruct (literal_not_gate _ _ c Hint eq_refl) as (HF & HA & HO & HT).
  cbn [Py.char0 Py.bind]. rewrite HT, HF, HA, HO, Hint. reflexivity.
Qed.

(** X26: If a decision is biased for one choice of unprotected variables, it is
    biased for every choice that marks no further variable unprotected:
    [decision_bias] cannot answer false there. *)
Theorem decision_bias_fewer_unprotected (limit : nat) (h : heap) (d : dDNNF)
  (u u' : list Z) :
  Forall2 (fun v v' => Py.truthy v' = true -> Py.truthy v = true) u u' ->
  decision_bias limit h d u = Ok true ->
  decision_bias limit h d u' <> Ok false.
Proof.
  intros Hall H H'.
  assert (forall y v v', Py.get u y = Ok v -> Py.get u' y = Ok v' ->
                         Py.truthy v' = true -> Py.truthy v = true) as Hsub.
  { intros y v v' Hv Hv'.
    destruct (get_same_length u u' y v (eq_sym (Forall2_length _ _ _ Hall)) Hv)
      as (k & v'' & Hk & Hk' & Hget).
    assert (v'' = v') as -> by congruence.
    exact (Forall2_lookup_lr _ _ _ _ _ _ Hall Hk Hk'). }
  clear Hall. unfold decision_bias in H, H'.
  inv_bind H. inv_bind H. rename a into q. rename a0 into nq.
  inv_bind H'. inv_bind H'. rename a into q'. rename a0 into nq'.
  enough (false = true) by discriminate.
  destruct (relabel_Ok _ _ _ E) as (_ & Hlq & Hq).
  destruct (relabel_Ok _ _ _ E0) as (_ & Hlnq & Hnq).
  destruct (relabel_Ok _ _ _ E1) as (_ & Hlq' & Hq').
  destruct (relabel_Ok _ _ _ E2) as (_ & Hlnq' & Hnq').
  apply (is_satisfiable_weaken h nq' nq) with (n := limit) (i := 0);
    try assumption; try congruence.
  - rewrite (relabel_rows_take _ _ _ E0), (relabel_rows_take _ _ _ E2).
    rewrite (relabel_rows_take _ _ _ E), (relabel_rows_take _ _ _ E1).
    congruence.
  - intros k l1 Hl1.
    assert (k < length (label d))%nat as Hlt
        by (apply lookup_lt_Some in Hl1; lia).
    destruct (Hq k Hlt) as (_ & l & lq & _ & Hl & Hfq & _ & Hlqk).
    destruct (Hq' k Hlt) as (_ & l0 & lq' & _ & Hl0 & Hfq' & _ & Hlqk').
    assert (l0 = l) as -> by congruence.
    destruct (Hnq k) as (_ & lq0 & lnq & _ & Hlq0 & Hfn & _ & Hlnqk); [lia|].
    destruct (Hnq' k) as (_ & lq0' & lnq' & _ & Hlq0' & Hfn' & _ & Hlnqk');
      [lia|].
    assert (lq0 = lq) as -> by congruence.
    assert (lq0' = lq') as -> by congruence.
    assert (lnq' = l1) as -> by congruence.
    exists lnq. split; [assumption|].
    destruct (quantify_label_cases _ _ _ Hfq)
      as [[Hleaf ->]|(x & ay & Hleaf & Hx & Hay & ->)].
    { destruct (quantify_label_cases _ _ _ Hfq')
        as [[_ ->]|(x' & ay' & Hleaf' & _)]; [|congruence].
      left. congruence. }
    destruct (quantify_label_cases _ _ _ Hfq')
      as [[Hleaf' _]|(x' & ay' & _ & Hx' & Hay' & ->)]; [congruence|].
    assert (x' = x) as -> by congruence.
    destruct (Py.truthy ay') eqn:Ht'.
    + rewrite (Hsub _ _ _ Hay Hay' Ht') in Hfn. left. congruence.
    + destruct (Py.truthy ay); [|left; congruence].
      rewrite (negate_label_literal _ _ Hx) in Hfn'. inv_ok.
      right. split; [exact (int_leaf_label _ _ (int_str (- x)))|].
      right. vm_compute in Hfn. inv_ok. reflexivity.
Qed.

Lemma decision_bias_fewer_unprotected_witness :
  decision_bias 1000 split_decision_heap split_decision [1; 0; 0] <> Ok false.
Proof.
  apply (decision_bias_fewer_unprotected 1000 split_decision_heap
           split_decision [1; 0; 1] [1; 0; 0]).
  - repeat constructor; vm_compute; congruence.
  - vm_compute. reflexivity.
Defined.

(** ** The CNF file *)

Lemma for_each_length {A B} (f : A -> option B) (l : list A) (ys : list B) :
  Sympy.for_each f l = Some ys -> length ys = length l.
Proof.
  revert ys. induction l as [|x l IH]; intros ys H; simpl in H.
  - injection H as <-. reflexivity.
  - destruct (f x); [|discriminate H].
    destruct (Sympy.for_each f l); [|discriminate H].
    injection H as <-. simpl. f_equal. apply IH. reflexivity.
Qed.

Lemma cnf_to_dimacs_length (formula : Sympy.expr) (m : Sympy.symbol_map)
  (clauses : list string) :
  cnf_to_dimacs formula m = Some clauses ->
  Z.of_nat (length clauses) = count_clauses formula.
Proof.
  destruct formula as [s|a|args|lits]; simpl; intros H.
  - destruct (Sympy.lookup_name m s); [|discriminate H]. injection H as <-.
    reflexivity.
  - destruct (Sympy.get m a); [|discriminate H]. injection H as <-.
    reflexivity.
  - rewrite (for_each_length _ _ _ H). reflexivity.
  - destruct (Sympy.for_each _ lits); [|discriminate H]. injection H as <-.
    reflexivity.
Qed.

(** X27: Whenever [cnf_to_dimacs] returns, it returns as many clauses as
    [count_clauses] counts. *)
Theorem cnf_to_dimacs_count (formula : Sympy.expr) (m : Sympy.symbol_map)
  (clauses : list string) :
  cnf_to_dimacs formula m = Some clauses ->
  Z.of_nat (length clauses) = count_clauses formula.
Proof. apply cnf_to_dimacs_length. Qed.

Lemma cnf_to_dimacs_count_witness :
  Z.of_nat (length ["1 -2"; "3"])
  = count_clauses (Sympy.And [Sympy.Or [Sympy.Symbol "C";
                                        Sympy.Not (Sympy.Symbol "F")];
                              Sympy.Symbol "G"]).
Proof.
  apply (cnf_to_dimacs_count _ [("C", 1); ("F", 2); ("G", 3)]).
  vm_compute. reflexivity.
Defined.

(** X28: The file written by [cnf_to_file] is consistent: the header declares
    [len(symbol_map)] variables and exactly as many clauses as clause lines
    follow, never a single one (a lone clause is written twice), and every
    clause line ends with [" 0"]. *)
Theorem cnf_to_file_consistent (formula : Sympy.expr) (m : Sympy.symbol_map)
  (out : list string) :
  cnf_to_file formula m = Some out ->
  exists k body,
    out = ("p cnf " +:+ Py.str (Z.of_nat (length m)) +:+ " " +:+ Py.str k
           +:+ nl) :: body /\
    Z.of_nat (length body) = k /\
    k = (if count_clauses formula =? 1 then 2 else count_clauses formula) /\
    Forall (fun line => exists clause, line = clause +:+ " 0" +:+ nl) body.
Proof.
  unfold cnf_to_file. intros H.
  destruct (cnf_to_dimacs formula m) as [clauses|] eqn:E; [|discriminate H].
  pose proof (cnf_to_dimacs_length _ _ _ E) as Hlen.
  destruct (count_clauses formula =? 1) eqn:E1.
  - destruct clauses as [|c0 clauses]; [discriminate H|]. injection H as <-.
    eexists 2, _. split; [reflexivity|]. repeat split.
    repeat constructor; eauto.
  - injection H as <-. eexists _, _. split; [reflexivity|].
    rewrite length_map. repeat split; [assumption|].
    apply Forall_forall. intros line Hl.
    apply list_elem_of_fmap in Hl as (c & -> & _). eauto.
Qed.

Lemma cnf_to_file_consistent_witness :
  exists k body,
    [ "p cnf 3 2" +:+ nl; "1 -2 0" +:+ nl; "1 -2 0" +:+ nl ]
    = ("p cnf " +:+ Py.str (Z.of_nat (length [("C", 1); ("F", 2); ("G", 3)]))
       +:+ " " +:+ Py.str k +:+ nl) :: body /\
    Z.of_nat (length body) = k /\
    k = (if count_clauses (Sympy.Or [Sympy.Symbol "C";
                                     Sympy.Not (Sympy.Symbol "F")]) =? 1
         then 2
         else count_clauses (Sympy.Or [Sympy.Symbol "C";
                                       Sympy.Not (Sympy.Symbol "F")])) /\
    Forall (fun line => exists clause, line = clause +:+ " 0" +:+ nl) body.
Proof.
  apply (cnf_to_file_consistent
           (Sympy.Or [Sympy.Symbol "C"; Sympy.Not (Sympy.Symbol "F")])
           [("C", 1); ("F", 2); ("G", 3)]).
  vm_compute. reflexivity.
Defined.

Lemma lookup_name_set (m : Sympy.symbol_map) (s s' : string) (v : Z) :
  Sympy.lookup_name (Sympy.set m s v) s'
  = if Py.str_eqb s s' then Some v else Sympy.lookup_name m s'.
Proof.
  induction m as [|[k v'] m IH]; simpl; [reflexivity|].
  destruct (decide (k = s)) as [->|Hk].
  - rewrite str_eqb_refl. simpl. destruct (Py.str_eqb s s'); reflexivity.
  - rewrite (str_eqb_ne k s Hk). simpl. rewrite IH.
    destruct (decide (k = s')) as [->|Hk'].
    + rewrite str_eqb_refl, (str_eqb_ne s s') by congruence. reflexivity.
    + rewrite (str_eqb_ne k s' Hk'). reflexivity.
Qed.

Lemma length_set_new (m : Sympy.symbol_map) (s : string) (v : Z) :
  Sympy.lookup_name m s = None ->
  length (Sympy.set m s v) = S (length m).
Proof.
  induction m as [|[k v'] m IH]; simpl; [reflexivity|].
  destruct (Py.str_eqb k s); [discriminate|]. intros H. simpl. f_equal. auto.
Qed.

Lemma map_symbols_from_spec (symbols : list string) :
  forall (j : Z) (m : Sympy.symbol_map),
    NoDup symbols ->
    (forall s, s ∈ symbols -> Sympy.lookup_name m s = None) ->
    (forall i s, symbols !! i = Some s ->
       Sympy.lookup_name (map_symbols_from j symbols m) s
       = Some (j + Z.of_nat i + 1)) /\
    (forall s, s ∉ symbols ->
       Sympy.lookup_name (map_symbols_from j symbols m) s
       = Sympy.lookup_name m s) /\
    length (map_symbols_from j symbols m) = (length m + length symbols)%nat.
Proof.
  induction symbols as [|s0 symbols IH]; intros j m Hnd Hnew; simpl.
  - repeat split; [|lia]. intros i s H. discriminate H.
  - apply NoDup_cons in Hnd as [Hs0 Hnd].
    destruct (IH (j + 1) (Sympy.set m s0 (j + 1)) Hnd) as (Hget & Hout & Hlen).
    { intros s Hs. rewrite lookup_name_set.
      rewrite str_eqb_ne by (intros ->; contradiction).
      apply Hnew. right. assumption. }
    repeat split.
    + intros [|i] s H; simpl in H.
      * injection H as <-. rewrite (Hout s0 Hs0), lookup_name_set, str_eqb_refl.
        f_equal. lia.
      * rewrite (Hget i s H). f_equal. lia.
    + intros s Hs. apply not_elem_of_cons in Hs as [Hne Hs].
      rewrite (Hout s Hs), lookup_name_set, str_eqb_ne by congruence.
      reflexivity.
    + rewrite Hlen, length_set_new by (apply Hnew; left). lia.
Qed.

(** X29: [map_symbols_to_integers] numbers distinct symbols from 1 in the order
    given, and maps nothing else. *)
Theorem map_symbols_to_integers_numbers (symbols : list string) :
  NoDup symbols ->
  length (map_symbols_to_integers symbols) = length symbols /\
  (forall i s, symbols !! i = Some s ->
     Sympy.lookup_name (map_symbols_to_integers symbols) s
     = Some (Z.of_nat i + 1)) /\
  (forall s, s ∉ symbols ->
     Sympy.lookup_name (map_symbols_to_integers symbols) s = None).
Proof.
  intros Hnd. unfold map_symbols_to_integers.
  destruct (map_symbols_from_spec symbols 0 [] Hnd (fun _ _ => eq_refl))
    as (Hget & Hout & Hlen).
  repeat split; [exact Hlen| |exact Hout].
  intros i s H. rewrite (Hget i s H). f_equal.
Qed.

Lemma map_symbols_to_integers_numbers_witness :
  length (map_symbols_to_integers ["C"; "F"; "G"]) = length ["C"; "F"; "G"] /\
  (forall i s, ["C"; "F"; "G"] !! i = Some s ->
     Sympy.lookup_name (map_symbols_to_integers ["C"; "F"; "G"]) s
     = Some (Z.of_nat i + 1)) /\
  (forall s, s ∉ ["C"; "F"; "G"] ->
     Sympy.lookup_name (map_symbols_to_integers ["C"; "F"; "G"]) s = None).
Proof.
  apply (map_symbols_to_integers_numbers ["C"; "F"; "G"]).
  apply (bool_decide_unpack _). vm_compute. exact I.
Defined.
